(** * WhatsApp sentiment analyzer: the chat line parser and the sentiment
      ensemble, embedded from [backend/services/nlp_service.py],
      [backend/services/sentiment.py],
      [backend/services/explainable_ai_service.py] and
      [backend/services/language.py].

    Conventions of the embedding.
    - A Python [float] is an exact rational ([Q]); the rounding of binary64
      arithmetic is outside the model, and the properties below are about
      formulas, thresholds and control flow.  Equality of scores is [Qeq]
      ([==]).
    - A Python [str] is a [string] whose characters are the code points
      0..255 (the Latin-1 range of Unicode); [str.isspace], [str.lower],
      [str.isprintable], [str.splitlines] and the classes [\d], [\s] of [re]
      are written out on that range.
    - The three sentiment labels, which the code spells as the strings
      'Positive', 'Negative' and 'Neutral', are the constructors of [Label].
    - External libraries (NLTK's VADER, TextBlob, transformers, datetime,
      langdetect, emoji) are Section variables; a call that may raise returns
      an [outcome]. *)

From Stdlib Require Import QArith Qabs Qround Lqa Lia ZArith.
From Stdlib Require Import String Ascii List Bool.
Import ListNotations.

Close Scope Q_scope.
Open Scope string_scope.

(** ** Python numeric builtins on floats *)

Module PyNum.
Local Open Scope Q_scope.

Definition ltb (a b : Q) : bool := negb (Qle_bool b a).
Definition leb (a b : Q) : bool := Qle_bool a b.

(** [min(a, b)]: the first argument is kept unless the second is smaller. *)
Definition py_min (a b : Q) : Q := if ltb b a then b else a.

(** [max(a, b)]: the first argument is kept unless the second is larger. *)
Definition py_max (a b : Q) : Q := if ltb a b then b else a.

Definition py_abs (x : Q) : Q := Qabs x.

(** Nearest integer, ties to the even one. *)
Definition round_half_even (x : Q) : Z :=
  let f := Qfloor x in
  let r := x - inject_Z f in
  if ltb r (1 # 2) then f
  else if ltb (1 # 2) r then (f + 1)%Z
  else if Z.even f then f else (f + 1)%Z.

(** [round(x, ndigits)] on a float. *)
Definition py_round (x : Q) (ndigits : nat) : Q :=
  let scale := inject_Z (10 ^ Z.of_nat ndigits) in
  inject_Z (round_half_even (x * scale)) / scale.

(** [sum(xs)] *)
Definition py_sum (xs : list Q) : Q := fold_left Qplus xs 0.
End PyNum.

(** ** Python string methods on the code points 0..255 *)

Module PyStr.
Local Open Scope N_scope.

Definition between (lo hi n : N) : bool := (lo <=? n) && (n <=? hi).

(** [str.isspace] of one character: TAB..CR, FS..US, space, NEL, NBSP. *)
Definition isspace (c : ascii) : bool :=
  let n := N_of_ascii c in
  between 9 13 n || between 28 32 n || (n =? 133) || (n =? 160).

(** [str.isprintable] of one character: not a control character, not a
    separator other than the space, not the soft hyphen. *)
Definition isprintable (c : ascii) : bool :=
  let n := N_of_ascii c in
  between 32 126 n || (between 161 255 n && negb (n =? 173)).

Definition lower_char (c : ascii) : ascii :=
  let n := N_of_ascii c in
  if between 65 90 n || (between 192 222 n && negb (n =? 215))
  then ascii_of_N (n + 32) else c.

Fixpoint lower (s : string) : string :=
  match s with
  | EmptyString => EmptyString
  | String c s' => String (lower_char c) (lower s')
  end.

Fixpoint filter (p : ascii -> bool) (s : string) : string :=
  match s with
  | EmptyString => EmptyString
  | String c s' => if p c then String c (filter p s') else filter p s'
  end.

Fixpoint lstrip (s : string) : string :=
  match s with
  | EmptyString => EmptyString
  | String c s' => if isspace c then lstrip s' else s
  end.

Fixpoint rstrip (s : string) : string :=
  match s with
  | EmptyString => EmptyString
  | String c s' =>
      match rstrip s' with
      | EmptyString => if isspace c then EmptyString else String c EmptyString
      | r => String c r
      end
  end.

(** [s.strip()] *)
Definition strip (s : string) : string := rstrip (lstrip s).

Definition is_empty (s : string) : bool :=
  match s with EmptyString => true | _ => false end.

(** [not s.strip()] *)
Definition blank (s : string) : bool := is_empty (strip s).

(** [needle in hay] *)
Fixpoint contains (needle hay : string) : bool :=
  if String.prefix needle hay then true
  else match hay with
       | EmptyString => false
       | String _ hay' => contains needle hay'
       end.

(** Line boundaries of [str.splitlines] below U+0100: LF, VT, FF, CR, FS,
    GS, RS and NEL; CR LF counts as one boundary. *)
Definition is_linebreak (c : ascii) : bool :=
  let n := N_of_ascii c in
  between 10 13 n || between 28 30 n || (n =? 133).

Definition CR : ascii := ascii_of_N 13.
Definition LF : ascii := ascii_of_N 10.

(** [cur] holds the characters of the line being read, last one first. *)
Fixpoint splitlines_from (cur : string) (s : string) : list string :=
  match s with
  | EmptyString =>
      if is_empty cur then [] else [string_of_list_ascii (rev (list_ascii_of_string cur))]
  | String c s' =>
      if is_linebreak c then
        string_of_list_ascii (rev (list_ascii_of_string cur)) ::
        match s' with
        | String c' s'' =>
            if Ascii.eqb c CR && Ascii.eqb c' LF
            then splitlines_from EmptyString s''
            else splitlines_from EmptyString s'
        | EmptyString => []
        end
      else splitlines_from (String c cur) s'
  end.

(** [s.splitlines()] *)
Definition splitlines (s : string) : list string := splitlines_from EmptyString s.

(** The one-character string of a line feed, Python's ["\n"]. *)
Definition NL : string := String LF EmptyString.
End PyStr.

(** ** The three-way sentiment label *)

Inductive Label : Set := Positive | Negative | Neutral.

Definition label_str (l : Label) : string :=
match l with
| Positive => "Positive"
| Negative => "Negative"
| Neutral => "Neutral"
end.

Definition Label_eqb (a b : Label) : bool :=
match a, b with
| Positive, Positive | Negative, Negative | Neutral, Neutral => true
| _, _ => false
end.

(** ** Calls that may raise, and the trace of what a run touched *)

Module Eff.
(** What a call gives back: a value, or an exception with its text. *)
Inductive outcome (A : Type) : Type :=
| Returned (a : A)
| Raised (e : string).
Arguments Returned {A} a.
Arguments Raised {A} e.

(** The observable steps of the sentiment service. *)
Inductive event : Set :=
| CallVader (text : string)         (* self.vader.polarity_scores(text) *)
| CallTextBlob (text : string)      (* TextBlob(text).sentiment.polarity *)
| CallTransformers (text : string)  (* _ensure_transformers and the pipelines *)
| LogWarning (msg : string)
| LogError (msg : string).

(** A computation: its outcome and the events it produced, oldest first. *)
Definition M (A : Type) : Type := (outcome A * list event)%type.

Definition ret {A} (a : A) : M A := (Returned a, []).

Definition bind {A B} (m : M A) (f : A -> M B) : M B :=
  match m with
  | (Returned a, tr) => let (r, tr') := f a in (r, (tr ++ tr')%list)
  | (Raised e, tr) => (Raised e, tr)
  end.

(** [try: m except Exception as e: h e] *)
Definition try_except {A} (m : M A) (h : string -> M A) : M A :=
  match m with
  | (Raised e, tr) => let (r, tr') := h e in (r, (tr ++ tr')%list)
  | ok => ok
  end.

Definition emit (ev : event) : M unit := (Returned tt, [ev]).

(** A call into a library, recorded before its outcome is known. *)
Definition invoke {A} (ev : event) (r : outcome A) : M A := (r, [ev]).

Definition value {A} (m : M A) : outcome A := fst m.
Definition trace {A} (m : M A) : list event := snd m.
End Eff.

Declare Scope eff_scope.
Delimit Scope eff_scope with eff.
Notation "x <- m ;; k" := (Eff.bind m (fun x => k))
(at level 61, m at next level, right associativity) : eff_scope.
Notation "m ;;; k" := (Eff.bind m (fun _ => k))
(at level 61, right associativity) : eff_scope.

(** ** backend/services/sentiment.py *)

Module Sentiment.
Import Eff PyNum.
Local Open Scope Q_scope.
Local Open Scope eff_scope.

(** The dict [{'score': ..., 'label': ...}] a scorer returns. *)
Record ScorerResult : Set := { score : Q; label : Label }.

(** What [_analyze_transformer] returns when it returns a dict: the
    normalised score and the pipeline's own label text. *)
Record TransformerResult : Set := { t_score : Q; t_label : string }.

(** The values [_to_score] tells apart. *)
Inductive PyVal : Set :=
| VFalsy                                (* None, an empty dict, an empty list *)
| VDict (r : ScorerResult)              (* a dict with a 'score' key *)
| VPipeline (lab : string) (sc : Q)     (* a list whose first item has 'label' and 'score' *)
| VOther.                               (* any other truthy value *)

(** The dict [_ensemble_scores] returns. *)
Record EnsembleResult : Set :=
  { ens_score : Q; ens_label : Label; ens_confidence : Q }.

(** The dict [analyze] returns.  The two transformer keys are present only
    on the full path, not in the early and the fallback result. *)
Record AnalysisResult : Set :=
  { vader_score : Q;
    vader_label : Label;
    textblob_score : Q;
    textblob_label : Label;
    ensemble_score : Q;
    ensemble_label : Label;
    confidence : Q;
    transformer_keys : option (option TransformerResult * option TransformerResult) }.

(** The literal dict of the early return and of the [except] branch. *)
Definition neutral_result : AnalysisResult :=
  {| vader_score := 0.0; vader_label := Neutral;
     textblob_score := 0.0; textblob_label := Neutral;
     ensemble_score := 0.0; ensemble_label := Neutral;
     confidence := 0.0; transformer_keys := None |}.

Definition _to_score (val : PyVal) : Q :=
  match val with
  | VFalsy => 0.0
  | VDict r => score r
  | VPipeline lab sc =>
      let lab := PyStr.lower lab in
      if PyStr.contains "neg" lab || PyStr.contains "negative" lab
      then - sc else sc
  | VOther => 0.0
  end.

(** The list [scores] is assigned and never read; the [try] around
    [self.transformer_en] only passes; the [except] branch of the confidence
    is out of reach, as [abs], [-], [/ 2], [min] and [max] do not raise on
    floats. *)
Definition _ensemble_scores (vader textblob : PyVal) : EnsembleResult :=
  let vader_norm := _to_score vader in
  let textblob_norm := _to_score textblob in
  let scores := [(vader_norm, 0.5); (textblob_norm, 0.25)] in
  let ensemble_score := vader_norm * 0.6 + textblob_norm * 0.4 in
  let label :=
    if leb 0.05 ensemble_score then Positive
    else if leb ensemble_score (-0.05) then Negative
    else Neutral in
  let agreement := 1.0 - (py_abs (vader_norm - textblob_norm) / 2) in
  let confidence := py_abs ensemble_score * py_max 0.0 (py_min 1.0 agreement) in
  {| ens_score := ensemble_score;
     ens_label := label;
     ens_confidence := py_min confidence 1.0 |}.

Section Backends.

(** [self.vader.polarity_scores(text)['compound']], or the exception. *)
Variable vader_compound : string -> outcome Q.

(** [TextBlob(text).sentiment.polarity], or the exception. *)
Variable textblob_polarity : string -> outcome Q.

(** [_ensure_transformers] followed by the two guarded calls of
    [_analyze_transformer]; [None] stands for a missing pipeline, an empty
    output or a caught exception.  [Raised] is an exception of
    [_ensure_transformers] or of a pipeline's truth test, which [analyze]
    catches itself. *)
Variable run_transformers :
  string -> outcome (option TransformerResult * option TransformerResult).

Definition _analyze_vader (text : string) : M ScorerResult :=
  compound <- invoke (CallVader text) (vader_compound text) ;;
  let label :=
    if leb 0.05 compound then Positive
    else if leb compound (-0.05) then Negative
    else Neutral in
  ret {| score := compound; label := label |}.

Definition _analyze_textblob (text : string) : M ScorerResult :=
  try_except
    (polarity <- invoke (CallTextBlob text) (textblob_polarity text) ;;
     let label :=
       if ltb 0.1 polarity then Positive
       else if ltb polarity (-0.1) then Negative
       else Neutral in
     ret {| score := polarity; label := label |})
    (fun e =>
       emit (LogWarning ("TextBlob analysis failed: " ++ e)) ;;;
       ret {| score := 0.0; label := Neutral |}).

Definition analyze (text : string) : M AnalysisResult :=
  try_except
    (if PyStr.blank text then ret neutral_result
     else
       vader_result <- _analyze_vader text ;;
       textblob_result <- _analyze_textblob text ;;
       transformers <-
         try_except
           (invoke (CallTransformers text) (run_transformers text))
           (fun _ => ret (None, None)) ;;
       let ensemble := _ensemble_scores (VDict vader_result) (VDict textblob_result) in
       ret {| vader_score := score vader_result;
              vader_label := label vader_result;
              textblob_score := score textblob_result;
              textblob_label := label textblob_result;
              ensemble_score := ens_score ensemble;
              ensemble_label := ens_label ensemble;
              confidence := ens_confidence ensemble;
              transformer_keys := Some transformers |})
    (fun e =>
       emit (LogError ("Sentiment analysis failed: " ++ e)) ;;;
       ret neutral_result).

End Backends.
End Sentiment.

(** ** backend/services/explainable_ai_service.py *)

Module ExplainableAI.
Import PyNum.
Local Open Scope Q_scope.

Definition _calculate_confidence (score : Q) : Q :=
  py_round (py_min (py_abs score * 1.2) 1.0) 2.

Definition _score_to_label (score : Q) : Label :=
  if ltb 0.1 score then Positive
  else if ltb score (-0.1) then Negative
  else Neutral.

Definition REASON_LARGE_DIFFERENCE : string :=
  "Large difference in scores suggests mixed or complex sentiment. " ++
  "Text may contain sarcasm, irony, or both positive and negative elements.".

Definition REASON_CLOSE : string :=
  "Models are close but on opposite sides of neutral. " ++
  "Text likely has subtle sentiment indicators that differ in interpretation.".

Definition _explain_disagreement (vader_score textblob_score : Q) : string :=
  if ltb 0.5 (py_abs (vader_score - textblob_score))
  then REASON_LARGE_DIFFERENCE
  else REASON_CLOSE.

(** The dict [find_disagreements] returns when the models disagree. *)
Record Disagreement : Set :=
  { disagreement : bool;
    vader_says : Label;
    textblob_says : Label;
    possible_reason : string;
    recommendation : string }.

Definition find_disagreements (vader_score textblob_score : Q) : option Disagreement :=
  let vader_label := _score_to_label vader_score in
  let textblob_label := _score_to_label textblob_score in
  if Label_eqb vader_label textblob_label then None
  else Some {| disagreement := true;
               vader_says := vader_label;
               textblob_says := textblob_label;
               possible_reason := _explain_disagreement vader_score textblob_score;
               recommendation := "Manual review recommended for this message" |}.

End ExplainableAI.

(** ** The part of [re] that [START_RE] uses: a backtracking matcher *)

Module Re.

(** Patterns.  A quantifier applies to a character class, as every
    quantified atom of [START_RE] is one, except the two optional groups. *)
Inductive regex : Type :=
| Chr (p : ascii -> bool)                                   (* a class, once *)
| Cat (r1 r2 : regex)                                       (* r1 r2 *)
| Alt (r1 r2 : regex)                                       (* r1|r2 *)
| Rep (greedy : bool) (lo : nat) (hi : option nat) (p : ascii -> bool)
                                                            (* p{lo,hi} or p{lo,hi}? *)
| Opt (r : regex)                                           (* (?:r)? *)
| Group (name : string) (r : regex).                        (* (?P<name>r) *)

(** Named groups of a match, the most recent first. *)
Definition captures : Set := list (string * string).

Definition can_take (hi : option nat) : bool :=
  match hi with Some O => false | _ => true end.

Definition one_less (hi : option nat) : option nat := option_map Nat.pred hi.

Section Matcher.
Context {R : Type}.

(** Greedy repetition: take while possible, give back one at a time. *)
Fixpoint rep_greedy (p : ascii -> bool) (lo : nat) (hi : option nat)
    (s : string) (k : string -> option R) : option R :=
  let stop := if Nat.eqb lo 0 then k s else None in
  match s with
  | String c s' =>
      if p c && can_take hi then
        match rep_greedy p (Nat.pred lo) (one_less hi) s' k with
        | Some r => Some r
        | None => stop
        end
      else stop
  | EmptyString => stop
  end.

(** Lazy repetition: take the minimum, then one more only when the rest of
    the pattern fails. *)
Fixpoint rep_lazy (p : ascii -> bool) (lo : nat) (hi : option nat)
    (s : string) (k : string -> option R) : option R :=
  let more :=
    match s with
    | String c s' =>
        if p c && can_take hi then rep_lazy p (Nat.pred lo) (one_less hi) s' k
        else None
    | EmptyString => None
    end in
  if Nat.eqb lo 0 then
    match k s with
    | Some r => Some r
    | None => more
    end
  else more.

(** The text between the start [s] of a group and what is left, [rest]. *)
Definition consumed (s rest : string) : string :=
  substring 0 (String.length s - String.length rest) s.

Fixpoint rmatch (r : regex) (s : string) (caps : captures)
    (k : string -> captures -> option R) : option R :=
  match r with
  | Chr p =>
      match s with
      | String c s' => if p c then k s' caps else None
      | EmptyString => None
      end
  | Cat r1 r2 => rmatch r1 s caps (fun s' caps' => rmatch r2 s' caps' k)
  | Alt r1 r2 =>
      match rmatch r1 s caps k with
      | Some x => Some x
      | None => rmatch r2 s caps k
      end
  | Rep greedy lo hi p =>
      (if greedy then rep_greedy else rep_lazy) p lo hi s (fun s' => k s' caps)
  | Opt r' =>
      match rmatch r' s caps k with
      | Some x => Some x
      | None => k s caps
      end
  | Group name r' =>
      rmatch r' s caps (fun rest caps' => k rest ((name, consumed s rest) :: caps'))
  end.
End Matcher.

(** [pattern.match(s)]: the pattern must match at the start of [s], not
    necessarily up to its end. *)
Definition match_ (r : regex) (s : string) : option captures :=
  rmatch r s [] (fun _ caps => Some caps).

(** [m.group(name)] for a group that took part in the match. *)
Fixpoint group (name : string) (m : captures) : string :=
  match m with
  | [] => ""
  | (n, v) :: m' => if String.eqb n name then v else group name m'
  end.

(** Character classes. *)
Definition is_char (c : ascii) : ascii -> bool := Ascii.eqb c.
Definition not_char (c : ascii) : ascii -> bool := fun x => negb (Ascii.eqb c x).
Definition one_of (cs : string) : ascii -> bool :=
  fun x => existsb (Ascii.eqb x) (list_ascii_of_string cs).
Definition digit (c : ascii) : bool := PyStr.between 48 57 (N_of_ascii c).   (* \d *)
Definition space : ascii -> bool := PyStr.isspace.                            (* \s *)
Definition any_but_newline : ascii -> bool := not_char PyStr.LF.              (* . *)
End Re.

(** ** backend/services/nlp_service.py *)

Module NLP.
Import Eff PyNum Re.

Local Notation "r1 >> r2" := (Cat r1 r2) (at level 60, right associativity).

Definition star (p : ascii -> bool) : regex := Rep true 0 None p.
Definition digits (lo hi : nat) : regex := Rep true lo (Some hi) digit.

(** [ChatParser.START_RE]; the leading [^] is implied by [match]. *)
Definition START_RE : regex :=
  Group "date"
    (Alt (digits 1 2 >> Chr (one_of "/-") >> digits 1 2 >> Chr (one_of "/-") >> digits 2 4)
         (digits 4 4 >> Chr (is_char "-") >> digits 1 2 >> Chr (is_char "-") >> digits 1 2)) >>
  Rep true 0 (Some 1) (is_char ",") >>
  star space >>
  Group "time"
    (digits 1 2 >> Chr (is_char ":") >> digits 2 2 >>
     Opt (Chr (is_char ":") >> digits 2 2) >>
     Opt (star space >> Rep true 2 (Some 2) (one_of "APMapm"))) >>
  star space >> Chr (is_char "-") >> star space >>
  Group "sender" (Rep false 1 None (not_char ":")) >>
  Chr (is_char ":") >>
  star space >>
  Group "message" (star any_but_newline).

(** One parsed message, the dict [parse] appends. *)
Record Message : Set :=
  { timestamp : string;
    raw_timestamp : string;
    sender : string;
    message : string }.

Definition TIMESTAMP_FORMATS : list string :=
  ["%m/%d/%Y, %I:%M %p"; "%m/%d/%y, %I:%M %p"; "%d/%m/%Y, %H:%M";
   "%Y-%m-%d, %H:%M"; "%m/%d/%Y, %H:%M"].

Definition SYSTEM_SENDERS : list string := ["system"; "you"; "group notification"].

Definition SYSTEM_KEYWORDS : list string :=
  ["secured"; "created group"; "changed"; "left group"; "added"].

(** The test of the [if] under "Detect system messages". *)
Definition is_system_message (sender msg_content : string) : bool :=
  existsb (String.eqb (PyStr.lower sender)) SYSTEM_SENDERS ||
  existsb (fun kw => PyStr.contains kw (PyStr.lower msg_content)) SYSTEM_KEYWORDS.

(** [messages[-1]['message'] += suffix] *)
Fixpoint append_to_last (messages : list Message) (suffix : string) : list Message :=
  match messages with
  | [] => []
  | [m] => [{| timestamp := timestamp m; raw_timestamp := raw_timestamp m;
               sender := sender m; message := message m ++ suffix |}]
  | m :: rest => m :: append_to_last rest suffix
  end.

Section Parser.

(** [datetime.strptime(value, fmt).isoformat()], [None] when [strptime]
    raises. *)
Variable strptime_iso : string -> string -> option string.

(** The [for fmt in (...)] loop: the first format that parses wins, and
    [iso_ts] keeps its initial value when none does. *)
Fixpoint normalize_timestamp (value : string) (fmts : list string) (iso_ts : string) : string :=
  match fmts with
  | [] => iso_ts
  | fmt :: fmts' =>
      match strptime_iso value fmt with
      | Some iso => iso
      | None => normalize_timestamp value fmts' iso_ts
      end
  end.

(** The body of [if m:]: the message built from a match. *)
Definition message_of_match (m : captures) : Message :=
  let date_str := group "date" m in
  let time_str := group "time" m in
  let sender := PyStr.strip (group "sender" m) in
  let msg_content := PyStr.strip (group "message" m) in
  let sender := PyStr.strip (PyStr.filter PyStr.isprintable sender) in
  let sender := if is_system_message sender msg_content then "System" else sender in
  let timestamp := date_str ++ ", " ++ time_str in
  let iso_ts := normalize_timestamp (date_str ++ ", " ++ time_str) TIMESTAMP_FORMATS timestamp in
  {| timestamp := iso_ts;
     raw_timestamp := timestamp;
     sender := sender;
     message := msg_content |}.

(** One turn of the [for idx, line in enumerate(lines)] loop on the pair
    [(messages, failed_lines)]. *)
Definition parse_line (state : list Message * list string) (line : string)
    : list Message * list string :=
  let (messages, failed_lines) := state in
  if PyStr.blank line then state
  else
    match match_ START_RE line with
    | Some m => ((messages ++ [message_of_match m])%list, failed_lines)
    | None =>
        match messages with
        | _ :: _ => (append_to_last messages (PyStr.NL ++ PyStr.strip line), failed_lines)
        | [] => (messages, (failed_lines ++ [line])%list)
        end
    end.

Definition parse_lines (lines : list string) : list Message * list string :=
  fold_left parse_line lines ([], []).

(** [ChatParser.parse] *)
Definition parse (content : string) : list Message * list string :=
  parse_lines (PyStr.splitlines content).

End Parser.
(** The 'sentiment' sub-dict of an analysed message, filled with
    [sentiment.get(...)]: a missing transformer key reads as [None]. *)
Record MessageSentiment : Set :=
  { ms_vader_score : Q;
    ms_vader_label : Label;
    ms_textblob_score : Q;
    ms_ensemble_score : Q;
    ms_ensemble_label : Label;
    ms_confidence : Q;
    ms_transformer_en : option Sentiment.TransformerResult;
    ms_transformer_multi : option Sentiment.TransformerResult }.

Definition message_sentiment (s : Sentiment.AnalysisResult) : MessageSentiment :=
  {| ms_vader_score := Sentiment.vader_score s;
     ms_vader_label := Sentiment.vader_label s;
     ms_textblob_score := Sentiment.textblob_score s;
     ms_ensemble_score := Sentiment.ensemble_score s;
     ms_ensemble_label := Sentiment.ensemble_label s;
     ms_confidence := Sentiment.confidence s;
     ms_transformer_en :=
       match Sentiment.transformer_keys s with Some (en, _) => en | None => None end;
     ms_transformer_multi :=
       match Sentiment.transformer_keys s with Some (_, multi) => multi | None => None end |}.

Section Service.

Variable strptime_iso : string -> string -> option string.
Variable vader_compound : string -> outcome Q.
Variable textblob_polarity : string -> outcome Q.
Variable run_transformers :
  string -> outcome (option Sentiment.TransformerResult * option Sentiment.TransformerResult).

(** The per-message fields that come from the emotion, language,
    translation, keyword, emoji and media helpers ('emotions', 'language',
    'translated_message', 'keywords', 'emojis', 'media'), as one value; an
    exception of any of them leaves the loop. *)
Variable Annotations : Type.
Variable annotate : string -> outcome Annotations.

(** One entry of [analyzed_messages]. *)
Record AnalyzedMessage : Type :=
  { am_timestamp : string;
    am_raw_timestamp : string;
    am_sender : string;
    am_message : string;
    am_sentiment : MessageSentiment;
    am_annotations : Annotations }.

(** The run-level fields computed from the analysed messages by the same
    helpers ('language_distribution', 'primary_language',
    'emotion_distribution', 'most_active_users', 'top_emojis', 'summary'). *)
Variable Aggregates : Type.
Variable aggregate : list AnalyzedMessage -> outcome Aggregates.

Record OverallSentiment : Set :=
  { os_ensemble_score : Q; os_ensemble_label : Label; os_vader_score : Q }.

Record Debug : Set :=
  { failed_lines : list string; parsed_messages : nat }.

(** The dict of a completed analysis. *)
Record ChatAnalysis : Type :=
  { total_messages : nat;
    overall_sentiment : OverallSentiment;
    aggregates : Aggregates;
    messages : list AnalyzedMessage;
    debug : Debug }.

(** The three shapes of the dict [analyze_chat] returns. *)
Inductive ChatResult : Type :=
| NoValidMessages (failed_lines_count : nat)   (* 'error', 'total_messages': 0 *)
| AnalysisFailed (e : string)                  (* 'error' only *)
| Analyzed (r : ChatAnalysis).

(** The test of the [continue] under "Skip media-only messages". *)
Definition skipped (text : string) : bool :=
  String.eqb text "<Media omitted>" || PyStr.blank text.

(** The [for msg in messages] loop on [(analyzed_messages, sentiments)]. *)
Fixpoint analyze_messages (msgs : list Message)
    (acc : list AnalyzedMessage * list Q) : outcome (list AnalyzedMessage * list Q) :=
  match msgs with
  | [] => Returned acc
  | msg :: msgs' =>
      let (analyzed_messages, sentiments) := acc in
      let sender := sender msg in
      let text := message msg in
      let raw_ts := raw_timestamp msg in
      let ts := timestamp msg in
      if skipped text then analyze_messages msgs' acc
      else
        match value (Sentiment.analyze vader_compound textblob_polarity run_transformers text) with
        | Raised e => Raised e
        | Returned sentiment =>
            match annotate text with
            | Raised e => Raised e
            | Returned annotations =>
                let entry :=
                  {| am_timestamp := if PyStr.is_empty ts then raw_ts else ts;
                     am_raw_timestamp := raw_ts;
                     am_sender := sender;
                     am_message := text;
                     am_sentiment := message_sentiment sentiment;
                     am_annotations := annotations |} in
                analyze_messages msgs'
                  ((analyzed_messages ++ [entry])%list,
                   (sentiments ++ [Sentiment.ensemble_score sentiment])%list)
            end
        end
  end.

Local Open Scope Q_scope.

(** [NLPService.analyze_chat] *)
Definition analyze_chat (chat_content : string) : ChatResult :=
  let (messages, failed_lines) := parse strptime_iso chat_content in
  match messages with
  | [] => NoValidMessages (List.length failed_lines)
  | _ :: _ =>
      match analyze_messages messages ([], []) with
      | Raised e => AnalysisFailed ("Analysis failed: " ++ e)
      | Returned (analyzed_messages, sentiments) =>
          let total_messages := List.length analyzed_messages in
          let avg_sentiment :=
            match sentiments with
            | [] => 0
            | _ :: _ => py_sum sentiments / inject_Z (Z.of_nat (List.length sentiments))
            end in
          let overall_label :=
            if leb 0.05 avg_sentiment then Positive
            else if leb avg_sentiment (-0.05) then Negative
            else Neutral in
          match aggregate analyzed_messages with
          | Raised e => AnalysisFailed ("Analysis failed: " ++ e)
          | Returned aggregates =>
              Analyzed
                {| total_messages := total_messages;
                   overall_sentiment :=
                     {| os_ensemble_score := avg_sentiment;
                        os_ensemble_label := overall_label;
                        os_vader_score := avg_sentiment |};
                   aggregates := aggregates;
                   messages := analyzed_messages;
                   debug := {| failed_lines := firstn 10 failed_lines;
                               parsed_messages := List.length messages |} |}
          end
      end
  end.

End Service.

Arguments am_timestamp {Annotations} _.
Arguments am_raw_timestamp {Annotations} _.
Arguments am_sender {Annotations} _.
Arguments am_message {Annotations} _.
Arguments am_sentiment {Annotations} _.
Arguments am_annotations {Annotations} _.
Arguments total_messages {Annotations Aggregates} _.
Arguments overall_sentiment {Annotations Aggregates} _.
Arguments aggregates {Annotations Aggregates} _.
Arguments messages {Annotations Aggregates} _.
Arguments debug {Annotations Aggregates} _.
Arguments NoValidMessages {Annotations Aggregates} _.
Arguments AnalysisFailed {Annotations Aggregates} _.
Arguments Analyzed {Annotations Aggregates} _.
Arguments analyze_messages _ _ _ {Annotations} _ _ _.
Arguments analyze_chat _ _ _ _ {Annotations} _ {Aggregates} _ _.
End NLP.

(** ** The words of the specification *)

Module Spec.
Import PyNum.
Local Open Scope Q_scope.

(** [clamp(x, lo, hi)]: [x] brought into the interval from [lo] to [hi]. *)
Definition clamp (x lo hi : Q) : Q :=
  if ltb x lo then lo else if ltb hi x then hi else x.

(** A text that is empty or made of whitespace only. *)
Definition whitespace_only (s : string) : Prop :=
  Forall (fun c => PyStr.isspace c = true) (list_ascii_of_string s).

(** The output [{score: s, label: l}] of a scorer, as handed to the
    combiner. *)
Definition scorer_output (s : Q) (l : Label) : Sentiment.PyVal :=
  Sentiment.VDict {| Sentiment.score := s; Sentiment.label := l |}.

(** [x] is a whole number of hundredths. *)
Definition two_decimals (x : Q) : Prop :=
  exists k : Z, x == inject_Z k / 100.

(** The chat of the continuation-merge property: a message line followed
    by the line "world". *)
Definition continuation_chat : string :=
  "8/15/2024, 10:30 PM - Alice: Hello" ++ PyStr.NL ++ "world".


(** A chat of two messages, the first of which is a media placeholder. *)
Definition media_chat : string :=
  "8/15/2024, 10:30 PM - Alice: <Media omitted>" ++ PyStr.NL ++
  "8/15/2024, 10:31 PM - Bob: This is awesome!".

End Spec.

(** ** Further helpers on strings *)

Module PyStrMore.

(** [all(p(c) for c in s)] *)
Fixpoint all_chars (p : ascii -> bool) (s : string) : bool :=
  match s with
  | EmptyString => true
  | String c s' => p c && all_chars p s'
  end.

End PyStrMore.

(** ** Further words for stating properties *)

Module SpecWords.
Import PyNum.
Local Open Scope Q_scope.

(** The label on the other side of Neutral. *)
Definition opposite (l : Label) : Label :=
  match l with
  | Positive => Negative
  | Negative => Positive
  | Neutral => Neutral
  end.

(** [l] is the label of the score [s] under the inclusive thresholds
    0.05 and -0.05. *)
Definition labelled_at_005 (s : Q) (l : Label) : Prop :=
  (l = Positive <-> 0.05 <= s) /\ (l = Negative <-> s <= -0.05).

(** [l] is the label of the score [s] under the strict thresholds 0.1
    and -0.1. *)
Definition labelled_at_01 (s : Q) (l : Label) : Prop :=
  (l = Positive <-> 0.1 < s) /\ (l = Negative <-> s < -0.1).

(** What a result of the sentiment service must satisfy to be coherent:
    each label is the one its score calls for, the ensemble score is the
    weighted mean of the two scores, and the confidence is in [0, 1]. *)
Definition coherent_result (r : Sentiment.AnalysisResult) : Prop :=
  labelled_at_005 (Sentiment.vader_score r) (Sentiment.vader_label r) /\
  labelled_at_01 (Sentiment.textblob_score r) (Sentiment.textblob_label r) /\
  Sentiment.ensemble_score r
  == Sentiment.vader_score r * 0.6 + Sentiment.textblob_score r * 0.4 /\
  labelled_at_005 (Sentiment.ensemble_score r) (Sentiment.ensemble_label r) /\
  0 <= Sentiment.confidence r <= 1.

(** The same for the 'sentiment' entry of an analysed message, which has no
    TextBlob label. *)
Definition coherent_entry (s : NLP.MessageSentiment) : Prop :=
  labelled_at_005 (NLP.ms_vader_score s) (NLP.ms_vader_label s) /\
  NLP.ms_ensemble_score s
  == NLP.ms_vader_score s * 0.6 + NLP.ms_textblob_score s * 0.4 /\
  labelled_at_005 (NLP.ms_ensemble_score s) (NLP.ms_ensemble_label s) /\
  0 <= NLP.ms_confidence s <= 1.

(** The per-message ensemble scores of a completed analysis. *)
Definition message_scores {Annotations : Type}
    (entries : list (NLP.AnalyzedMessage Annotations)) : list Q :=
  map (fun a => NLP.ms_ensemble_score (NLP.am_sentiment a)) entries.

(** The arithmetic mean of a list of scores that is not empty. *)
Definition mean (xs : list Q) : Q :=
  PyNum.py_sum xs / inject_Z (Z.of_nat (List.length xs)).

(** A chat of two messages that are both analysed. *)
Definition scenario_chat : string :=
  "8/15/2024, 10:30 PM - Alice: This is awesome!" ++ PyStr.NL ++
  "8/15/2024, 10:31 PM - Bob: This is terrible.".

End SpecWords.

(** ** Words for the traces of the sentiment service *)

Module TraceWords.
Import Eff.

(** The event belongs to the transformer stage of [analyze]: what
    [_ensure_transformers] and the pipelines do. *)
Definition transformer_stage (ev : event) : bool :=
  match ev with
  | CallTransformers _ => true
  | _ => false
  end.

(** The trace is [scorers], what the two scorers and their handlers left,
    followed by events of the transformer stage only. *)
Definition scorers_then_stage (tr scorers : list event) : Prop :=
  exists stage,
    tr = (scorers ++ stage)%list /\
    Forall (fun ev => transformer_stage ev = true) stage.

End TraceWords.
(** ** backend/services/explainable_ai_service.py, the other methods *)

Module Explanation.
Import PyNum PyStrMore ExplainableAI.
Local Open Scope Q_scope.

(** [\w] of [re] on the code points 0..255: letters, digits (also the
    superscripts and fractions of Latin-1) and the underscore. *)
Definition word_char (c : ascii) : bool :=
  let n := N_of_ascii c in
  (PyStr.between 48 57 n || PyStr.between 65 90 n || (n =? 95)%N ||
   PyStr.between 97 122 n || (n =? 170)%N || PyStr.between 178 179 n ||
   (n =? 181)%N || PyStr.between 185 186 n || PyStr.between 188 190 n ||
   PyStr.between 192 214 n || PyStr.between 216 246 n || PyStr.between 248 255 n).

(** [[a-z]] *)
Definition lower_letter (c : ascii) : bool := PyStr.between 97 122 (N_of_ascii c).

Definition unreverse (cur : string) : string :=
  string_of_list_ascii (rev (list_ascii_of_string cur)).

Definition flush (cur : string) : list string :=
  if PyStr.is_empty cur then [] else [unreverse cur].

(** The maximal runs of word characters, in text order; [cur] holds the run
    being read, last character first. *)
Fixpoint word_runs_from (cur : string) (s : string) : list string :=
  match s with
  | EmptyString => flush cur
  | String c s' =>
      if word_char c then word_runs_from (String c cur) s'
      else (flush cur ++ word_runs_from EmptyString s')%list
  end.

(** [re.findall(r'\b\w+\b', s)]: a match starts and ends at a word
    boundary, so it is a maximal run of word characters. *)
Definition word_runs (s : string) : list string := word_runs_from EmptyString s.

(** [re.findall(r'\b[a-z]+\b', s)]: the maximal runs of word characters
    that are made of the letters a to z only. *)
Definition findall_lower_words (s : string) : list string :=
  List.filter (all_chars lower_letter) (word_runs s).

(** The dict of a message, as far as the engine reads it; [None] is a
    missing key. *)
Record MessageDict : Set :=
  { m_id : option string;
    m_text : option string;
    m_vader_score : option Q;
    m_textblob_score : option Q;
    m_ensemble_score : option Q;
    m_ensemble_label : option string }.

(** [d.get(key, default)] *)
Definition get {A : Type} (v : option A) (default : A) : A :=
  match v with Some x => x | None => default end.

Definition POSITIVE_WORDS : list string :=
  ["good"; "great"; "excellent"; "amazing"; "awesome"; "love"; "happy";
   "wonderful"; "fantastic"; "best"; "perfect"; "beautiful"; "brilliant"].

Definition NEGATIVE_WORDS : list string :=
  ["bad"; "terrible"; "awful"; "horrible"; "hate"; "sad"; "angry";
   "worst"; "disgusting"; "pathetic"; "disappointing"; "poor"].

Definition NEUTRAL_WORDS : list string :=
  ["think"; "believe"; "seem"; "appear"; "maybe"; "perhaps"; "might";
   "probably"; "possibly"; "consider"; "could"].

(** [sentiment_keywords.get(sentiment_type)], [None] for a missing key. *)
Definition sentiment_keywords (sentiment_type : string) : option (list string) :=
  if String.eqb sentiment_type "positive" then Some POSITIVE_WORDS
  else if String.eqb sentiment_type "negative" then Some NEGATIVE_WORDS
  else if String.eqb sentiment_type "neutral" then Some NEUTRAL_WORDS
  else None.

Definition extract_important_words (text : string) (sentiment_type : string) : list string :=
  let words := findall_lower_words (PyStr.lower text) in
  match sentiment_keywords sentiment_type with
  | Some keywords =>
      let important :=
        List.filter (fun word => existsb (String.eqb word) keywords) words in
      firstn 10 important
  | None => []
  end.

Definition _get_recommendation (agreement_score ensemble_score : Q) : string :=
  if ltb 0.8 agreement_score then
    "High confidence - reliable sentiment classification"
  else if ltb 0.5 agreement_score then
    "Medium confidence - generally reliable with some uncertainty"
  else
    "Low confidence - consider manual verification for this message".

(** The dict [generate_confidence_metrics] returns. *)
Record ConfidenceMetrics : Set :=
  { model_agreement_score : Q;
    overall_confidence_level : string;
    vader_confidence : Q;
    textblob_confidence : Q;
    ensemble_confidence : Q;
    cm_recommendation : string }.

Definition generate_confidence_metrics (message : MessageDict) : ConfidenceMetrics :=
  let vader := get (m_vader_score message) 0 in
  let textblob := get (m_textblob_score message) 0 in
  let ensemble := get (m_ensemble_score message) 0 in
  let score_diff := py_abs (vader - textblob) in
  let agreement_score := py_round (py_max 0 (1 - (score_diff / 2))) 2 in
  let overall_confidence :=
    if ltb 0.8 agreement_score then "high"
    else if ltb 0.5 agreement_score then "medium"
    else "low" in
  {| model_agreement_score := agreement_score;
     overall_confidence_level := overall_confidence;
     vader_confidence := _calculate_confidence vader;
     textblob_confidence := _calculate_confidence textblob;
     ensemble_confidence := _calculate_confidence ensemble;
     cm_recommendation := _get_recommendation agreement_score ensemble |}.

(** One entry of the per-model analysis. *)
Record ModelEntry : Set :=
  { pm_score : Q; pm_confidence : Q; pm_label : Label; pm_explanation : string }.

Record PerModel : Set :=
  { pm_vader : ModelEntry; pm_textblob : ModelEntry; pm_ensemble : ModelEntry }.

Record ImportantWords : Set :=
  { positive_indicators : list string; negative_indicators : list string }.

Record FinalVerdict : Set :=
  { fv_sentiment : string; fv_score : Q; fv_confidence : Q }.

(** The dict [generate_full_explanation] returns. *)
Record FullExplanation : Set :=
  { message_id : option string;
    text_preview : string;
    per_model_analysis : PerModel;
    fe_disagreement : option Disagreement;
    confidence_metrics : ConfidenceMetrics;
    important_words : ImportantWords;
    final_verdict : FinalVerdict }.

Section Formatting.

(** [f"{x:.2f}"], the float printed with two decimals. *)
Variable format_2f : Q -> string.

Definition strength_of (confidence : Q) : string :=
  if ltb 0.7 confidence then "strongly"
  else if ltb 0.4 confidence then "moderately"
  else "slightly".

Definition _explain_vader_result (score : Q) (text : string) : string :=
  let confidence := _calculate_confidence score in
  let strength := strength_of confidence in
  match _score_to_label score with
  | Positive =>
      "VADER " ++ strength ++ " detects positive sentiment (" ++ format_2f score ++ "). " ++
      "Uses lexicon-based approach with emphasis on positive words and punctuation."
  | Negative =>
      "VADER " ++ strength ++ " detects negative sentiment (" ++ format_2f score ++ "). " ++
      "Identifies negative words and intensifying punctuation marks."
  | Neutral =>
      "VADER detects neutral sentiment (" ++ format_2f score ++ "). " ++
      "Mixed sentiment cues or lacks clear sentiment indicators."
  end.

Definition _explain_textblob_result (score : Q) (text : string) : string :=
  let confidence := _calculate_confidence score in
  let strength := strength_of confidence in
  match _score_to_label score with
  | Positive =>
      "TextBlob " ++ strength ++ " detects positive sentiment (" ++ format_2f score ++ "). " ++
      "Uses subjectivity and polarity analysis on word levels."
  | Negative =>
      "TextBlob " ++ strength ++ " detects negative sentiment (" ++ format_2f score ++ "). " ++
      "Identifies negative modifiers and sentiment-bearing words."
  | Neutral =>
      "TextBlob detects neutral sentiment (" ++ format_2f score ++ "). " ++
      "Text appears objective or lacks emotional indicators."
  end.

Definition generate_per_model_explanation (message : MessageDict)
    (vader_score textblob_score ensemble_score : Q) : PerModel :=
  {| pm_vader :=
       {| pm_score := py_round vader_score 3;
          pm_confidence := _calculate_confidence vader_score;
          pm_label := _score_to_label vader_score;
          pm_explanation := _explain_vader_result vader_score (get (m_text message) "") |};
     pm_textblob :=
       {| pm_score := py_round textblob_score 3;
          pm_confidence := _calculate_confidence textblob_score;
          pm_label := _score_to_label textblob_score;
          pm_explanation := _explain_textblob_result textblob_score (get (m_text message) "") |};
     pm_ensemble :=
       {| pm_score := py_round ensemble_score 3;
          pm_confidence := _calculate_confidence ensemble_score;
          pm_label := _score_to_label ensemble_score;
          pm_explanation := "Weighted combination of VADER (60%) and TextBlob (40%)" |} |}.

Definition generate_full_explanation (message : MessageDict) : FullExplanation :=
  let vader := get (m_vader_score message) 0 in
  let textblob := get (m_textblob_score message) 0 in
  let ensemble := get (m_ensemble_score message) 0 in
  let text := get (m_text message) "" in
  {| message_id := m_id message;
     text_preview := if PyStr.is_empty text then "" else substring 0 100 text;
     per_model_analysis := generate_per_model_explanation message vader textblob ensemble;
     fe_disagreement := find_disagreements vader textblob;
     confidence_metrics := generate_confidence_metrics message;
     important_words :=
       {| positive_indicators := extract_important_words text "positive";
          negative_indicators := extract_important_words text "negative" |};
     final_verdict :=
       {| fv_sentiment := get (m_ensemble_label message) "Unknown";
          fv_score := ensemble;
          fv_confidence := _calculate_confidence ensemble |} |}.

End Formatting.
End Explanation.

(** ** What a pattern says, without the order in which matches are tried *)

Module ReWords.
Import PyStrMore Re.

(** The number [n] of repetitions is allowed by the upper bound [hi]. *)
Definition within (hi : option nat) (n : nat) : Prop :=
  match hi with Some h => n <= h | None => True end.

(** The pattern [r] matches the whole of [w], turning the groups [caps]
    into [caps']. *)
Fixpoint denotes (r : regex) (w : string) (caps caps' : captures) : Prop :=
  match r with
  | Chr p => exists c, w = String c EmptyString /\ p c = true /\ caps' = caps
  | Cat r1 r2 =>
      exists w1 w2 mid,
        w = w1 ++ w2 /\ denotes r1 w1 caps mid /\ denotes r2 w2 mid caps'
  | Alt r1 r2 => denotes r1 w caps caps' \/ denotes r2 w caps caps'
  | Rep _ lo hi p =>
      all_chars p w = true /\ lo <= String.length w /\
      within hi (String.length w) /\ caps' = caps
  | Opt r' => (w = EmptyString /\ caps' = caps) \/ denotes r' w caps caps'
  | Group name r' => exists mid, denotes r' w caps mid /\ caps' = (name, w) :: mid
  end.

(** The pattern has no group. *)
Fixpoint groupless (r : regex) : bool :=
  match r with
  | Chr _ | Rep _ _ _ _ => true
  | Cat r1 r2 | Alt r1 r2 => groupless r1 && groupless r2
  | Opt r' => groupless r'
  | Group _ _ => false
  end.

End ReWords.

(** ** Words for the properties of the parser *)

Module ParserWords.
Import PyStr PyStrMore Re NLP.

(** The line matches [START_RE]. *)
Definition is_start (line : string) : bool :=
  match match_ START_RE line with Some _ => true | None => false end.

(** The matches of the lines that match, in order. *)
Definition starts (lines : list string) : list captures :=
  flat_map (fun line => match match_ START_RE line with
                        | Some m => [m]
                        | None => []
                        end) lines.

(** What a message gets from its first line and keeps. *)
Definition header (m : Message) : string * string * string :=
  (timestamp m, raw_timestamp m, sender m).

(** The lines before the first line that matches. *)
Fixpoint leading (lines : list string) : list string :=
  match lines with
  | [] => []
  | line :: lines' => if is_start line then [] else line :: leading lines'
  end.

Definition not_blank (line : string) : bool := negb (blank line).

(** The character is not a line boundary of [str.splitlines]. *)
Definition no_break (c : ascii) : bool := negb (is_linebreak c).

(** What a run of continuation lines adds to a body: for each line that
    is not blank, a line feed and the stripped line. *)
Fixpoint continuation (lines : list string) : string :=
  match lines with
  | [] => ""
  | line :: lines' =>
      if blank line then continuation lines'
      else NL ++ strip line ++ continuation lines'
  end.

(** The message [m] with the body [body]. *)
Definition with_body (m : Message) (body : string) : Message :=
  {| timestamp := timestamp m; raw_timestamp := raw_timestamp m;
     sender := sender m; message := body |}.

(** A sender as the parser leaves it: the reserved name, or printable
    characters with no whitespace at either end. *)
Definition clean_sender (s : string) : Prop :=
  s = "System" \/ (all_chars isprintable s = true /\ strip s = s).

(** [result] is what the formats [fmts], tried in order on [value], give:
    the answer of the first one that parses, or [value] itself when none
    does. *)
Definition first_parse (strptime_iso : string -> string -> option string)
    (fmts : list string) (value result : string) : Prop :=
  (Forall (fun fmt => strptime_iso value fmt = None) fmts /\ result = value) \/
  (exists before fmt after,
     fmts = (before ++ fmt :: after)%list /\
     Forall (fun f => strptime_iso value f = None) before /\
     strptime_iso value fmt = Some result).

End ParserWords.

(** ** backend/services/nlp_service.py, [EmotionDetector] *)

Module Emotions.
Import PyNum.

(** An entry of a keyword list: a word, or an emoji.  An emoji is a code
    point above 255 and so occurs in no text of the model. *)
Inductive keyword : Set :=
| Word (w : string)
| Emoji (code_point : N).

Definition EMOTIONS_MAP : list (string * list keyword) :=
  [("joy", [Word "happy"; Word "glad"; Word "awesome"; Word "great"; Word "fantastic";
            Word "love"; Word "excellent";
            Emoji 0x1F60A; Emoji 0x1F604; Emoji 0x1F389]);
   ("anger", [Word "angry"; Word "mad"; Word "furious"; Word "hate"; Word "terrible";
              Word "worst"; Emoji 0x1F620; Emoji 0x1F92C; Emoji 0x1F624]);
   ("sadness", [Word "sad"; Word "sorry"; Word "hurt"; Word "upset"; Word "down";
                Word "depressed"; Emoji 0x1F622; Emoji 0x1F62D; Emoji 0x1F614]);
   ("fear", [Word "afraid"; Word "scared"; Word "worried"; Word "anxious"; Word "nervous";
             Emoji 0x1F628; Emoji 0x1F630; Emoji 0x1F61F]);
   ("surprise", [Word "wow"; Word "amazing"; Word "shocking"; Word "unexpected";
                 Emoji 0x1F632; Emoji 0x1F92F; Emoji 0x1F62F])].

(** The occurrences of a non-empty [sub] in [s] that do not overlap, read
    from the left; [skip] characters of the last occurrence are still to be
    passed. *)
Fixpoint count_from (sub : string) (skip : nat) (s : string) : nat :=
  match s with
  | EmptyString => 0
  | String _ s' =>
      match skip with
      | S skip' => count_from sub skip' s'
      | O =>
          if String.prefix sub s
          then S (count_from sub (String.length sub - 1) s')
          else count_from sub 0 s'
      end
  end.

(** [s.count(sub)] *)
Definition count (s sub : string) : nat :=
  if PyStr.is_empty sub then S (String.length s) else count_from sub 0 s.

Definition count_keyword (text_lower : string) (kw : keyword) : nat :=
  match kw with
  | Word w => count text_lower w
  | Emoji _ => 0
  end.

(** [sum(text_lower.count(kw) for kw in keywords)] *)
Definition emotion_count (text_lower : string) (keywords : list keyword) : nat :=
  fold_left Nat.add (map (count_keyword text_lower) keywords) 0.

Definition nat_to_Q (n : nat) : Q := inject_Z (Z.of_nat n).

(** [EmotionDetector.detect]; the dict is the list of its items in
    insertion order. *)
Definition detect (text : string) : list (string * Q) :=
  if PyStr.is_empty text || PyStr.blank text then
    [("joy", 0%Q); ("anger", 0%Q); ("sadness", 0%Q); ("fear", 0%Q); ("surprise", 0%Q)]
  else
    let text_lower := PyStr.lower text in
    let emotions :=
      map (fun '(emotion, keywords) => (emotion, emotion_count text_lower keywords))
          EMOTIONS_MAP in
    let total := fold_left Nat.add (map snd emotions) 0 in
    if Nat.ltb 0 total then
      map (fun '(e, count) => (e, (nat_to_Q count / nat_to_Q total * 100)%Q)) emotions
    else
      map (fun '(e, _) => (e, 0%Q)) emotions.

End Emotions.

(** ** Words for the properties of the emotion detector *)

Module EmotionWords.
Import Emotions.

(** The keyword occurs in the text. *)
Definition occurs (text_lower : string) (kw : keyword) : bool :=
  match kw with
  | Word w => PyStr.contains w text_lower
  | Emoji _ => false
  end.

(** One of the keywords occurs in the text. *)
Definition mentions (text_lower : string) (keywords : list keyword) : bool :=
  existsb (occurs text_lower) keywords.

(** A keyword of some emotion occurs in the lowercased text. *)
Definition any_mention (text : string) : bool :=
  existsb (fun entry : string * list keyword => mentions (PyStr.lower text) (snd entry))
          EMOTIONS_MAP.

End EmotionWords.
(** ** backend/services/nlp_service.py, [KeywordExtractor] *)

Module Keywords.
Import Eff Re.

Definition STOP_WORDS : list string :=
  ["a"; "an"; "and"; "are"; "as"; "at"; "be"; "but"; "by"; "for"; "from";
   "has"; "he"; "in"; "is"; "it"; "its"; "of"; "on"; "or"; "that"; "the";
   "to"; "was"; "will"; "with"; "you"; "your"; "me"; "i"; "we"; "they";
   "what"; "which"; "who"; "when"; "where"; "why"; "how"; "can"; "could"].

(** [\S] *)
Definition nonspace (c : ascii) : bool := negb (PyStr.isspace c).

(** The characters of [s], one after the other, then [rest]. *)
Fixpoint literal (s : string) (rest : regex) : regex :=
  match s with
  | EmptyString => rest
  | String c s' => Cat (Chr (is_char c)) (literal s' rest)
  end.

Definition plus (p : ascii -> bool) : regex := Rep true 1 None p.

(** [http\S+|www\S+|\S+@\S+] *)
Definition URL_OR_EMAIL : regex :=
  Alt (literal "http" (plus nonspace))
      (Alt (literal "www" (plus nonspace))
           (Cat (plus nonspace) (Cat (Chr (is_char "@")) (plus nonspace)))).

(** Where a match of [r] at the start of [s] ends: what is left of [s]. *)
Definition match_end (r : regex) (s : string) : option string :=
  rmatch r s [] (fun rest _ => Some rest).

(** [re.sub(r, '', s)] for a pattern that matches no empty string: from the
    left, each match is dropped and the search goes on after it; [skip]
    characters of the last match are still to be dropped. *)
Fixpoint sub_from (r : regex) (skip : nat) (s : string) : string :=
  match s with
  | EmptyString => EmptyString
  | String c s' =>
      match skip with
      | S skip' => sub_from r skip' s'
      | O =>
          match match_end r s with
          | Some rest => sub_from r (String.length s - String.length rest - 1) s'
          | None => String c (sub_from r 0 s')
          end
      end
  end.

Definition re_sub_empty (r : regex) (s : string) : string := sub_from r 0 s.

(** [Counter]: the words with their counts, in the order in which each was
    first met. *)
Fixpoint counter_add (w : string) (counter : list (string * nat)) : list (string * nat) :=
  match counter with
  | [] => [(w, 1)]
  | (k, n) :: counter' =>
      if String.eqb k w then (k, S n) :: counter'
      else (k, n) :: counter_add w counter'
  end.

Definition Counter (words : list string) : list (string * nat) :=
  fold_left (fun counter w => counter_add w counter) words [].

(** One step of a stable sort by falling count: [x] goes behind every entry
    whose count is not smaller. *)
Fixpoint insert_by_count (x : string * nat) (sorted : list (string * nat))
    : list (string * nat) :=
  match sorted with
  | [] => [x]
  | y :: sorted' =>
      if Nat.ltb (snd y) (snd x) then x :: sorted
      else y :: insert_by_count x sorted'
  end.

(** [counter.most_common(n)]: the [n] entries of highest count, entries of
    equal count in the order in which they were first met. *)
Definition most_common (n : nat) (counter : list (string * nat)) : list (string * nat) :=
  firstn n (fold_left (fun sorted x => insert_by_count x sorted) counter []).

Section Demojize.

(** [emoji.demojize(s)], or the exception. *)
Variable demojize : string -> outcome string.

(** [KeywordExtractor.extract]; the warning logged in the [except] branch is
    not part of the value. *)
Definition extract (text : string) (top_k : nat) : list (string * nat) :=
  if PyStr.is_empty text || PyStr.blank text then []
  else
    let clean := re_sub_empty URL_OR_EMAIL text in
    match demojize clean with
    | Raised _ => []
    | Returned clean =>
        let words := Explanation.word_runs (PyStr.lower clean) in
        let keywords :=
          List.filter (fun w => negb (existsb (String.eqb w) STOP_WORDS)
                                && Nat.ltb 3 (String.length w)) words in
        most_common top_k (Counter keywords)
    end.

End Demojize.
End Keywords.

(** ** Words for the properties of the keyword extractor *)

Module KeywordWords.

(** How often [w] occurs in [words]. *)
Definition occurrences (w : string) (words : list string) : nat :=
  List.length (List.filter (String.eqb w) words).

(** The count stored for [w], 0 when there is none. *)
Fixpoint lookup (w : string) (counter : list (string * nat)) : nat :=
  match counter with
  | [] => 0
  | (k, n) :: counter' => if String.eqb k w then n else lookup w counter'
  end.

(** No count is followed by a larger one. *)
Definition falling (entries : list (string * nat)) : Prop :=
  forall i j, i <= j -> j < List.length entries ->
    snd (nth j entries (EmptyString, 0)) <= snd (nth i entries (EmptyString, 0)).

(** A word the extractor may return: longer than three characters and not
    a stop word. *)
Definition eligible (w : string) : Prop :=
  3 < String.length w /\ ~ In w Keywords.STOP_WORDS.

End KeywordWords.

(** ** backend/services/nlp_service.py, [MediaExtractor] *)

Module Media.
Import PyStrMore Re.

(** A literal character of a pattern compiled with [re.IGNORECASE]; the
    patterns have lower-case letters only. *)
Definition is_char_i (c : ascii) : ascii -> bool :=
  fun x => Ascii.eqb c (PyStr.lower_char x).

Definition lit (ignorecase : bool) (c : ascii) : ascii -> bool :=
  if ignorecase then is_char_i c else is_char c.

(** The characters of [s], one after the other, then [rest]. *)
Fixpoint literal (ignorecase : bool) (s : string) (rest : regex) : regex :=
  match s with
  | EmptyString => rest
  | String c s' => Cat (Chr (lit ignorecase c)) (literal ignorecase s' rest)
  end.

(** The characters [c], then those of [s], and nothing behind them. *)
Fixpoint chars (ignorecase : bool) (c : ascii) (s : string) : regex :=
  match s with
  | EmptyString => Chr (lit ignorecase c)
  | String c' s' => Cat (Chr (lit ignorecase c)) (chars ignorecase c' s')
  end.

(** [r|r1|...|rn] *)
Fixpoint alternatives (r : regex) (rs : list regex) : regex :=
  match rs with
  | [] => r
  | r' :: rs' => Alt r (alternatives r' rs')
  end.

(** [[^\s]] *)
Definition not_space (c : ascii) : bool := negb (PyStr.isspace c).

(** [(https?://[^\s]+ tail)], the only group of each pattern. *)
Definition url (ignorecase : bool) (tail : regex -> regex) : regex :=
  Group "1"
    (literal ignorecase "http"
       (Cat (Rep true 0 (Some 1) (lit ignorecase "s"))
          (literal ignorecase "://" (tail (Rep true 1 None not_space))))).

(** [(?:\.e1|\.e2|...)] behind [r]. *)
Definition extension (ignorecase : bool) (e : string) (es : list string)
    (r : regex) : regex :=
  Cat r (alternatives (chars ignorecase "." e)
           (map (chars ignorecase ".") es)).

Definition IMAGE (ignorecase : bool) : regex :=
  url ignorecase (extension ignorecase "jpg" ["jpeg"; "png"; "gif"; "webp"; "bmp"]).
Definition VIDEO (ignorecase : bool) : regex :=
  url ignorecase (extension ignorecase "mp4" ["avi"; "mov"; "mkv"; "webm"]).
Definition AUDIO (ignorecase : bool) : regex :=
  url ignorecase (extension ignorecase "mp3" ["wav"; "m4a"; "flac"; "aac"]).
Definition DOCUMENT (ignorecase : bool) : regex :=
  url ignorecase
    (extension ignorecase "pdf" ["doc"; "docx"; "xls"; "xlsx"; "ppt"; "pptx"]).
Definition GENERAL_URL (ignorecase : bool) : regex :=
  url ignorecase (fun r => r).

(** The patterns by name, in the order of the dict; a pattern is compiled
    with or without [re.IGNORECASE] where it is used. *)
Definition MEDIA_PATTERNS : list (string * (bool -> regex)) :=
  [("image", IMAGE); ("video", VIDEO); ("audio", AUDIO);
   ("document", DOCUMENT); ("general_url", GENERAL_URL)].

(** [re.findall(r, s)] for a pattern with the one group "1" that matches
    no empty string: the group of each match, from the left, the search
    going on behind the match; [skip] characters of the last match are
    still to be passed. *)
Fixpoint findall_from (r : regex) (skip : nat) (s : string) : list string :=
  match s with
  | EmptyString => []
  | String c s' =>
      match skip with
      | S skip' => findall_from r skip' s'
      | O =>
          match rmatch r s [] (fun rest caps => Some (rest, caps)) with
          | Some (rest, caps) =>
              group "1" caps ::
              findall_from r (String.length s - String.length rest - 1) s'
          | None => findall_from r 0 s'
          end
      end
  end.

Definition findall (r : regex) (s : string) : list string := findall_from r 0 s.

(** A value of the dict [extract] returns: a list of URLs, or [True]. *)
Inductive Value : Set :=
| Urls (urls : list string)
| PyTrue.

(** The dict, in insertion order. *)
Definition Dict : Set := list (string * Value).

(** [key in d] *)
Definition dict_in (key : string) (d : Dict) : bool :=
  existsb (fun kv => String.eqb (fst kv) key) d.

(** [d[key] = v]: a key that is there keeps its place. *)
Fixpoint dict_set (key : string) (v : Value) (d : Dict) : Dict :=
  match d with
  | [] => [(key, v)]
  | (k, v') :: d' =>
      if String.eqb k key then (k, v) :: d'
      else (k, v') :: dict_set key v d'
  end.

(** [d.get(key)] *)
Fixpoint dict_get (key : string) (d : Dict) : option Value :=
  match d with
  | [] => None
  | (k, v) :: d' => if String.eqb k key then Some v else dict_get key d'
  end.

Definition NO_MEDIA : Dict :=
  [("images", Urls []); ("videos", Urls []); ("audio", Urls []);
   ("documents", Urls []); ("links", Urls [])].

Definition is_nil (l : list string) : bool :=
  match l with [] => true | _ => false end.

Section SetOrder.

(** [list(set(matches))]: the order in which a set is listed is not fixed
    by the language. *)
Variable list_of_set : list string -> list string.

(** [MediaExtractor.extract].  Nothing in the [try] block raises on a
    [str], so the [except] branch is not taken. *)
Definition extract (text : string) : Dict :=
  if PyStr.is_empty text || PyStr.blank text then NO_MEDIA
  else
    let media := NO_MEDIA in
    if PyStr.contains "<Media omitted>" text then
      dict_set "media_omitted" PyTrue media
    else
      let media :=
        fold_left
          (fun media (entry : string * (bool -> regex)) =>
             let (media_type, pattern) := entry in
             if String.eqb media_type "general_url" then media
             else
               let matches := findall (pattern true) text in
               if dict_in media_type media && negb (is_nil matches)
               then dict_set media_type (Urls (list_of_set matches)) media
               else media)
          MEDIA_PATTERNS media in
      let all_urls :=
        flat_map (fun entry : string * (bool -> regex) =>
                    findall (snd entry true) text) MEDIA_PATTERNS in
      let general_urls := findall (GENERAL_URL false) text in
      dict_set "links"
        (Urls (List.filter
                 (fun url => negb (existsb (String.eqb url) all_urls))
                 general_urls))
        media.

End SetOrder.
End Media.

(** ** Words for the properties of the media extractor *)

Module MediaWords.
Import PyStrMore Re.

(** The text is made of ASCII characters, the code points 0..127. *)
Definition ascii_text (text : string) : Prop :=
  all_chars (fun c => (N_of_ascii c <? 128)%N) text = true.

(** None of the capital letters H, T, P, S, the ones a URL scheme written
    in capitals needs, occurs in the text. *)
Definition no_capital_scheme (text : string) : Prop :=
  all_chars (fun c => negb (one_of "HTPS" c)) text = true.

(** Two patterns of the same shape whose classes accept the same
    characters among those that satisfy [ok]. *)
Fixpoint agree (ok : ascii -> bool) (r r' : regex) : Prop :=
  match r, r' with
  | Chr p, Chr p' => forall c, ok c = true -> p c = p' c
  | Cat r1 r2, Cat r1' r2' => agree ok r1 r1' /\ agree ok r2 r2'
  | Alt r1 r2, Alt r1' r2' => agree ok r1 r1' /\ agree ok r2 r2'
  | Rep g lo hi p, Rep g' lo' hi' p' =>
      g = g' /\ lo = lo' /\ hi = hi' /\ forall c, ok c = true -> p c = p' c
  | Opt r1, Opt r1' => agree ok r1 r1'
  | Group n r1, Group n' r1' => n = n' /\ agree ok r1 r1'
  | _, _ => False
  end.

End MediaWords.
(** ** backend/services/language.py *)

Module Language.
Import Eff.

(** [d[key] += 1] on a [defaultdict(int)]; the dict is the list of its
    items in insertion order. *)
Fixpoint bump {K : Type} (eqb : K -> K -> bool) (key : K) (d : list (K * nat))
    : list (K * nat) :=
  match d with
  | [] => [(key, 1)]
  | (k, n) :: d' =>
      if eqb k key then (k, S n) :: d'
      else (k, n) :: bump eqb key d'
  end.

Definition pair_eqb (p q : string * string) : bool :=
  String.eqb (fst p) (fst q) && String.eqb (snd p) (snd q).

(** [tuple(sorted([a, b]))] *)
Definition sorted_pair (a b : string) : string * string :=
  if String.ltb b a then (b, a) else (a, b).

(** The loop over [range(len(language_sequence) - 1)]. *)
Fixpoint count_pairs (language_sequence : list string)
    (lang_pairs : list (string * string * nat)) : list (string * string * nat) :=
  match language_sequence with
  | a :: (b :: _) as rest =>
      count_pairs rest (bump pair_eqb (sorted_pair a b) lang_pairs)
  | _ => lang_pairs
  end.

(** [max(d, key=d.get)] for a dict that is not empty: the first key whose
    count no other exceeds; [best] is the first such item so far. *)
Fixpoint max_from (best : string * nat) (d : list (string * nat)) : string * nat :=
  match d with
  | [] => best
  | x :: d' => max_from (if Nat.ltb (snd best) (snd x) then x else best) d'
  end.

(** The dict [analyze_distribution] returns. *)
Record LanguageDistribution : Set :=
  { distribution : list (string * Q);
    languages_count : nat;
    primary_language : string;
    language_pairs : list (string * string * nat) }.

Section Detect.

(** [langdetect.detect(text)], or the exception. *)
Variable langdetect : string -> outcome string.

(** [LanguageDetector.detect]; what the two [except] branches log is not
    part of the value. *)
Definition detect (text : string) : string :=
  if PyStr.is_empty text || PyStr.blank text then "unknown"
  else
    match langdetect text with
    | Returned lang_code => lang_code
    | Raised _ => "unknown"
    end.

(** [LanguageAnalytics.analyze_distribution]; a message is given by its
    'message' entry, [None] for a dict without the key. *)
Definition analyze_distribution (messages : list (option string)) : LanguageDistribution :=
  let (lang_counts, language_sequence) :=
    fold_left
      (fun (state : list (string * nat) * list string) msg =>
         let (lang_counts, language_sequence) := state in
         let text := Explanation.get msg "" in
         if PyStr.blank text then state
         else
           let lang := detect text in
           (bump String.eqb lang lang_counts, (language_sequence ++ [lang])%list))
      messages ([], []) in
  let total := fold_left Nat.add (map snd lang_counts) 0 in
  if Nat.eqb total 0 then
    {| distribution := [];
       languages_count := 0;
       primary_language := "unknown";
       language_pairs := [] |}
  else
    {| distribution :=
         map (fun '(lang, count) =>
                (lang, (Emotions.nat_to_Q count / Emotions.nat_to_Q total * 100)%Q))
             lang_counts;
       languages_count := List.length lang_counts;
       primary_language :=
         match lang_counts with
         | [] => "unknown"
         | x :: d => fst (max_from x d)
         end;
       language_pairs := count_pairs language_sequence [] |}.

End Detect.
End Language.

(** ** Words for the properties of the language statistics *)

Module LanguageWords.
Import Language.

(** The texts that count: the messages with something else than white
    space in them. *)
Definition spoken (messages : list (option string)) : list string :=
  List.filter (fun text => negb (PyStr.blank text))
    (map (fun msg => Explanation.get msg "") messages).

(** The number of pairs of neighbours in a sequence. *)
Definition neighbours {A : Type} (l : list A) : nat := Nat.pred (List.length l).

End LanguageWords.
(** * Properties *)

(** ** Comparisons and clamping *)

Module NumFacts.
Import PyNum Spec.
Local Open Scope Q_scope.

Lemma ltb_spec (a b : Q) : reflect (a < b) (ltb a b).
Proof.
  unfold ltb. destruct (Qle_bool b a) eqn:E; simpl; constructor.
  - apply Qle_bool_iff in E. lra.
  - destruct (Qlt_le_dec a b) as [H | H]; [exact H |].
    apply Qle_bool_iff in H. congruence.
Qed.

Lemma leb_spec (a b : Q) : reflect (a <= b) (leb a b).
Proof.
  unfold leb. destruct (Qle_bool a b) eqn:E; constructor.
  - now apply Qle_bool_iff.
  - intro H. apply Qle_bool_iff in H. congruence.
Qed.

Lemma clamp_bounds (x lo hi : Q) : lo <= hi -> lo <= clamp x lo hi <= hi.
Proof.
  intro H. unfold clamp.
  destruct (ltb_spec x lo); [lra |].
  destruct (ltb_spec hi x); lra.
Qed.

(** [max(lo, min(hi, x))] is the clamp of [x]. *)
Lemma py_max_min_clamp (x x' lo lo' hi hi' : Q) :
  x == x' -> lo == lo' -> hi == hi' -> lo <= hi ->
  py_max lo (py_min hi x) == clamp x' lo' hi'.
Proof.
  intros Hx Hlo Hhi H. unfold py_max, py_min, clamp.
  destruct (ltb_spec x hi), (ltb_spec x' lo'), (ltb_spec hi' x');
    try lra;
    match goal with |- context [ltb ?a ?b] => destruct (ltb_spec a b) end; lra.
Qed.

(** On a value that is not negative, [min(x, 1.0)] is the clamp to [0, 1]. *)
Lemma py_min_one_clamp (x x' one : Q) :
  x == x' -> one == 1 -> 0 <= x -> py_min x one == clamp x' 0 1.
Proof.
  intros Hx Hone H. unfold py_min, clamp.
  destruct (ltb_spec one x), (ltb_spec x' 0), (ltb_spec 1 x'); lra.
Qed.

End NumFacts.

(** ** The ensemble combiner *)

Module SentimentFacts.
Import Eff PyNum Spec NumFacts Sentiment.
Local Open Scope Q_scope.


Lemma ens_score_unfold (vader textblob : PyVal) :
  ens_score (_ensemble_scores vader textblob)
  = _to_score vader * 0.6 + _to_score textblob * 0.4.
Proof. reflexivity. Qed.

(** C1. For scorer outputs with scores [a] (VADER) and [b] (TextBlob) in
    [-1, 1], the score of the combiner is [a * 0.6 + b * 0.4]; the two are
    equal, hence also within the tolerance 1e-9 of each other. *)
Theorem ensemble_score_weighted_sum (a b : Q) (la lb : Label) :
  -1 <= a <= 1 -> -1 <= b <= 1 ->
  let r := _ensemble_scores (scorer_output a la) (scorer_output b lb) in
  ens_score r == a * 0.6 + b * 0.4 /\
  Qabs (ens_score r - (a * 0.6 + b * 0.4)) <= 1e-9.
Proof.
  intros _ _ r. subst r. rewrite ens_score_unfold. unfold scorer_output. simpl _to_score. split.
  - reflexivity.
  - assert (E : 1e-9 == 1 # 1000000000) by reflexivity.
    rewrite E. apply Qabs_case; intros _; lra.
Qed.

Lemma ensemble_score_weighted_sum_witness :
  let r := _ensemble_scores (scorer_output 0.8 Positive) (scorer_output (-0.2) Negative) in
  ens_score r == 0.8 * 0.6 + (-0.2) * 0.4 /\
  Qabs (ens_score r - (0.8 * 0.6 + (-0.2) * 0.4)) <= 1e-9.
Proof.
  apply (ensemble_score_weighted_sum 0.8 (-0.2) Positive Negative); lra.
Defined.

(** C2. The label of the combiner follows its score: Positive from 0.05
    up, Negative from -0.05 down, Neutral strictly between; so 0.05 itself is
    Positive, -0.05 itself is Negative and 0.04999 is Neutral. *)
Theorem ensemble_label_thresholds (vader textblob : PyVal) :
  let r := _ensemble_scores vader textblob in
  (0.05 <= ens_score r -> ens_label r = Positive) /\
  (ens_score r <= -0.05 -> ens_label r = Negative) /\
  (-0.05 < ens_score r < 0.05 -> ens_label r = Neutral) /\
  (ens_score r == 0.05 -> ens_label r = Positive) /\
  (ens_score r == -0.05 -> ens_label r = Negative) /\
  (ens_score r == 0.04999 -> ens_label r = Neutral).
Proof.
  intro r. subst r. rewrite ens_score_unfold.
  unfold _ensemble_scores. cbn [ens_label].
  set (s := _to_score vader * 0.6 + _to_score textblob * 0.4).
  destruct (leb_spec 0.05 s); [| destruct (leb_spec s (-0.05))];
    repeat split; intros; try reflexivity; lra.
Qed.

Lemma ensemble_label_thresholds_witness :
  ens_label (_ensemble_scores (scorer_output 0.05 Positive) (scorer_output 0.05 Neutral)) = Positive /\
  ens_label (_ensemble_scores (scorer_output (-0.05) Negative) (scorer_output (-0.05) Neutral)) = Negative /\
  ens_label (_ensemble_scores (scorer_output 0.04999 Neutral) (scorer_output 0.04999 Neutral)) = Neutral /\
  ens_label (_ensemble_scores (scorer_output 0.5 Positive) (scorer_output 0 Neutral)) = Positive /\
  ens_label (_ensemble_scores (scorer_output (-0.5) Negative) (scorer_output 0 Neutral)) = Negative /\
  ens_label (_ensemble_scores (scorer_output 0.01 Neutral) (scorer_output (-0.01) Neutral)) = Neutral.
Proof.
  refine (conj _ (conj _ (conj _ (conj _ (conj _ _))))).
  - destruct (ensemble_label_thresholds (scorer_output 0.05 Positive) (scorer_output 0.05 Neutral))
      as (_ & _ & _ & H & _).
    apply H. vm_compute. reflexivity.
  - destruct (ensemble_label_thresholds (scorer_output (-0.05) Negative) (scorer_output (-0.05) Neutral))
      as (_ & _ & _ & _ & H & _).
    apply H. vm_compute. reflexivity.
  - destruct (ensemble_label_thresholds (scorer_output 0.04999 Neutral) (scorer_output 0.04999 Neutral))
      as (_ & _ & _ & _ & _ & H).
    apply H. vm_compute. reflexivity.
  - destruct (ensemble_label_thresholds (scorer_output 0.5 Positive) (scorer_output 0 Neutral))
      as (H & _).
    apply H. vm_compute. discriminate.
  - destruct (ensemble_label_thresholds (scorer_output (-0.5) Negative) (scorer_output 0 Neutral))
      as (_ & H & _).
    apply H. vm_compute. discriminate.
  - destruct (ensemble_label_thresholds (scorer_output 0.01 Neutral) (scorer_output (-0.01) Neutral))
      as (_ & _ & H & _).
    apply H. split; vm_compute; reflexivity.
Defined.

Lemma ens_confidence_unfold (vader textblob : PyVal) :
  let a := _to_score vader in
  let b := _to_score textblob in
  ens_confidence (_ensemble_scores vader textblob)
  = py_min (py_abs (a * 0.6 + b * 0.4)
            * py_max 0.0 (py_min 1.0 (1.0 - py_abs (a - b) / 2))) 1.0.
Proof. reflexivity. Qed.

(** C3. For scores [a] and [b] in [-1, 1] the confidence of the combiner is
    [clamp(|ensemble_score| * agreement, 0, 1)] with
    [ensemble_score = a * 0.6 + b * 0.4] and
    [agreement = clamp(1 - |a - b| / 2, 0, 1)], and it lies in [0, 1]. *)
Theorem ensemble_confidence_clamped (a b : Q) (la lb : Label) :
  -1 <= a <= 1 -> -1 <= b <= 1 ->
  let r := _ensemble_scores (scorer_output a la) (scorer_output b lb) in
  let ensemble_score := a * 0.6 + b * 0.4 in
  let agreement := clamp (1 - Qabs (a - b) / 2) 0 1 in
  ens_confidence r == clamp (Qabs ensemble_score * agreement) 0 1 /\
  0 <= ens_confidence r <= 1.
Proof.
  intros _ _ r ensemble_score agreement. subst r ensemble_score.
  rewrite ens_confidence_unfold. unfold scorer_output. simpl _to_score.
  unfold py_abs.
  assert (Hagr : py_max 0.0 (py_min 1.0 (1.0 - Qabs (a - b) / 2)) == agreement).
  { unfold agreement. apply py_max_min_clamp; lra. }
  assert (Hbounds : 0 <= agreement <= 1) by (apply clamp_bounds; lra).
  assert (Hprod : 0 <= Qabs (a * 0.6 + b * 0.4) * agreement).
  { apply Qmult_le_0_compat; [apply Qabs_nonneg | lra]. }
  assert (Heq : py_min (Qabs (a * 0.6 + b * 0.4)
                        * py_max 0.0 (py_min 1.0 (1.0 - Qabs (a - b) / 2))) 1.0
                == clamp (Qabs (a * 0.6 + b * 0.4) * agreement) 0 1).
  { apply py_min_one_clamp; rewrite ?Hagr; [reflexivity | lra | exact Hprod]. }
  split.
  - exact Heq.
  - rewrite Heq. apply clamp_bounds. lra.
Qed.

Lemma ensemble_confidence_clamped_witness :
  let r := _ensemble_scores (scorer_output 0.8 Positive) (scorer_output (-0.2) Negative) in
  let r1 := _ensemble_scores (scorer_output 1 Positive) (scorer_output 1 Positive) in
  ens_confidence r == clamp (Qabs (0.8 * 0.6 + (-0.2) * 0.4) * clamp (1 - Qabs (0.8 - (-0.2)) / 2) 0 1) 0 1 /\
  ens_confidence r == 0.2 /\
  ens_confidence r1 == 1.
Proof.
  intros r r1.
  destruct (ensemble_confidence_clamped 0.8 (-0.2) Positive Negative) as [H _]; [lra | lra |].
  destruct (ensemble_confidence_clamped 1 1 Positive Positive) as [H1 _]; [lra | lra |].
  split; [exact H |]. split.
  - unfold r. rewrite H. vm_compute. reflexivity.
  - unfold r1. rewrite H1. vm_compute. reflexivity.
Defined.

End SentimentFacts.

(** ** Rounding *)

Module RoundFacts.
Import PyNum Spec NumFacts.
Local Open Scope Q_scope.

Lemma floor_bounds (x : Q) :
  inject_Z (Qfloor x) <= x /\ x < inject_Z (Qfloor x) + 1.
Proof.
  split; [apply Qfloor_le |].
  pose proof (Qlt_floor x) as H. rewrite inject_Z_plus in H. exact H.
Qed.

(** Rounding moves a value by at most one half. *)
Lemma round_half_even_near (x : Q) :
  Qabs (inject_Z (round_half_even x) - x) <= 1 # 2.
Proof.
  unfold round_half_even. destruct (floor_bounds x) as [Hlo Hhi].
  destruct (ltb_spec (x - inject_Z (Qfloor x)) (1 # 2)).
  - apply Qabs_case; intros; lra.
  - destruct (ltb_spec (1 # 2) (x - inject_Z (Qfloor x))).
    + rewrite inject_Z_plus. change (inject_Z 1) with 1. apply Qabs_case; intros; lra.
    + destruct (Z.even (Qfloor x)).
      * apply Qabs_case; intros; lra.
      * rewrite inject_Z_plus. change (inject_Z 1) with 1. apply Qabs_case; intros; lra.
Qed.

(** A whole number is its own rounding. *)
Lemma round_half_even_whole (x : Q) (k : Z) :
  x == inject_Z k -> round_half_even x = k.
Proof.
  intro H. unfold round_half_even.
  rewrite (Qfloor_comp _ _ H), Qfloor_Z.
  destruct (ltb_spec (x - inject_Z k) (1 # 2)); [reflexivity | exfalso; lra].
Qed.

(** Rounding does not cross a whole number. *)
Lemma round_half_even_le (x : Q) (n : Z) :
  x <= inject_Z n -> (round_half_even x <= n)%Z.
Proof.
  intro H. pose proof (round_half_even_near x) as Hn.
  destruct (Z_le_gt_dec (round_half_even x) n) as [Hle | Hgt]; [exact Hle |].
  exfalso. assert (Hz : (n + 1 <= round_half_even x)%Z) by lia.
  rewrite Zle_Qle, inject_Z_plus in Hz. change (inject_Z 1) with 1 in Hz.
  revert Hn. apply Qabs_case; intros; lra.
Qed.

Lemma round_half_even_ge (x : Q) (n : Z) :
  inject_Z n <= x -> (n <= round_half_even x)%Z.
Proof.
  intro H. pose proof (round_half_even_near x) as Hn.
  destruct (Z_le_gt_dec n (round_half_even x)) as [Hle | Hgt]; [exact Hle |].
  exfalso. assert (Hz : (round_half_even x + 1 <= n)%Z) by lia.
  rewrite Zle_Qle, inject_Z_plus in Hz. change (inject_Z 1) with 1 in Hz.
  revert Hn. apply Qabs_case; intros; lra.
Qed.

Lemma py_round_2_unfold (x : Q) :
  py_round x 2 == inject_Z (round_half_even (x * 100)) / 100.
Proof. reflexivity. Qed.

Lemma py_round_2_two_decimals (x : Q) : two_decimals (py_round x 2).
Proof. exists (round_half_even (x * 100)). apply py_round_2_unfold. Qed.

Lemma py_round_2_near (x : Q) : Qabs (py_round x 2 - x) <= 0.005.
Proof.
  rewrite py_round_2_unfold.
  pose proof (round_half_even_near (x * 100)) as H.
  set (y := inject_Z (round_half_even (x * 100))) in *.
  unfold Qdiv. change (/ 100) with (1 # 100).
  revert H. apply Qabs_case; intros H0 H; apply Qabs_case; intros H1; lra.
Qed.

End RoundFacts.

(** ** The explanation engine *)

Module ExplainFacts.
Import PyNum Spec NumFacts RoundFacts ExplainableAI.
Local Open Scope Q_scope.

Lemma Label_eqb_spec (a b : Label) : reflect (a = b) (Label_eqb a b).
Proof. destruct a, b; constructor; congruence. Qed.

Lemma reasons_differ : REASON_LARGE_DIFFERENCE <> REASON_CLOSE.
Proof. intro H. vm_compute in H. discriminate H. Qed.




(** C9, as the claim words it, fails: the per-model confidence of the score
    0.123 is 0.15, while [min(|0.123| * 1.2, 1.0)] is 0.1476. *)
Lemma calculate_confidence_0_123 :
  -1 <= 0.123 <= 1 /\
  _calculate_confidence 0.123 == 0.15 /\
  py_min (Qabs 0.123 * 1.2) 1.0 == 0.1476 /\
  ~ _calculate_confidence 0.123 == py_min (Qabs 0.123 * 1.2) 1.0.
Proof.
  split; [lra |].
  split; [vm_compute; reflexivity |].
  split; [vm_compute; reflexivity |].
  intro H. vm_compute in H. discriminate H.
Qed.

(** C9, amended. For a score in [-1, 1] the per-model confidence is
    [min(|score| * 1.2, 1.0)] rounded to two decimals: a whole number of
    hundredths, within 0.005 of that value, equal to it when it already has
    two decimals, and in [0, 1]. *)
Theorem calculate_confidence_rounded (score : Q) :
  -1 <= score <= 1 ->
  let m := py_min (Qabs score * 1.2) 1.0 in
  let c := _calculate_confidence score in
  two_decimals c /\
  Qabs (c - m) <= 0.005 /\
  (two_decimals m -> c == m) /\
  0 <= c <= 1.
Proof.
  intros _ m c. subst c. unfold _calculate_confidence, py_abs. fold m.
  assert (Hm : 0 <= m <= 1).
  { unfold m, py_min. pose proof (Qabs_nonneg score).
    destruct (ltb_spec 1.0 (Qabs score * 1.2)); lra. }
  split; [apply py_round_2_two_decimals |].
  split; [apply py_round_2_near |].
  split.
  - intros [k Hk]. rewrite py_round_2_unfold.
    rewrite (round_half_even_whole (m * 100) k).
    + symmetry. exact Hk.
    + rewrite Hk. field.
  - rewrite py_round_2_unfold.
    assert (H0 : (0 <= round_half_even (m * 100))%Z)
      by (apply round_half_even_ge; change (inject_Z 0) with 0; lra).
    assert (H1 : (round_half_even (m * 100) <= 100)%Z)
      by (apply round_half_even_le; change (inject_Z 100) with 100; lra).
    rewrite Zle_Qle in H0, H1.
    change (inject_Z 0) with 0 in H0. change (inject_Z 100) with 100 in H1.
    unfold Qdiv. change (/ 100) with (1 # 100). lra.
Qed.

Lemma calculate_confidence_rounded_witness :
  let m := py_min (Qabs 0.123 * 1.2) 1.0 in
  let c := _calculate_confidence 0.123 in
  two_decimals c /\
  Qabs (c - m) <= 0.005 /\
  (two_decimals m -> c == m) /\
  0 <= c <= 1.
Proof. apply (calculate_confidence_rounded 0.123). lra. Defined.

End ExplainFacts.

(** ** Blank text and failing scorers *)

Module StripFacts.
Import Spec PyStr.

Lemma lstrip_whitespace_only (s : string) : whitespace_only s -> lstrip s = "".
Proof.
  unfold whitespace_only. induction s as [| c s IH]; simpl; intro H.
  - reflexivity.
  - inversion H as [| ? ? Hc Hs]; subst. rewrite Hc. apply IH, Hs.
Qed.

Lemma rstrip_empty_whitespace_only (s : string) : rstrip s = "" -> whitespace_only s.
Proof.
  unfold whitespace_only. induction s as [| c s IH]; simpl; intro H.
  - constructor.
  - destruct (rstrip s) eqn:E; [| discriminate H].
    destruct (isspace c) eqn:Hc; [| discriminate H].
    constructor; [exact Hc | apply IH; reflexivity].
Qed.

Lemma lstrip_whitespace_only_inv (s : string) :
  whitespace_only (lstrip s) -> whitespace_only s.
Proof.
  unfold whitespace_only. induction s as [| c s IH]; simpl; intro H.
  - constructor.
  - destruct (isspace c) eqn:Hc.
    + constructor; [exact Hc | apply IH, H].
    + simpl in H. inversion H as [| ? ? Hc' _]; subst. congruence.
Qed.

(** The guard [not text.strip()] holds exactly for the texts that are empty
    or made of whitespace only. *)
Lemma blank_iff_whitespace_only (s : string) : blank s = true <-> whitespace_only s.
Proof.
  unfold blank, strip. split.
  - intro H. apply lstrip_whitespace_only_inv, rstrip_empty_whitespace_only.
    destruct (rstrip (lstrip s)); [reflexivity | discriminate H].
  - intro H. rewrite (lstrip_whitespace_only s H). reflexivity.
Qed.

End StripFacts.

Module ServiceFacts.
Import Eff PyNum Spec NumFacts StripFacts Sentiment.
Local Open Scope Q_scope.

(** Unfolds the service down to the outcomes of its backends. *)
Ltac run_service :=
  unfold analyze, _analyze_vader, _analyze_textblob,
    try_except, bind, invoke, emit, ret, value.

Section Backends.
Variable vader_compound : string -> outcome Q.
Variable textblob_polarity : string -> outcome Q.
Variable run_transformers :
  string -> outcome (option TransformerResult * option TransformerResult).

(** [_analyze_textblob] never raises. *)
Lemma analyze_textblob_returns (text : string) :
  exists r, value (_analyze_textblob textblob_polarity text) = Returned r.
Proof.
  run_service.
  destruct (textblob_polarity text); simpl; eexists; reflexivity.
Qed.

(** [analyze] never raises. *)
Lemma analyze_returns (text : string) :
  exists r, value (analyze vader_compound textblob_polarity run_transformers text) = Returned r.
Proof.
  run_service.
  destruct (PyStr.blank text); [eexists; reflexivity |].
  destruct (vader_compound text); simpl; [| eexists; reflexivity].
  destruct (textblob_polarity text); simpl;
    destruct (run_transformers text); simpl; eexists; reflexivity.
Qed.

(** When both scorers answer, [analyze] reports their scores and what the
    combiner makes of them. *)
Lemma analyze_full_path (text : string) (a b : Q) :
  PyStr.blank text = false ->
  vader_compound text = Returned a ->
  textblob_polarity text = Returned b ->
  exists r,
    value (analyze vader_compound textblob_polarity run_transformers text) = Returned r /\
    vader_score r = a /\
    textblob_score r = b /\
    ensemble_score r = a * 0.6 + b * 0.4 /\
    ensemble_label r
    = ens_label (_ensemble_scores (scorer_output a Neutral) (scorer_output b Neutral)) /\
    confidence r
    = ens_confidence (_ensemble_scores (scorer_output a Neutral) (scorer_output b Neutral)).
Proof.
  intros Hb Hv Ht. run_service. rewrite Hb, Hv, Ht. simpl.
  destruct (run_transformers text); simpl; eexists; repeat split.
Qed.

(** A failure of TextBlob stays with TextBlob: VADER's score and label are
    reported as computed, TextBlob's are 0.0 and Neutral, and the ensemble is
    formed from the two. *)
Lemma textblob_failure_is_local (text : string) (a : Q) (e : string) :
  PyStr.blank text = false ->
  vader_compound text = Returned a ->
  textblob_polarity text = Raised e ->
  exists r,
    value (analyze vader_compound textblob_polarity run_transformers text) = Returned r /\
    vader_score r = a /\
    value (_analyze_vader vader_compound text)
    = Returned {| score := a; label := vader_label r |} /\
    textblob_score r = 0.0 /\
    textblob_label r = Neutral /\
    ensemble_score r = a * 0.6 + 0.0 * 0.4.
Proof.
  intros Hb Hv Ht.
  run_service.
  rewrite Hb, Hv, Ht. simpl.
  destruct (run_transformers text); simpl; eexists; repeat split.
Qed.

(** A failure of VADER is not caught in [_analyze_vader]: it leaves
    [analyze] through the outer handler, which answers with the all-neutral
    dict before TextBlob is asked. *)
Lemma vader_failure_reaches_outer_handler (text e : string) :
  PyStr.blank text = false ->
  vader_compound text = Raised e ->
  value (_analyze_vader vader_compound text) = Raised e /\
  analyze vader_compound textblob_polarity run_transformers text
  = (Returned neutral_result,
     [CallVader text; LogError ("Sentiment analysis failed: " ++ e)]).
Proof.
  intros Hb Hv.
  run_service. rewrite Hb, Hv. simpl. split; reflexivity.
Qed.

End Backends.

(** C6. For a text that is empty or made of whitespace only, [analyze]
    returns the dict whose scores and confidence are 0.0 and whose labels are
    Neutral, and its trace is empty: neither scorer was called, whatever the
    scorers would have answered. *)
Theorem analyze_blank_text
    (vader_compound textblob_polarity : string -> outcome Q)
    (run_transformers :
       string -> outcome (option TransformerResult * option TransformerResult))
    (text : string) :
  whitespace_only text ->
  exists r,
    analyze vader_compound textblob_polarity run_transformers text = (Returned r, []) /\
    vader_score r == 0 /\ vader_label r = Neutral /\
    textblob_score r == 0 /\ textblob_label r = Neutral /\
    ensemble_score r == 0 /\ ensemble_label r = Neutral /\
    confidence r == 0.
Proof.
  intro H. apply blank_iff_whitespace_only in H.
  exists neutral_result. unfold analyze. rewrite H.
  split; [reflexivity |].
  cbn [neutral_result vader_score vader_label textblob_score textblob_label
       ensemble_score ensemble_label confidence].
  repeat split; reflexivity.
Qed.

Lemma analyze_blank_text_witness :
  exists r,
    analyze (fun _ => Raised "vader") (fun _ => Returned 0.8)
            (fun _ => Raised "transformers")
            (String " " (String PyStr.LF (String " " "")))
    = (Returned r, []) /\
    vader_score r == 0 /\ vader_label r = Neutral /\
    textblob_score r == 0 /\ textblob_label r = Neutral /\
    ensemble_score r == 0 /\ ensemble_label r = Neutral /\
    confidence r == 0.
Proof.
  apply (analyze_blank_text (fun _ => Raised "vader") (fun _ => Returned 0.8)
           (fun _ => Raised "transformers")).
  apply blank_iff_whitespace_only. vm_compute. reflexivity.
Defined.

(** C4, at a text on which VADER raises while TextBlob answers 0.8: the
    exception leaves [_analyze_vader], and [analyze] reports 0.0 and Neutral
    for TextBlob as well, without having called it. *)
Theorem vader_failure_zeroes_textblob :
  let vader_compound := fun _ : string => @Raised Q "lexicon lookup failed" in
  let textblob_polarity := fun _ : string => Returned 0.8 in
  let run_transformers :=
    fun _ : string =>
      Returned (@None TransformerResult, @None TransformerResult) in
  value (_analyze_vader vader_compound "great") = Raised "lexicon lookup failed" /\
  value (_analyze_textblob textblob_polarity "great")
  = Returned {| score := 0.8; label := Positive |} /\
  analyze vader_compound textblob_polarity run_transformers "great"
  = (Returned neutral_result,
     [CallVader "great";
      LogError "Sentiment analysis failed: lexicon lookup failed"]) /\
  textblob_score neutral_result == 0 /\
  textblob_label neutral_result = Neutral.
Proof. repeat split. Qed.

(** The other half of C4 at the mirrored input: TextBlob raises, VADER
    answers 0.8, and only TextBlob's entries are neutral. *)
Lemma textblob_failure_keeps_vader :
  let vader_compound := fun _ : string => Returned 0.8 in
  let textblob_polarity := fun _ : string => @Raised Q "no corpus" in
  let run_transformers :=
    fun _ : string =>
      Returned (@None TransformerResult, @None TransformerResult) in
  exists r,
    analyze vader_compound textblob_polarity run_transformers "great"
    = (Returned r,
       [CallVader "great"; CallTextBlob "great";
        LogWarning "TextBlob analysis failed: no corpus";
        CallTransformers "great"]) /\
    vader_score r = 0.8 /\ vader_label r = Positive /\
    textblob_score r = 0.0 /\ textblob_label r = Neutral.
Proof. eexists. repeat split. Qed.

End ServiceFacts.

(** ** The line parser *)

Module ParserFacts.
Import Spec PyStr Re NLP StripFacts.




(** Only the last message changes, and only its body. *)
Lemma append_to_last_snoc (ms : list Message) (m : Message) (suffix : string) :
  append_to_last (ms ++ [m]) suffix
  = (ms ++ [{| timestamp := timestamp m; raw_timestamp := raw_timestamp m;
               sender := sender m; message := message m ++ suffix |}])%list.
Proof.
  induction ms as [| m0 ms IH]; [reflexivity |].
  cbn [app append_to_last]. rewrite IH.
  destruct (ms ++ [m])%list eqn:E; [| reflexivity].
  destruct ms; discriminate E.
Qed.

Lemma rep_greedy_first {R : Type} (p : ascii -> bool) (lo : nat) (hi : option nat)
    (s : string) (k : string -> option R) (r : R) :
  rep_greedy p (S lo) hi s k = Some r ->
  exists c s', s = String c s' /\ p c = true.
Proof.
  destruct s as [| c s']; simpl; [discriminate |].
  destruct (p c) eqn:E; [| discriminate].
  intros _. exists c, s'. split; [reflexivity | exact E].
Qed.

(** A line that matches [START_RE] starts with a digit. *)
Lemma start_re_first_digit (line : string) (m : captures) :
  match_ START_RE line = Some m ->
  exists c s', line = String c s' /\ digit c = true.
Proof.
  unfold match_, START_RE, digits. cbn [rmatch]. intro H.
  match type of H with
  | context [rep_greedy ?p 1 ?hi ?s ?k] =>
      destruct (rep_greedy p 1 hi s k) eqn:E1
  end.
  - eapply rep_greedy_first, E1.
  - eapply rep_greedy_first, H.
Qed.

Lemma digit_not_space (c : ascii) : digit c = true -> isspace c = false.
Proof.
  unfold digit, isspace, between.
  destruct (N_of_ascii c) as [| p]; [discriminate |].
  intro H. apply andb_prop in H as [H1 H2].
  apply N.leb_le in H1, H2.
  repeat match goal with
         | |- context [(?a <=? ?b)%N] => destruct (N.leb_spec a b)
         | |- context [(?a =? ?b)%N] => destruct (N.eqb_spec a b)
         end; simpl; try reflexivity; lia.
Qed.

Lemma rstrip_nonempty (c : ascii) (s : string) :
  isspace c = false -> rstrip (String c s) <> "".
Proof.
  intro Hc. simpl. destruct (rstrip s); [rewrite Hc |]; discriminate.
Qed.

(** A line that matches [START_RE] is not blank. *)
Lemma start_re_not_blank (line : string) (m : captures) :
  match_ START_RE line = Some m -> blank line = false.
Proof.
  intro H. apply start_re_first_digit in H as (c & s' & -> & Hd).
  apply digit_not_space in Hd. unfold blank, strip. simpl lstrip. rewrite Hd.
  pose proof (rstrip_nonempty c s' Hd) as Hne.
  destruct (rstrip (String c s')); [congruence | reflexivity].
Qed.

Section Parser.
Variable strptime_iso : string -> string -> option string.

Lemma parse_lines_snoc (pre : list string) (line : string) :
  parse_lines strptime_iso (pre ++ [line])
  = parse_line strptime_iso (parse_lines strptime_iso pre) line.
Proof. unfold parse_lines. rewrite fold_left_app. reflexivity. Qed.

(** C7. A line that is not blank and does not match [START_RE]: when a
    message has been parsed before it, the stripped line joins the body of the
    most recent message after a line feed, and nothing else changes; when no
    message has been parsed yet, the line goes to [failed_lines].  The chat
    "8/15/2024, 10:30 PM - Alice: Hello" followed by the line "world" gives
    one message, with the body "Hello", line feed, "world". *)
Theorem continuation_line_merge
    (pre : list string) (line : string)
    (messages : list Message) (failed_lines : list string) :
  blank line = false ->
  match_ START_RE line = None ->
  parse_lines strptime_iso pre = (messages, failed_lines) ->
  (forall ms m, messages = (ms ++ [m])%list ->
     parse_lines strptime_iso (pre ++ [line])
     = ((ms ++ [{| timestamp := timestamp m;
                   raw_timestamp := raw_timestamp m;
                   sender := sender m;
                   message := message m ++ NL ++ strip line |}])%list,
        failed_lines)) /\
  (messages = [] ->
     parse_lines strptime_iso (pre ++ [line]) = ([], (failed_lines ++ [line])%list)) /\
  (exists m,
     parse strptime_iso continuation_chat = ([m], []) /\
     sender m = "Alice" /\
     message m = "Hello" ++ NL ++ "world").
Proof.
  intros Hb Hm Hpre.
  rewrite parse_lines_snoc, Hpre. unfold parse_line. rewrite Hb, Hm.
  split; [| split].
  - intros ms m ->. rewrite append_to_last_snoc.
    destruct (ms ++ [m])%list eqn:E; [destruct ms; discriminate E | reflexivity].
  - intros ->. reflexivity.
  - eexists. split; [vm_compute; reflexivity | split; reflexivity].
Qed.


End Parser.

Lemma continuation_line_merge_witness :
  parse_lines (fun _ _ => None) (["8/15/2024, 10:30 PM - Alice: Hello"] ++ ["  world "])
  = ([{| timestamp := "8/15/2024, 10:30 PM";
         raw_timestamp := "8/15/2024, 10:30 PM";
         sender := "Alice";
         message := "Hello" ++ NL ++ strip "  world " |}], []) /\
  parse_lines (fun _ _ => None) ([] ++ ["  world "]) = ([], ["  world "]).
Proof.
  split.
  - apply (proj1 (continuation_line_merge (fun _ _ => None)
                    ["8/15/2024, 10:30 PM - Alice: Hello"] "  world "
                    [{| timestamp := "8/15/2024, 10:30 PM";
                        raw_timestamp := "8/15/2024, 10:30 PM";
                        sender := "Alice"; message := "Hello" |}] []
                    eq_refl eq_refl eq_refl)
             []
             {| timestamp := "8/15/2024, 10:30 PM";
                raw_timestamp := "8/15/2024, 10:30 PM";
                sender := "Alice"; message := "Hello" |}
             eq_refl).
  - apply (proj1 (proj2 (continuation_line_merge (fun _ _ => None)
                           [] "  world " [] [] eq_refl eq_refl eq_refl))
             eq_refl).
Defined.


End ParserFacts.

(** ** The full-chat analysis *)

Module ChatFacts.
Import Eff Spec PyStr NLP.

Lemma filter_lengths {A : Type} (p : A -> bool) (l : list A) :
  List.length (List.filter (fun x => negb (p x)) l) + List.length (List.filter p l)
  = List.length l.
Proof.
  induction l as [| x l IH]; [reflexivity |].
  simpl. destruct (p x); simpl; lia.
Qed.

Lemma filter_all_iff_none {A : Type} (p : A -> bool) (l : list A) :
  List.length (List.filter p l) = 0 <-> ~ Exists (fun x => p x = true) l.
Proof.
  induction l as [| x l IH]; simpl.
  - split; [intros _ H; inversion H | reflexivity].
  - destruct (p x) eqn:E; simpl.
    + split; [discriminate | intro H; exfalso; apply H; left; exact E].
    + rewrite IH. split.
      * intros H H'. inversion H' as [? ? Hx | ? ? Hl]; subst; [congruence | tauto].
      * intros H H'. apply H. right. exact H'.
Qed.

(** The loop skips exactly the media placeholders and the blank bodies. *)
Lemma skipped_true (text : string) :
  text = "<Media omitted>" \/ whitespace_only text <-> skipped text = true.
Proof.
  unfold skipped. rewrite orb_true_iff, String.eqb_eq,
    StripFacts.blank_iff_whitespace_only. reflexivity.
Qed.

Lemma skipped_false (text : string) :
  skipped text = false <-> text <> "<Media omitted>" /\ ~ whitespace_only text.
Proof.
  rewrite <- not_true_iff_false, <- skipped_true. tauto.
Qed.

Section Service.
Variable strptime_iso : string -> string -> option string.
Variable vader_compound : string -> outcome Q.
Variable textblob_polarity : string -> outcome Q.
Variable run_transformers :
  string -> outcome (option Sentiment.TransformerResult * option Sentiment.TransformerResult).
Variable Annotations : Type.
Variable annotate : string -> outcome Annotations.
Variable Aggregates : Type.
Variable aggregate : list (AnalyzedMessage Annotations) -> outcome Aggregates.

(** The loop adds, in order, one entry for each message it does not skip,
    with the sender and the body of that message. *)
Lemma analyze_messages_entries (msgs : list Message) :
  forall analyzed sentiments analyzed' sentiments',
    analyze_messages vader_compound textblob_polarity run_transformers annotate
      msgs (analyzed, sentiments) = Returned (analyzed', sentiments') ->
    map (fun a => (am_sender a, am_message a)) analyzed'
    = (map (fun a => (am_sender a, am_message a)) analyzed ++
       map (fun m => (sender m, message m))
           (List.filter (fun m => negb (skipped (message m))) msgs))%list.
Proof.
  induction msgs as [| msg msgs IH]; intros analyzed sentiments analyzed' sentiments' H.
  - simpl in H. injection H as <- <-. simpl. now rewrite app_nil_r.
  - cbn [analyze_messages] in H. cbn [List.filter].
    destruct (skipped (message msg)) eqn:Hs; cbn [negb].
    + apply (IH _ _ _ _ H).
    + destruct (value (Sentiment.analyze vader_compound textblob_polarity
                         run_transformers (message msg))); [| discriminate H].
      destruct (annotate (message msg)); [| discriminate H].
      apply IH in H. rewrite H, map_app. cbn [map am_sender am_message].
      rewrite <- app_assoc. reflexivity.
Qed.

(** With helpers that do not raise, a chat with a parsed message is
    analysed to the end. *)
Lemma analyze_messages_returns (msgs : list Message) :
  (forall text, exists x, annotate text = Returned x) ->
  forall acc, exists acc',
    analyze_messages vader_compound textblob_polarity run_transformers annotate
      msgs acc = Returned acc'.
Proof.
  intro Hann. induction msgs as [| msg msgs IH]; intros [analyzed sentiments].
  - eexists. reflexivity.
  - cbn [analyze_messages]. destruct (skipped (message msg)); [apply IH |].
    destruct (ServiceFacts.analyze_returns vader_compound textblob_polarity
                run_transformers (message msg)) as [s ->].
    destruct (Hann (message msg)) as [x ->]. apply IH.
Qed.

Lemma analyze_chat_completes (content : string) :
  (forall text, exists x, annotate text = Returned x) ->
  (forall analyzed, exists g, aggregate analyzed = Returned g) ->
  fst (parse strptime_iso content) <> [] ->
  exists r,
    analyze_chat strptime_iso vader_compound textblob_polarity run_transformers
      annotate aggregate content = Analyzed r.
Proof.
  intros Hann Hagg Hne. unfold analyze_chat.
  destruct (parse strptime_iso content) as [msgs fl]. cbn [fst] in Hne.
  destruct msgs as [| m0 msgs']; [contradiction |].
  destruct (analyze_messages_returns (m0 :: msgs') Hann ([], [])) as [[am ss] ->].
  destruct (Hagg am) as [g ->]. eexists. reflexivity.
Qed.

(** C10. When [analyze_chat] completes, its message sequence holds, in
    order, the parsed messages whose body is neither "<Media omitted>" nor
    blank, and no other; [total_messages] is the length of that sequence, so
    it falls short of the number of parsed messages by the number of skipped
    ones, and is strictly smaller exactly when some parsed message is a media
    placeholder or blank. *)
Theorem skipped_messages_left_out
    (content : string) (r : ChatAnalysis Annotations Aggregates) :
  analyze_chat strptime_iso vader_compound textblob_polarity run_transformers
    annotate aggregate content = Analyzed r ->
  let parsed := fst (parse strptime_iso content) in
  let kept := List.filter (fun m => negb (skipped (message m))) parsed in
  map (fun a => (am_sender a, am_message a)) (messages r)
  = map (fun m => (sender m, message m)) kept /\
  Forall (fun a => am_message a <> "<Media omitted>" /\
                   ~ whitespace_only (am_message a)) (messages r) /\
  total_messages r = List.length (messages r) /\
  total_messages r = List.length kept /\
  parsed_messages (debug r) = List.length parsed /\
  total_messages r
  + List.length (List.filter (fun m => skipped (message m)) parsed)
  = parsed_messages (debug r) /\
  (total_messages r < parsed_messages (debug r) <->
   Exists (fun m => message m = "<Media omitted>" \/ whitespace_only (message m))
          parsed).
Proof.
  intros H parsed kept. unfold analyze_chat in H. subst kept parsed.
  destruct (parse strptime_iso content) as [msgs fl]. cbn [fst].
  destruct msgs as [| m0 msgs']; [discriminate H |].
  remember (m0 :: msgs') as msgs eqn:Emsgs. clear Emsgs.
  destruct (analyze_messages _ _ _ _ msgs ([], [])) as [[am ss] | e] eqn:Ha;
    [| discriminate H].
  destruct (aggregate am); [| discriminate H].
  injection H as <-. cbn [messages total_messages debug parsed_messages].
  apply analyze_messages_entries in Ha. cbn [map app] in Ha.
  assert (Hlen : List.length am
                 = List.length (List.filter (fun m => negb (skipped (message m))) msgs)).
  { rewrite <- (length_map (fun a => (am_sender a, am_message a)) am), Ha.
    apply length_map. }
  pose proof (filter_lengths (fun m => skipped (message m)) msgs) as Hsum.
  split; [exact Ha |].
  split.
  { assert (Hbody : map am_message am
                    = map message (List.filter (fun m => negb (skipped (message m))) msgs)).
    { pose proof (f_equal (map snd) Ha) as Hs. rewrite !map_map in Hs. exact Hs. }
    apply (Forall_map am_message
             (fun t => t <> "<Media omitted>" /\ ~ whitespace_only t)).
    rewrite Hbody. apply Forall_map, Forall_forall.
    intros m Hin. apply filter_In in Hin as [_ Hk].
    apply negb_true_iff in Hk. apply skipped_false in Hk. exact Hk. }
  split; [reflexivity |].
  split; [exact Hlen |].
  split; [reflexivity |].
  split; [rewrite Hlen; exact Hsum |].
  rewrite Hlen, <- Hsum. split.
  - intro Hlt.
    destruct (List.length (List.filter (fun m => skipped (message m)) msgs)) eqn:E;
      [lia |].
    destruct (Exists_dec (fun m => skipped (message m) = true) msgs) as [Hex | Hno].
    + intro m. destruct (skipped (message m)); [left | right]; congruence.
    + apply Exists_exists in Hex as (m & Hin & Hm). apply Exists_exists.
      exists m. split; [exact Hin | apply skipped_true, Hm].
    + apply filter_all_iff_none in Hno. congruence.
  - intro Hex.
    destruct (List.length (List.filter (fun m => skipped (message m)) msgs)) eqn:E;
      [| lia].
    exfalso. apply filter_all_iff_none in E. apply E.
    apply Exists_exists in Hex as (m & Hin & Hm). apply Exists_exists.
    exists m. split; [exact Hin | apply skipped_true, Hm].
Qed.

End Service.

Lemma skipped_messages_left_out_witness :
  exists r : ChatAnalysis unit unit,
    analyze_chat (fun _ _ => None) (fun _ => Returned 0.5%Q) (fun _ => Returned 0.5%Q)
      (fun _ => Returned (None, None)) (fun _ => Returned tt) (fun _ => Returned tt)
      media_chat = Analyzed r /\
    map (fun a => (am_sender a, am_message a)) (messages r)
    = [("Bob", "This is awesome!")] /\
    total_messages r = 1 /\
    parsed_messages (debug r) = 2 /\
    total_messages r < parsed_messages (debug r).
Proof.
  destruct (analyze_chat (fun _ _ => None) (fun _ => Returned 0.5%Q)
              (fun _ => Returned 0.5%Q) (fun _ => Returned (None, None))
              (fun _ : string => Returned tt)
              (fun _ : list (AnalyzedMessage unit) => Returned tt) media_chat)
    as [n | e | r] eqn:E; [vm_compute in E; discriminate E .. |].
  exists r. split; [reflexivity |].
  destruct (skipped_messages_left_out _ _ _ _ _ _ _ _ media_chat r E)
    as (Hm & _ & _ & Ht & Hp & _ & Hlt).
  split; [exact Hm |].
  split; [exact Ht |].
  split; [exact Hp |].
  apply Hlt. apply Exists_exists.
  exists {| timestamp := "8/15/2024, 10:30 PM";
            raw_timestamp := "8/15/2024, 10:30 PM";
            sender := "Alice"; message := "<Media omitted>" |}.
  split; [vm_compute; left; reflexivity | left; reflexivity].
Defined.

End ChatFacts.

(** ** More on the combiner and the sentiment service *)

Module CombinerFacts.
Import Eff PyNum Spec SpecWords NumFacts Sentiment.
Local Open Scope Q_scope.

(** Division by two, in the form linear arithmetic takes. *)
Ltac half_as_product := unfold Qdiv in *; change (/ 2) with (1 # 2) in *.

Lemma py_min_le_l (a b : Q) : py_min a b <= a.
Proof. unfold py_min. destruct (ltb_spec b a); lra. Qed.

Lemma py_min_le_r (a b : Q) : py_min a b <= b.
Proof. unfold py_min. destruct (ltb_spec b a); lra. Qed.

Lemma py_min_compat (a a' b b' : Q) : a == a' -> b == b' -> py_min a b == py_min a' b'.
Proof.
  intros Ha Hb. unfold py_min. destruct (ltb_spec b a), (ltb_spec b' a'); lra.
Qed.

Lemma py_max_compat (a a' b b' : Q) : a == a' -> b == b' -> py_max a b == py_max a' b'.
Proof.
  intros Ha Hb. unfold py_max. destruct (ltb_spec a b), (ltb_spec a' b'); lra.
Qed.

Lemma py_max_bounds (x : Q) : 0 <= py_max 0.0 (py_min 1.0 x) <= 1.
Proof.
  unfold py_max, py_min.
  destruct (ltb_spec x 1.0);
    match goal with |- context [ltb ?a ?b] => destruct (ltb_spec a b) end; lra.
Qed.

(** The agreement factor as the combiner computes it. *)
Lemma agreement_in_range (a b : Q) :
  -1 <= a <= 1 -> -1 <= b <= 1 ->
  py_max 0.0 (py_min 1.0 (1.0 - py_abs (a - b) / 2)) == 1 - Qabs (a - b) / 2.
Proof.
  intros Ha Hb. unfold py_abs, py_max, py_min.
  assert (H : 0 <= Qabs (a - b) <= 2) by (split; [apply Qabs_nonneg | apply Qabs_case; intros; lra]).
  set (d := Qabs (a - b)) in *. half_as_product.
  destruct (ltb_spec (1.0 - d * (1 # 2)) 1.0);
    match goal with |- context [ltb ?x ?y] => destruct (ltb_spec x y) end; lra.
Qed.

(** X1. For scores in [-1, 1] the ensemble score is in [-1, 1]; it is not
    negative when neither score is, and not positive when neither score is,
    so two scores on one side of zero never give a label of the other
    side. *)
Theorem ensemble_score_bounded (a b : Q) (la lb : Label) :
  -1 <= a <= 1 -> -1 <= b <= 1 ->
  let r := _ensemble_scores (scorer_output a la) (scorer_output b lb) in
  -1 <= ens_score r <= 1 /\
  (0 <= a -> 0 <= b -> 0 <= ens_score r /\ ens_label r <> Negative) /\
  (a <= 0 -> b <= 0 -> ens_score r <= 0 /\ ens_label r <> Positive).
Proof.
  intros Ha Hb r. subst r. unfold scorer_output.
  change (ens_score _) with (a * 0.6 + b * 0.4).
  unfold _ensemble_scores. cbn [ens_label _to_score score].
  set (s := a * 0.6 + b * 0.4).
  assert (Hs : s == a * 0.6 + b * 0.4) by reflexivity.
  split; [lra |]. split.
  - intros H0a H0b. split; [lra |].
    destruct (leb_spec 0.05 s); [discriminate |].
    destruct (leb_spec s (-0.05)); [lra | discriminate].
  - intros H0a H0b. split; [lra |].
    destruct (leb_spec 0.05 s); [lra |].
    destruct (leb_spec s (-0.05)); discriminate.
Qed.

Lemma ensemble_score_bounded_witness :
  let r := _ensemble_scores (scorer_output 0.8 Positive) (scorer_output 0.02 Neutral) in
  -1 <= ens_score r <= 1 /\ 0 <= ens_score r /\ ens_label r <> Negative.
Proof.
  intro r.
  destruct (ensemble_score_bounded 0.8 0.02 Positive Neutral) as (H1 & H2 & _); [lra | lra |].
  split; [exact H1 |]. apply H2; lra.
Defined.

(** X2. The confidence never exceeds the magnitude of the ensemble score;
    for scores in [-1, 1] no clamp takes effect and the confidence is
    [|ensemble| * (1 - |a - b| / 2)], that is
    [|a * 0.6 + b * 0.4| * (1 - |a - b| / 2)]. *)
Theorem ensemble_confidence_formula (a b : Q) (la lb : Label) :
  -1 <= a <= 1 -> -1 <= b <= 1 ->
  let r := _ensemble_scores (scorer_output a la) (scorer_output b lb) in
  ens_confidence r == Qabs (ens_score r) * (1 - Qabs (a - b) / 2) /\
  ens_confidence r <= Qabs (ens_score r) /\
  ens_confidence r == Qabs (a * 0.6 + b * 0.4) * (1 - Qabs (a - b) / 2).
Proof.
  intros Ha Hb r. subst r. unfold scorer_output.
  change (ens_score _) with (a * 0.6 + b * 0.4).
  change (ens_confidence _)
    with (py_min (py_abs (a * 0.6 + b * 0.4)
                  * py_max 0.0 (py_min 1.0 (1.0 - py_abs (a - b) / 2))) 1.0).
  pose proof (agreement_in_range a b Ha Hb) as Hagr.
  assert (Hd : 0 <= Qabs (a - b) <= 2) by (split; [apply Qabs_nonneg | apply Qabs_case; intros; lra]).
  assert (He : 0 <= Qabs (a * 0.6 + b * 0.4) <= 1)
    by (split; [apply Qabs_nonneg | apply Qabs_case; intros; lra]).
  unfold py_abs in *.
  set (e := Qabs (a * 0.6 + b * 0.4)) in *. set (d := Qabs (a - b)) in *.
  set (X := py_max 0.0 (py_min 1.0 (1.0 - d / 2))) in *.
  assert (Hx : e * X == e * (1 - d / 2)) by (rewrite Hagr; reflexivity).
  half_as_product.
  assert (Hp : 0 <= e * (1 - d * (1 # 2)) <= e).
  { split; [apply Qmult_le_0_compat; lra |].
    assert (0 <= e * (d * (1 # 2))) by (apply Qmult_le_0_compat; lra). lra. }
  unfold py_min. destruct (ltb_spec 1.0 (e * X)); refine (conj _ (conj _ _)); lra.
Qed.

Lemma ensemble_confidence_formula_witness :
  let r := _ensemble_scores (scorer_output 0.8 Positive) (scorer_output (-0.2) Negative) in
  ens_confidence r == Qabs (ens_score r) * (1 - Qabs (0.8 - (-0.2)) / 2) /\
  ens_confidence r <= Qabs (ens_score r) /\
  ens_confidence r == Qabs (0.8 * 0.6 + (-0.2) * 0.4) * (1 - Qabs (0.8 - (-0.2)) / 2).
Proof. apply (ensemble_confidence_formula 0.8 (-0.2) Positive Negative); lra. Defined.

(** X3. Changing the sign of both scores changes the sign of the ensemble
    score, turns its label into the opposite one and keeps the confidence. *)
Theorem ensemble_sign_symmetry (a b : Q) (la lb la' lb' : Label) :
  let r := _ensemble_scores (scorer_output a la) (scorer_output b lb) in
  let r' := _ensemble_scores (scorer_output (- a) la') (scorer_output (- b) lb') in
  ens_score r' == - ens_score r /\
  ens_label r' = opposite (ens_label r) /\
  ens_confidence r' == ens_confidence r.
Proof.
  intros r r'. subst r r'. unfold scorer_output.
  change (ens_score (_ensemble_scores (VDict {| score := a; label := la |})
                                      (VDict {| score := b; label := lb |})))
    with (a * 0.6 + b * 0.4).
  change (ens_score (_ensemble_scores (VDict {| score := - a; label := la' |})
                                      (VDict {| score := - b; label := lb' |})))
    with (- a * 0.6 + - b * 0.4).
  split; [lra |]. split.
  - unfold _ensemble_scores. cbn [ens_label _to_score score].
    destruct (leb_spec 0.05 (a * 0.6 + b * 0.4)),
             (leb_spec (a * 0.6 + b * 0.4) (-0.05)),
             (leb_spec 0.05 (- a * 0.6 + - b * 0.4)),
             (leb_spec (- a * 0.6 + - b * 0.4) (-0.05));
      try reflexivity; exfalso; lra.
  - unfold _ensemble_scores. cbn [ens_confidence _to_score score]. unfold py_abs.
    apply py_min_compat; [| reflexivity].
    assert (E1 : Qabs (- a * 0.6 + - b * 0.4) == Qabs (a * 0.6 + b * 0.4)).
    { rewrite <- (Qabs_opp (a * 0.6 + b * 0.4)). apply Qabs_wd. lra. }
    assert (E2 : Qabs (- a - - b) == Qabs (a - b)).
    { rewrite <- (Qabs_opp (a - b)). apply Qabs_wd. lra. }
    rewrite E1.
    assert (E3 : py_max 0.0 (py_min 1.0 (1.0 - Qabs (- a - - b) / 2))
                 == py_max 0.0 (py_min 1.0 (1.0 - Qabs (a - b) / 2))).
    { apply py_max_compat; [reflexivity |]. apply py_min_compat; [reflexivity |].
      rewrite E2. reflexivity. }
    rewrite E3. reflexivity.
Qed.

End CombinerFacts.

Module ServiceInvariants.
Import Eff PyNum Spec SpecWords TraceWords NumFacts CombinerFacts Sentiment.
Local Open Scope Q_scope.

Lemma label_at_005 (s : Q) :
  labelled_at_005 s (if leb 0.05 s then Positive
                     else if leb s (-0.05) then Negative else Neutral).
Proof.
  unfold labelled_at_005.
  destruct (leb_spec 0.05 s); [| destruct (leb_spec s (-0.05))];
    repeat split; intros; first [reflexivity | discriminate | assumption | lra | exfalso; lra].
Qed.

Lemma label_at_01 (s : Q) :
  labelled_at_01 s (if ltb 0.1 s then Positive
                    else if ltb s (-0.1) then Negative else Neutral).
Proof.
  unfold labelled_at_01.
  destruct (ltb_spec 0.1 s); [| destruct (ltb_spec s (-0.1))];
    repeat split; intros; first [reflexivity | discriminate | assumption | lra | exfalso; lra].
Qed.

Lemma neutral_at_005 (s : Q) : s == 0 -> labelled_at_005 s Neutral.
Proof. intro H. unfold labelled_at_005. repeat split; intros; first [discriminate | lra | exfalso; lra]. Qed.

Lemma neutral_at_01 (s : Q) : s == 0 -> labelled_at_01 s Neutral.
Proof. intro H. unfold labelled_at_01. repeat split; intros; first [discriminate | lra | exfalso; lra]. Qed.

(** The confidence of the combiner is in [0, 1] for all inputs, also for
    scores outside [-1, 1]. *)
Lemma ens_confidence_bounds (vader textblob : PyVal) :
  0 <= ens_confidence (_ensemble_scores vader textblob) <= 1.
Proof.
  unfold _ensemble_scores. cbn [ens_confidence]. unfold py_abs.
  set (e := Qabs (_to_score vader * 0.6 + _to_score textblob * 0.4)).
  set (x := 1.0 - Qabs (_to_score vader - _to_score textblob) / 2).
  assert (He : 0 <= e) by apply Qabs_nonneg.
  pose proof (py_max_bounds x) as Hx.
  assert (Hp : 0 <= e * py_max 0.0 (py_min 1.0 x)) by (apply Qmult_le_0_compat; lra).
  set (p := e * py_max 0.0 (py_min 1.0 x)) in *.
  unfold py_min. destruct (ltb_spec 1.0 p); lra.
Qed.

Section Backends.
Variable vader_compound : string -> outcome Q.
Variable textblob_polarity : string -> outcome Q.
Variable run_transformers :
  string -> outcome (option TransformerResult * option TransformerResult).

Lemma neutral_result_coherent : coherent_result neutral_result.
Proof.
  unfold coherent_result, neutral_result.
  cbn [vader_score vader_label textblob_score textblob_label ensemble_score
       ensemble_label confidence].
  split; [apply neutral_at_005; reflexivity |].
  split; [apply neutral_at_01; reflexivity |].
  split; [reflexivity |].
  split; [apply neutral_at_005; reflexivity | lra].
Qed.

(** Every run of [analyze] returns, and what it returns is coherent. *)
Lemma analyze_coherent (text : string) :
  exists r,
    value (analyze vader_compound textblob_polarity run_transformers text) = Returned r /\
    coherent_result r.
Proof.
  ServiceFacts.run_service.
  destruct (PyStr.blank text);
    [exists neutral_result; split; [reflexivity | apply neutral_result_coherent] |].
  destruct (vader_compound text) as [a | e]; cbv beta iota;
    [| exists neutral_result; split; [reflexivity | apply neutral_result_coherent]].
  destruct (textblob_polarity text) as [b | e]; cbv beta iota;
    destruct (run_transformers text); cbv beta iota;
    eexists; (split; [reflexivity |]);
    unfold coherent_result;
    cbn [vader_score vader_label textblob_score textblob_label ensemble_score
         ensemble_label confidence score label];
    (split; [apply label_at_005 |]);
    (split; [first [apply label_at_01 | apply neutral_at_01; reflexivity] |]);
    (split; [reflexivity |]);
    (split; [apply label_at_005 | apply ens_confidence_bounds]).
Qed.

End Backends.

(** X4. Whatever the scorers and the transformers do (answer, answer out of
    range, raise), [analyze] returns a result, and in it each label is the
    one its score calls for (VADER and ensemble: >= 0.05 Positive, <= -0.05
    Negative; TextBlob: > 0.1 Positive, < -0.1 Negative), the ensemble score
    is 0.6 * vader_score + 0.4 * textblob_score, and the confidence is in
    [0, 1]. *)
Theorem analyze_always_coherent
    (vader_compound textblob_polarity : string -> outcome Q)
    (run_transformers :
       string -> outcome (option TransformerResult * option TransformerResult))
    (text : string) :
  exists r,
    value (analyze vader_compound textblob_polarity run_transformers text) = Returned r /\
    coherent_result r.
Proof. apply analyze_coherent. Qed.

(** X5. In every result of [analyze], two Positive scorer labels give a
    Positive ensemble label and two Negative ones a Negative one; two Neutral
    ones do not force Neutral: the scores 0.04 and 0.1 are both Neutral and
    their ensemble, 0.064, is Positive. *)
Theorem unanimous_scorers_decide
    (vader_compound textblob_polarity : string -> outcome Q)
    (run_transformers :
       string -> outcome (option TransformerResult * option TransformerResult))
    (text : string) :
  (exists r,
     value (analyze vader_compound textblob_polarity run_transformers text) = Returned r /\
     (vader_label r = Positive -> textblob_label r = Positive ->
      ensemble_label r = Positive) /\
     (vader_label r = Negative -> textblob_label r = Negative ->
      ensemble_label r = Negative)) /\
  (exists r,
     value (analyze (fun _ => Returned 0.04) (fun _ => Returned 0.1)
              run_transformers "fine") = Returned r /\
     vader_label r = Neutral /\ textblob_label r = Neutral /\
     ensemble_label r = Positive).
Proof.
  split.
  - destruct (analyze_coherent vader_compound textblob_polarity run_transformers text)
      as (r & Hr & (Hv1 & Hv2) & (Ht1 & Ht2) & He & (Hl1 & Hl2) & _).
    exists r. split; [exact Hr |]. split.
    + intros Hv Ht. apply Hl1. apply Hv1 in Hv. apply Ht1 in Ht. lra.
    + intros Hv Ht. apply Hl2. apply Hv2 in Hv. apply Ht2 in Ht. lra.
  - ServiceFacts.run_service. simpl.
    destruct (run_transformers "fine"); simpl; eexists; repeat split.
Qed.

(** X6. The order in which [analyze] calls the two scorers: no call at
    all for a blank text; otherwise VADER first, with the text as given;
    when VADER raises, nothing else is called and the error is logged; when
    it answers, TextBlob is called next, once, with the same text, with a
    warning behind it exactly when TextBlob raised; the transformer stage
    comes only after that. *)
Theorem scorer_call_order
    (vader_compound textblob_polarity : string -> outcome Q)
    (run_transformers :
       string -> outcome (option TransformerResult * option TransformerResult))
    (text : string) :
  let tr := trace (analyze vader_compound textblob_polarity run_transformers text) in
  (PyStr.blank text = true -> tr = []) /\
  (forall e, PyStr.blank text = false -> vader_compound text = Raised e ->
     tr = [CallVader text; LogError ("Sentiment analysis failed: " ++ e)]) /\
  (forall a b, PyStr.blank text = false -> vader_compound text = Returned a ->
     textblob_polarity text = Returned b ->
     scorers_then_stage tr [CallVader text; CallTextBlob text]) /\
  (forall a e, PyStr.blank text = false -> vader_compound text = Returned a ->
     textblob_polarity text = Raised e ->
     scorers_then_stage tr
       [CallVader text; CallTextBlob text;
        LogWarning ("TextBlob analysis failed: " ++ e)]).
Proof.
  unfold trace, scorers_then_stage. ServiceFacts.run_service.
  split; [intros ->; reflexivity |].
  split; [intros e -> ->; reflexivity |].
  split.
  - intros a b -> -> ->. simpl. exists [CallTransformers text].
    split; [destruct (run_transformers text); reflexivity |].
    repeat constructor.
  - intros a e -> -> ->. simpl. exists [CallTransformers text].
    split; [destruct (run_transformers text); reflexivity |].
    repeat constructor.
Qed.

Lemma scorer_call_order_witness :
  scorers_then_stage
    (trace (analyze (fun _ => Returned 0.5) (fun _ => Raised "no corpus")
              (fun _ => Raised "no model") "great"))
    [CallVader "great"; CallTextBlob "great";
     LogWarning "TextBlob analysis failed: no corpus"] /\
  trace (analyze (fun _ => Raised "no lexicon") (fun _ => Returned 0.5)
           (fun _ => Raised "no model") "great")
  = [CallVader "great"; LogError "Sentiment analysis failed: no lexicon"].
Proof.
  destruct (scorer_call_order (fun _ => Returned 0.5) (fun _ => Raised "no corpus")
              (fun _ => Raised "no model") "great") as (_ & _ & _ & H).
  destruct (scorer_call_order (fun _ => Raised "no lexicon") (fun _ => Returned 0.5)
              (fun _ => Raised "no model") "great") as (_ & H' & _).
  split.
  - apply (H 0.5 "no corpus"); reflexivity.
  - apply (H' "no lexicon"); reflexivity.
Defined.

Lemma unanimous_scorers_decide_witness :
  exists r,
    value (analyze (fun _ => Returned 0.5) (fun _ => Returned 0.5)
             (fun _ => Returned (None, None)) "great") = Returned r /\
    vader_label r = Positive /\ textblob_label r = Positive /\
    ensemble_label r = Positive.
Proof.
  destruct (unanimous_scorers_decide (fun _ => Returned 0.5) (fun _ => Returned 0.5)
              (fun _ => Returned (None, None)) "great") as [(r & Hr & Hpos & _) _].
  exists r. split; [exact Hr |].
  assert (Hv : vader_label r = Positive)
    by (vm_compute in Hr; injection Hr as <-; reflexivity).
  assert (Ht : textblob_label r = Positive)
    by (vm_compute in Hr; injection Hr as <-; reflexivity).
  split; [exact Hv |]. split; [exact Ht |]. apply Hpos; assumption.
Defined.

End ServiceInvariants.

(** ** Strings as lists of characters *)

Module StringFacts.

Lemma append_nil_r (s : string) : s ++ "" = s.
Proof. induction s as [| c s IH]; simpl; [reflexivity | now rewrite IH]. Qed.

Lemma append_assoc (a b c : string) : (a ++ b) ++ c = a ++ (b ++ c).
Proof. induction a as [| x a IH]; simpl; [reflexivity | now rewrite IH]. Qed.

Lemma length_append (a b : string) :
  String.length (a ++ b) = String.length a + String.length b.
Proof. induction a as [| x a IH]; simpl; [reflexivity | now rewrite IH]. Qed.

Lemma string_of_list_ascii_app (l1 l2 : list ascii) :
  string_of_list_ascii (l1 ++ l2) = string_of_list_ascii l1 ++ string_of_list_ascii l2.
Proof. induction l1 as [| x l1 IH]; simpl; [reflexivity | now rewrite IH]. Qed.

Lemma list_ascii_of_string_app (a b : string) :
  list_ascii_of_string (a ++ b) = (list_ascii_of_string a ++ list_ascii_of_string b)%list.
Proof. induction a as [| x a IH]; simpl; [reflexivity | now rewrite IH]. Qed.

Lemma prefix_append (a b : string) : String.prefix a (a ++ b) = true.
Proof.
  induction a as [| x a IH]; simpl; [destruct b; reflexivity |].
  destruct (ascii_dec x x); [exact IH | congruence].
Qed.

Lemma substring_0_length (n : nat) (s : string) :
  String.length (substring 0 n s) = Nat.min n (String.length s).
Proof.
  revert s. induction n as [| n IH]; intros [| c s]; simpl; try reflexivity.
  now rewrite IH.
Qed.

Lemma substring_0_prefix (n : nat) (s : string) :
  exists rest, s = substring 0 n s ++ rest.
Proof.
  revert s. induction n as [| n IH]; intros [| c s]; simpl.
  - exists "". reflexivity.
  - exists (String c s). reflexivity.
  - exists "". reflexivity.
  - destruct (IH s) as [rest H]. exists rest. now rewrite <- H.
Qed.

End StringFacts.

(** ** More on rounding *)

Module RoundMore.
Import PyNum Spec NumFacts RoundFacts.
Local Open Scope Q_scope.

Lemma ltb_compat (a a' b b' : Q) : a == a' -> b == b' -> ltb a b = ltb a' b'.
Proof.
  intros Ha Hb. destruct (ltb_spec a b), (ltb_spec a' b'); try reflexivity; exfalso; lra.
Qed.

Lemma round_half_even_compat (x y : Q) : x == y -> round_half_even x = round_half_even y.
Proof.
  intro H. unfold round_half_even. rewrite (Qfloor_comp _ _ H).
  rewrite (ltb_compat (x - inject_Z (Qfloor y)) (y - inject_Z (Qfloor y)) (1 # 2) (1 # 2))
    by lra.
  rewrite (ltb_compat (1 # 2) (1 # 2) (x - inject_Z (Qfloor y)) (y - inject_Z (Qfloor y)))
    by lra.
  reflexivity.
Qed.

Lemma round_half_even_floor (x : Q) :
  round_half_even x = Qfloor x \/ round_half_even x = (Qfloor x + 1)%Z.
Proof.
  unfold round_half_even.
  destruct (ltb (x - inject_Z (Qfloor x)) (1 # 2)); [now left |].
  destruct (ltb (1 # 2) (x - inject_Z (Qfloor x))); [now right |].
  destruct (Z.even (Qfloor x)); [now left | now right].
Qed.

(** Rounding keeps the order. *)
Lemma round_half_even_mono (x y : Q) :
  x <= y -> (round_half_even x <= round_half_even y)%Z.
Proof.
  intro H.
  destruct (Z_le_gt_dec (round_half_even x) (round_half_even y)) as [Hle | Hgt];
    [exact Hle | exfalso].
  pose proof (round_half_even_near x) as Hx.
  pose proof (round_half_even_near y) as Hy.
  assert (Hz : (round_half_even y + 1 <= round_half_even x)%Z) by lia.
  rewrite Zle_Qle, inject_Z_plus in Hz. change (inject_Z 1) with 1 in Hz.
  assert (Hxy : x == y).
  { revert Hx Hy. apply Qabs_case; intros ? Hx; apply Qabs_case; intros ? Hy; lra. }
  apply round_half_even_compat in Hxy. lia.
Qed.

Lemma py_round_2_mono (x y : Q) : x <= y -> py_round x 2 <= py_round y 2.
Proof.
  intro H. rewrite !py_round_2_unfold.
  assert (Hm : (round_half_even (x * 100) <= round_half_even (y * 100))%Z)
    by (apply round_half_even_mono; lra).
  rewrite Zle_Qle in Hm.
  unfold Qdiv. change (/ 100) with (1 # 100). lra.
Qed.

Lemma py_round_2_compat (x y : Q) : x == y -> py_round x 2 == py_round y 2.
Proof.
  intro H. rewrite !py_round_2_unfold.
  rewrite (round_half_even_compat (x * 100) (y * 100)) by lra. reflexivity.
Qed.

(** A value within a half of a whole number, and not a tie away from it,
    rounds to it. *)
Lemma round_half_even_to (x : Q) (n : Z) :
  inject_Z n - (1 # 2) < x < inject_Z n + (1 # 2) -> round_half_even x = n.
Proof.
  intros [Hlo Hhi]. pose proof (round_half_even_near x) as Hx.
  destruct (Z.lt_trichotomy (round_half_even x) n) as [Hlt | [Heq | Hgt]];
    [exfalso | exact Heq | exfalso].
  - assert (Hz : (round_half_even x + 1 <= n)%Z) by lia.
    rewrite Zle_Qle, inject_Z_plus in Hz. change (inject_Z 1) with 1 in Hz.
    revert Hx. apply Qabs_case; intros; lra.
  - assert (Hz : (n + 1 <= round_half_even x)%Z) by lia.
    rewrite Zle_Qle, inject_Z_plus in Hz. change (inject_Z 1) with 1 in Hz.
    revert Hx. apply Qabs_case; intros; lra.
Qed.

End RoundMore.

(** ** More on the explanation engine *)

Module ExplanationFacts.
Import PyNum PyStrMore Spec SpecWords NumFacts RoundFacts RoundMore StringFacts
       ExplainableAI Explanation.
Local Open Scope Q_scope.

Lemma capped_bounds (score : Q) : 0 <= py_min (py_abs score * 1.2) 1.0 <= 1.
Proof.
  unfold py_min, py_abs. pose proof (Qabs_nonneg score).
  destruct (ltb_spec 1.0 (Qabs score * 1.2)); lra.
Qed.

Lemma capped_mono (s t : Q) :
  Qabs s <= Qabs t ->
  py_min (py_abs s * 1.2) 1.0 <= py_min (py_abs t * 1.2) 1.0.
Proof.
  intro H. unfold py_min, py_abs.
  destruct (ltb_spec 1.0 (Qabs s * 1.2)), (ltb_spec 1.0 (Qabs t * 1.2)); lra.
Qed.

(** X7. The per-model confidence depends on the magnitude of the score
    only and never falls when the magnitude grows; it is 1 for every
    magnitude from 0.83 up and 0 for every magnitude up to 0.004. *)
Theorem calculate_confidence_shape (s t : Q) :
  _calculate_confidence (- s) == _calculate_confidence s /\
  (Qabs s <= Qabs t -> _calculate_confidence s <= _calculate_confidence t) /\
  (0.83 <= Qabs s -> _calculate_confidence s == 1) /\
  (Qabs s <= 0.004 -> _calculate_confidence s == 0).
Proof.
  unfold _calculate_confidence.
  split; [| split; [| split]].
  - apply py_round_2_compat. unfold py_abs.
    apply CombinerFacts.py_min_compat; [rewrite Qabs_opp; reflexivity | reflexivity].
  - intro H. apply py_round_2_mono, capped_mono, H.
  - intro H. rewrite py_round_2_unfold.
    rewrite (round_half_even_to _ 100); [reflexivity |].
    change (inject_Z 100) with 100.
    unfold py_min, py_abs. destruct (ltb_spec 1.0 (Qabs s * 1.2)); lra.
  - intro H. rewrite py_round_2_unfold.
    rewrite (round_half_even_to _ 0); [reflexivity |].
    change (inject_Z 0) with 0. pose proof (Qabs_nonneg s).
    unfold py_min, py_abs. destruct (ltb_spec 1.0 (Qabs s * 1.2)); lra.
Qed.

Lemma calculate_confidence_shape_witness :
  _calculate_confidence 0.2 <= _calculate_confidence (-0.5) /\
  _calculate_confidence (-0.83) == 1 /\
  _calculate_confidence 0.004 == 0.
Proof.
  split; [| split].
  - destruct (calculate_confidence_shape 0.2 (-0.5)) as (_ & H & _).
    apply H. vm_compute. discriminate.
  - destruct (calculate_confidence_shape (-0.83) 0) as (_ & _ & H & _).
    apply H. vm_compute. discriminate.
  - destruct (calculate_confidence_shape 0.004 0) as (_ & _ & _ & H).
    apply H. vm_compute. discriminate.
Defined.

(** X8. The engine's label of an ensemble score never contradicts the label
    the combiner gave it: a Positive (Negative) engine label comes only with
    a Positive (Negative) combiner label.  The engine may call Neutral what
    the combiner calls Positive, as for the score 0.07. *)
Theorem engine_label_never_contradicts (vader textblob : Sentiment.PyVal) :
  let r := Sentiment._ensemble_scores vader textblob in
  (_score_to_label (Sentiment.ens_score r) = Positive -> Sentiment.ens_label r = Positive) /\
  (_score_to_label (Sentiment.ens_score r) = Negative -> Sentiment.ens_label r = Negative) /\
  (Sentiment.ens_label r = Neutral -> _score_to_label (Sentiment.ens_score r) = Neutral) /\
  (let r7 := Sentiment._ensemble_scores (scorer_output 0.07 Positive)
                                         (scorer_output 0.07 Neutral) in
   Sentiment.ens_label r7 = Positive /\
   _score_to_label (Sentiment.ens_score r7) = Neutral).
Proof.
  intro r. subst r. unfold Sentiment._ensemble_scores.
  cbn [Sentiment.ens_score Sentiment.ens_label].
  set (s := Sentiment._to_score vader * 0.6 + Sentiment._to_score textblob * 0.4).
  unfold _score_to_label.
  destruct (leb_spec 0.05 s), (leb_spec s (-0.05)), (ltb_spec 0.1 s), (ltb_spec s (-0.1));
    repeat split; intros; first [reflexivity | discriminate | exfalso; lra].
Qed.

Lemma engine_label_never_contradicts_witness :
  Sentiment.ens_label (Sentiment._ensemble_scores (scorer_output 0.8 Positive)
                                                   (scorer_output 0.5 Positive))
  = Positive.
Proof.
  destruct (engine_label_never_contradicts (scorer_output 0.8 Positive)
              (scorer_output 0.5 Positive)) as (H & _).
  apply H. vm_compute. reflexivity.
Defined.

Lemma agreement_core_bounds (d : Q) : 0 <= py_max 0 (1 - d / 2) /\ 1 - d / 2 <= py_max 0 (1 - d / 2).
Proof.
  unfold py_max. unfold Qdiv. change (/ 2) with (1 # 2).
  destruct (ltb_spec 0 (1 - d * (1 # 2))); lra.
Qed.

Lemma agreement_core_upper (d : Q) : 0 <= d -> py_max 0 (1 - d / 2) <= 1 - d / 2 \/ 2 <= d.
Proof.
  intro H. unfold py_max. unfold Qdiv. change (/ 2) with (1 # 2).
  destruct (ltb_spec 0 (1 - d * (1 # 2))); [left; lra | right; lra].
Qed.

Lemma py_round_2_unit (x : Q) : 0 <= x <= 1 -> 0 <= py_round x 2 <= 1.
Proof.
  intros [H0 H1]. rewrite py_round_2_unfold.
  assert (Hlo : (0 <= round_half_even (x * 100))%Z)
    by (apply round_half_even_ge; change (inject_Z 0) with 0; lra).
  assert (Hhi : (round_half_even (x * 100) <= 100)%Z)
    by (apply round_half_even_le; change (inject_Z 100) with 100; lra).
  rewrite Zle_Qle in Hlo, Hhi.
  change (inject_Z 0) with 0 in Hlo. change (inject_Z 100) with 100 in Hhi.
  unfold Qdiv. change (/ 100) with (1 # 100). lra.
Qed.

Lemma py_round_2_within (x : Q) : x - 0.005 <= py_round x 2 <= x + 0.005.
Proof.
  pose proof (py_round_2_near x) as H. revert H. apply Qabs_case; intros; lra.
Qed.

(** X9. The agreement score of the confidence metrics is a number of
    hundredths in [0, 1]; the level is "high" above 0.8, "medium" above 0.5
    and "low" otherwise, and the recommendation is always the sentence of
    that level; a message without scores is rated at full agreement. *)
Theorem confidence_metrics_levels (message : MessageDict) :
  let cm := generate_confidence_metrics message in
  let agreement := model_agreement_score cm in
  0 <= agreement <= 1 /\
  two_decimals agreement /\
  (overall_confidence_level cm = "high" <-> 0.8 < agreement) /\
  (overall_confidence_level cm = "medium" <-> 0.5 < agreement <= 0.8) /\
  (overall_confidence_level cm = "low" <-> agreement <= 0.5) /\
  (overall_confidence_level cm = "high" <->
   cm_recommendation cm = "High confidence - reliable sentiment classification") /\
  (overall_confidence_level cm = "medium" <->
   cm_recommendation cm = "Medium confidence - generally reliable with some uncertainty") /\
  (overall_confidence_level cm = "low" <->
   cm_recommendation cm = "Low confidence - consider manual verification for this message") /\
  (m_vader_score message = None -> m_textblob_score message = None ->
   agreement == 1 /\ overall_confidence_level cm = "high").
Proof.
  intros cm agreement. subst agreement cm. unfold generate_confidence_metrics.
  cbn [model_agreement_score overall_confidence_level cm_recommendation].
  unfold _get_recommendation, py_abs.
  set (d := Qabs (get (m_vader_score message) 0 - get (m_textblob_score message) 0)).
  assert (Hd : 0 <= d) by apply Qabs_nonneg.
  destruct (agreement_core_bounds d) as [Hc0 Hc1].
  assert (Hc : py_max 0 (1 - d / 2) <= 1).
  { destruct (agreement_core_upper d Hd) as [H | H].
    - unfold Qdiv in *. change (/ 2) with (1 # 2) in *. lra.
    - unfold py_max. unfold Qdiv. change (/ 2) with (1 # 2).
      destruct (ltb_spec 0 (1 - d * (1 # 2))); lra. }
  split; [apply py_round_2_unit; lra |].
  split; [apply py_round_2_two_decimals |].
  assert (Hnone : m_vader_score message = None -> m_textblob_score message = None ->
                  py_round (py_max 0 (1 - d / 2)) 2 == 1).
  { intros Hv Ht. subst d. rewrite Hv, Ht. vm_compute. reflexivity. }
  set (a := py_round (py_max 0 (1 - d / 2)) 2) in *.
  destruct (ltb_spec 0.8 a) as [H8 | H8]; [| destruct (ltb_spec 0.5 a) as [H5 | H5]];
    repeat split; intros;
    first [reflexivity | discriminate | assumption | lra
          | exfalso; lra
          | apply Hnone; assumption
          | exfalso;
            match goal with
            | Hv : m_vader_score message = None, Ht : m_textblob_score message = None |- _ =>
                pose proof (Hnone Hv Ht); lra
            end
          | match goal with H : _ /\ _ |- _ => destruct H; exfalso; lra end ].
Qed.

Lemma confidence_metrics_levels_witness :
  let cm := generate_confidence_metrics
              {| m_id := None; m_text := None; m_vader_score := None;
                 m_textblob_score := None; m_ensemble_score := None;
                 m_ensemble_label := None |} in
  model_agreement_score cm == 1 /\ overall_confidence_level cm = "high".
Proof.
  intro cm.
  apply (confidence_metrics_levels
           {| m_id := None; m_text := None; m_vader_score := None;
              m_textblob_score := None; m_ensemble_score := None;
              m_ensemble_label := None |}); reflexivity.
Defined.

(** X10. For scores in [-1, 1]: a "low" overall confidence comes only with
    a reported disagreement, of the large-difference kind; and a
    large-difference disagreement is never rated "high". *)
Theorem low_confidence_means_disagreement (message : MessageDict) (v t : Q) :
  m_vader_score message = Some v ->
  m_textblob_score message = Some t ->
  -1 <= v <= 1 -> -1 <= t <= 1 ->
  let cm := generate_confidence_metrics message in
  (overall_confidence_level cm = "low" ->
   exists d, find_disagreements v t = Some d /\
             possible_reason d = REASON_LARGE_DIFFERENCE) /\
  (forall d, find_disagreements v t = Some d ->
             possible_reason d = REASON_LARGE_DIFFERENCE ->
             overall_confidence_level cm <> "high").
Proof.
  intros Hv Ht Rv Rt cm. subst cm. unfold generate_confidence_metrics.
  cbn [overall_confidence_level]. rewrite Hv, Ht. cbn [get]. unfold py_abs.
  set (d := Qabs (v - t)).
  assert (Hd : 0 <= d) by apply Qabs_nonneg.
  destruct (agreement_core_bounds d) as [Hc0 Hc1].
  pose proof (py_round_2_within (py_max 0 (1 - d / 2))) as Hr.
  set (a := py_round (py_max 0 (1 - d / 2)) 2) in *.
  unfold Qdiv in *. change (/ 2) with (1 # 2) in *.
  split.
  - intro Hlow.
    assert (Ha : a <= 0.5).
    { destruct (ltb_spec 0.8 a); [discriminate Hlow |].
      destruct (ltb_spec 0.5 a); [discriminate Hlow | lra]. }
    assert (Hbig : 0.99 <= d) by lra.
    unfold find_disagreements, _explain_disagreement, py_abs. fold d.
    destruct (ltb_spec 0.5 d); [| exfalso; lra].
    destruct (ExplainFacts.Label_eqb_spec (_score_to_label v) (_score_to_label t)) as [E | E].
    + exfalso. revert E Hbig. unfold _score_to_label. subst d.
      destruct (ltb_spec 0.1 v), (ltb_spec v (-0.1)), (ltb_spec 0.1 t), (ltb_spec t (-0.1));
        intro E; try discriminate E; apply Qabs_case; intros; lra.
    + eexists. split; reflexivity.
  - intros dis Hdis Hreason Hhigh.
    unfold find_disagreements in Hdis.
    destruct (Label_eqb (_score_to_label v) (_score_to_label t)); [discriminate Hdis |].
    injection Hdis as <-. cbn [possible_reason] in Hreason.
    unfold _explain_disagreement, py_abs in Hreason. fold d in Hreason.
    destruct (ltb_spec 0.5 d) as [Hlarge | Hsmall].
    + assert (Hx : py_max 0 (1 - d * (1 # 2)) <= 0.75).
      { unfold py_max. destruct (ltb_spec 0 (1 - d * (1 # 2))); lra. }
      destruct (ltb_spec 0.8 a); [lra | destruct (ltb 0.5 a); discriminate Hhigh].
    + symmetry in Hreason. exact (ExplainFacts.reasons_differ Hreason).
Qed.

Lemma low_confidence_means_disagreement_witness :
  exists d, find_disagreements 0.9 (-0.3) = Some d /\
            possible_reason d = REASON_LARGE_DIFFERENCE.
Proof.
  apply (low_confidence_means_disagreement
           {| m_id := None; m_text := None; m_vader_score := Some 0.9;
              m_textblob_score := Some (-0.3); m_ensemble_score := None;
              m_ensemble_label := None |} 0.9 (-0.3) eq_refl eq_refl);
    [lra | lra | vm_compute; reflexivity].
Defined.

Lemma in_firstn {A : Type} (n : nat) (l : list A) (x : A) : In x (firstn n l) -> In x l.
Proof.
  revert l. induction n as [| n IH]; intros [| y l]; simpl; try tauto.
  intros [H | H]; [now left | right; apply IH, H].
Qed.

Lemma unreverse_cons (c : ascii) (cur : string) :
  unreverse (String c cur) = unreverse cur ++ String c "".
Proof.
  unfold unreverse. cbn [list_ascii_of_string rev].
  rewrite string_of_list_ascii_app. reflexivity.
Qed.

(** Every run the tokenizer returns lies in the text. *)
Lemma word_runs_from_in (s : string) :
  forall cur w, In w (word_runs_from cur s) ->
    exists pre post, unreverse cur ++ s = pre ++ w ++ post.
Proof.
  induction s as [| c s IH]; intros cur w Hin.
  - cbn [word_runs_from] in Hin. unfold flush in Hin.
    destruct (PyStr.is_empty cur); [contradiction |].
    destruct Hin as [<- | []]. exists "", "". now rewrite !append_nil_r.
  - cbn [word_runs_from] in Hin. destruct (word_char c).
    + apply IH in Hin as (pre & post & H). exists pre, post.
      rewrite <- H, unreverse_cons, append_assoc. reflexivity.
    + apply in_app_or in Hin as [Hin | Hin].
      * unfold flush in Hin. destruct (PyStr.is_empty cur); [contradiction |].
        destruct Hin as [<- | []]. exists "", (String c s). reflexivity.
      * apply IH in Hin as (pre & post & H). cbn in H.
        exists (unreverse cur ++ String c pre), post.
        rewrite append_assoc. cbn [append]. rewrite <- H. reflexivity.
Qed.

Lemma word_runs_in (s w : string) :
  In w (word_runs s) -> exists pre post, s = pre ++ w ++ post.
Proof. intro H. apply word_runs_from_in in H. exact H. Qed.

(** X11. [extract_important_words] returns at most ten words; each is one
    of the keywords of the category asked for and occurs in the lowercased
    text; an unknown category gives the empty list. *)
Theorem important_words_sound (text sentiment_type : string) :
  let ws := extract_important_words text sentiment_type in
  (List.length ws <= 10)%nat /\
  (forall w, In w ws ->
     (exists keywords, sentiment_keywords sentiment_type = Some keywords /\ In w keywords) /\
     (exists pre post, PyStr.lower text = pre ++ w ++ post)) /\
  (sentiment_keywords sentiment_type = None -> ws = []).
Proof.
  intro ws. subst ws. unfold extract_important_words.
  destruct (sentiment_keywords sentiment_type) as [keywords |].
  - split; [apply firstn_le_length |]. split; [| discriminate].
    intros w Hin. apply in_firstn in Hin. apply filter_In in Hin as [Hin Hkw].
    split.
    + exists keywords. split; [reflexivity |].
      apply existsb_exists in Hkw as (k & Hk & E). apply String.eqb_eq in E.
      subst k. exact Hk.
    + unfold findall_lower_words in Hin. apply filter_In in Hin as [Hin _].
      apply word_runs_in, Hin.
  - split; [simpl; lia |]. split; [intros w [] | reflexivity].
Qed.

Lemma important_words_sound_witness :
  In "love" (extract_important_words "I LOVE it" "positive") /\
  exists pre post, PyStr.lower "I LOVE it" = pre ++ "love" ++ post.
Proof.
  split; [vm_compute; left; reflexivity |].
  destruct (important_words_sound "I LOVE it" "positive") as (_ & H & _).
  destruct (H "love") as [_ Hocc]; [vm_compute; left; reflexivity | exact Hocc].
Defined.

Section Formatting.
Variable format_2f : Q -> string.

(** X12. The parts of a full explanation agree with each other: it reports
    a disagreement exactly when the VADER and TextBlob labels it shows
    differ, and then names those two labels; the confidence of the final
    verdict and of the confidence metrics are the ones shown per model; the
    preview is the start of the text, of at most 100 characters. *)
Theorem full_explanation_coherent (message : MessageDict) :
  let e := generate_full_explanation format_2f message in
  let shown := per_model_analysis e in
  (fe_disagreement e = None <-> pm_label (pm_vader shown) = pm_label (pm_textblob shown)) /\
  (forall d, fe_disagreement e = Some d ->
     vader_says d = pm_label (pm_vader shown) /\
     textblob_says d = pm_label (pm_textblob shown)) /\
  fv_confidence (final_verdict e) = pm_confidence (pm_ensemble shown) /\
  vader_confidence (confidence_metrics e) = pm_confidence (pm_vader shown) /\
  textblob_confidence (confidence_metrics e) = pm_confidence (pm_textblob shown) /\
  ensemble_confidence (confidence_metrics e) = pm_confidence (pm_ensemble shown) /\
  (String.length (text_preview e) <= 100)%nat /\
  (exists rest, get (m_text message) "" = text_preview e ++ rest).
Proof.
  intros e shown. subst shown e. unfold generate_full_explanation.
  cbn [fe_disagreement per_model_analysis final_verdict confidence_metrics text_preview
       fv_confidence].
  unfold generate_per_model_explanation, generate_confidence_metrics.
  cbn [pm_vader pm_textblob pm_ensemble pm_label pm_confidence
       vader_confidence textblob_confidence ensemble_confidence].
  set (v := get (m_vader_score message) 0). set (t := get (m_textblob_score message) 0).
  split; [| split].
  - unfold find_disagreements.
    destruct (ExplainFacts.Label_eqb_spec (_score_to_label v) (_score_to_label t)) as [E | E].
    + split; intros; [exact E | reflexivity].
    + split; intros H; [discriminate H | contradiction].
  - intros d Hd. unfold find_disagreements in Hd.
    destruct (Label_eqb (_score_to_label v) (_score_to_label t)); [discriminate Hd |].
    injection Hd as <-. split; reflexivity.
  - repeat (split; [reflexivity |]).
    destruct (PyStr.is_empty (get (m_text message) "")) eqn:E.
    + split; [simpl; lia |]. exists (get (m_text message) ""). reflexivity.
    + split; [rewrite substring_0_length; apply Nat.le_min_l |].
      apply substring_0_prefix.
Qed.

End Formatting.

Lemma full_explanation_coherent_witness :
  let message :=
    {| m_id := Some "m1"; m_text := Some "great but awful";
       m_vader_score := Some 0.5; m_textblob_score := Some (-0.5);
       m_ensemble_score := Some 0.1; m_ensemble_label := Some "Positive" |} in
  let e := generate_full_explanation (fun _ => "0.00") message in
  exists d,
    fe_disagreement e = Some d /\
    vader_says d = pm_label (pm_vader (per_model_analysis e)) /\
    textblob_says d = pm_label (pm_textblob (per_model_analysis e)).
Proof.
  intros message e.
  destruct (fe_disagreement e) as [d |] eqn:E; [| vm_compute in E; discriminate E].
  exists d. split; [reflexivity |].
  destruct (full_explanation_coherent (fun _ => "0.00") message) as (_ & H & _).
  apply (H d E).
Defined.

End ExplanationFacts.

(** ** More on the line parser *)

Module ParserMore.
Import Spec PyStr Re NLP StripFacts StringFacts ParserFacts ParserWords.

Lemma header_append_to_last (ms : list Message) (suffix : string) :
  map header (append_to_last ms suffix) = map header ms.
Proof.
  induction ms as [| m ms IH]; [reflexivity |].
  cbn [append_to_last]. destruct ms as [| m' ms']; [reflexivity |].
  cbn [map] in *. now rewrite IH.
Qed.

Lemma is_start_not_blank (line : string) : is_start line = true -> blank line = false.
Proof.
  unfold is_start. destruct (match_ START_RE line) as [m |] eqn:E; [| discriminate].
  intros _. apply (start_re_not_blank line m E).
Qed.

Section Parser.
Variable strptime_iso : string -> string -> option string.

(** The three cases of one turn of the loop. *)
Lemma parse_line_blank (st : list Message * list string) (line : string) :
  blank line = true -> parse_line strptime_iso st line = st.
Proof. intro H. destruct st. unfold parse_line. now rewrite H. Qed.

Lemma parse_line_start (ms : list Message) (fl : list string) (line : string) (m : captures) :
  match_ START_RE line = Some m ->
  parse_line strptime_iso (ms, fl) line
  = ((ms ++ [message_of_match strptime_iso m])%list, fl).
Proof.
  intro H. unfold parse_line. now rewrite (start_re_not_blank line m H), H.
Qed.

Lemma parse_line_other (ms : list Message) (fl : list string) (line : string) :
  blank line = false -> match_ START_RE line = None ->
  parse_line strptime_iso (ms, fl) line
  = match ms with
    | [] => ([], (fl ++ [line])%list)
    | _ :: _ => (append_to_last ms (NL ++ strip line), fl)
    end.
Proof. intros Hb Hm. unfold parse_line. rewrite Hb, Hm. now destruct ms. Qed.

(** The loop from any state: headers. *)
Lemma fold_headers (lines : list string) :
  forall ms fl,
    map header (fst (fold_left (parse_line strptime_iso) lines (ms, fl)))
    = (map header ms
       ++ map (fun m => header (message_of_match strptime_iso m)) (starts lines))%list.
Proof.
  induction lines as [| line lines IH]; intros ms fl.
  - simpl. now rewrite app_nil_r.
  - cbn [fold_left starts flat_map].
    destruct (blank line) eqn:Hb.
    + rewrite parse_line_blank by exact Hb.
      destruct (match_ START_RE line) as [m |] eqn:Hm.
      * rewrite (start_re_not_blank line m Hm) in Hb. discriminate Hb.
      * apply IH.
    + destruct (match_ START_RE line) as [m |] eqn:Hm.
      * rewrite (parse_line_start ms fl line m Hm), IH, map_app.
        cbn [map app]. rewrite <- app_assoc. reflexivity.
      * rewrite (parse_line_other ms fl line Hb Hm). destruct ms as [| m0 ms'].
        -- apply IH.
        -- rewrite IH, header_append_to_last. reflexivity.
Qed.

(** X13. The messages are, in order, one for each line that matches
    [START_RE]; timestamp, raw timestamp and sender of a message are those
    computed from the match of its line, whatever lines follow. *)
Theorem messages_follow_start_lines (lines : list string) :
  map header (fst (parse_lines strptime_iso lines))
  = map (fun m => header (message_of_match strptime_iso m)) (starts lines) /\
  List.length (fst (parse_lines strptime_iso lines))
  = List.length (List.filter is_start lines).
Proof.
  assert (H : map header (fst (parse_lines strptime_iso lines))
              = map (fun m => header (message_of_match strptime_iso m)) (starts lines)).
  { unfold parse_lines. rewrite fold_headers. reflexivity. }
  split; [exact H |].
  rewrite <- (length_map header), H, length_map.
  clear H. induction lines as [| line lines IH]; [reflexivity |].
  cbn [starts flat_map List.filter]. unfold is_start at 1.
  destruct (match_ START_RE line); cbn [app List.length]; now rewrite <- IH.
Qed.

(** The loop from any state: failed lines. *)
Lemma fold_failed (lines : list string) :
  forall ms fl,
    snd (fold_left (parse_line strptime_iso) lines (ms, fl))
    = match ms with
      | [] => (fl ++ List.filter not_blank (leading lines))%list
      | _ :: _ => fl
      end.
Proof.
  induction lines as [| line lines IH]; intros ms fl.
  - simpl. destruct ms; [now rewrite app_nil_r | reflexivity].
  - cbn [fold_left leading].
    destruct (blank line) eqn:Hb.
    + rewrite parse_line_blank by exact Hb. rewrite IH.
      destruct ms; [| reflexivity].
      destruct (is_start line) eqn:Hs.
      * apply is_start_not_blank in Hs. congruence.
      * cbn [List.filter]. change (not_blank line) with (negb (blank line)). rewrite Hb. reflexivity.
    + destruct (match_ START_RE line) as [m |] eqn:Hm.
      * rewrite (parse_line_start ms fl line m Hm), IH.
        unfold is_start. rewrite Hm.
        destruct ms; cbn [app]; [now rewrite app_nil_r | reflexivity].
      * rewrite (parse_line_other ms fl line Hb Hm).
        unfold is_start. rewrite Hm. destruct ms as [| m0 ms'].
        -- rewrite IH. cbn [List.filter].
           change (not_blank line) with (negb (blank line)). rewrite Hb.
           cbn [negb]. rewrite <- app_assoc. reflexivity.
        -- rewrite IH.
           destruct (append_to_last (m0 :: ms') (NL ++ strip line)) eqn:E; [| reflexivity].
           exfalso. apply (f_equal (map header)) in E.
           rewrite header_append_to_last in E. discriminate E.
Qed.

(** X14. [failed_lines] holds exactly the non-blank lines that come before
    the first line matching [START_RE], in order and as they were read; once
    a message exists no line is ever recorded as failed. *)
Theorem failed_lines_are_leading (lines : list string) :
  snd (parse_lines strptime_iso lines) = List.filter not_blank (leading lines) /\
  (forall pre post,
     lines = (pre ++ post)%list -> fst (parse_lines strptime_iso pre) <> [] ->
     snd (parse_lines strptime_iso lines) = snd (parse_lines strptime_iso pre)).
Proof.
  split.
  - unfold parse_lines. rewrite fold_failed. reflexivity.
  - intros pre post -> Hne. unfold parse_lines in *. rewrite fold_left_app.
    destruct (fold_left (parse_line strptime_iso) pre ([], [])) as [ms fl].
    cbn [fst snd] in *. rewrite fold_failed. destruct ms; [contradiction | reflexivity].
Qed.

(** X15. Blank lines change nothing: a chat parses as it does with its
    blank lines removed. *)
Theorem blank_lines_ignored (lines : list string) :
  parse_lines strptime_iso (List.filter not_blank lines) = parse_lines strptime_iso lines.
Proof.
  unfold parse_lines. generalize (@nil Message, @nil string).
  induction lines as [| line lines IH]; intro st; [reflexivity |].
  cbn [List.filter fold_left]. change (not_blank line) with (negb (blank line)).
  destruct (blank line) eqn:Hb; cbn [negb].
  - rewrite parse_line_blank by exact Hb. apply IH.
  - cbn [fold_left]. apply IH.
Qed.

Lemma with_body_same (m : Message) : with_body m (message m) = m.
Proof. now destruct m. Qed.

(** The loop over lines that do not match, after a message. *)
Lemma fold_continuations (conts : list string) :
  Forall (fun line => match_ START_RE line = None) conts ->
  forall ms m0 fl,
    fold_left (parse_line strptime_iso) conts ((ms ++ [m0])%list, fl)
    = ((ms ++ [with_body m0 (message m0 ++ continuation conts)])%list, fl).
Proof.
  induction 1 as [| line conts Hm _ IH]; intros ms m0 fl.
  - cbn [fold_left continuation]. now rewrite append_nil_r, with_body_same.
  - cbn [fold_left continuation]. destruct (blank line) eqn:Hb.
    + rewrite parse_line_blank by exact Hb. apply IH.
    + rewrite (parse_line_other _ fl line Hb Hm).
      destruct (ms ++ [m0])%list eqn:E; [destruct ms; discriminate E |].
      rewrite <- E, append_to_last_snoc.
      change {| timestamp := timestamp m0; raw_timestamp := raw_timestamp m0;
                sender := sender m0; message := message m0 ++ NL ++ strip line |}
        with (with_body m0 (message m0 ++ NL ++ strip line)).
      rewrite IH. unfold with_body. cbn [timestamp raw_timestamp sender message].
      rewrite !append_assoc. reflexivity.
Qed.

(** X16. A line that matches, followed by lines that do not, gives one
    message: the one of the match, whose body is followed by a line feed and
    the stripped text of each following line that is not blank. *)
Theorem message_with_continuations
    (pre conts : list string) (line : string) (m : captures) :
  match_ START_RE line = Some m ->
  Forall (fun l => match_ START_RE l = None) conts ->
  let msg := message_of_match strptime_iso m in
  parse_lines strptime_iso (pre ++ line :: conts)
  = ((fst (parse_lines strptime_iso pre)
      ++ [with_body msg (message msg ++ continuation conts)])%list,
     snd (parse_lines strptime_iso pre)).
Proof.
  intros Hm Hc msg. unfold parse_lines. rewrite fold_left_app.
  destruct (fold_left (parse_line strptime_iso) pre ([], [])) as [ms fl].
  cbn [fold_left fst snd]. rewrite (parse_line_start ms fl line m Hm).
  apply fold_continuations, Hc.
Qed.

End Parser.

Lemma failed_lines_are_leading_witness :
  snd (parse_lines (fun _ _ => None)
         (["note"; "8/15/2024, 10:30 PM - Alice: Hello"] ++ ["world"]))
  = snd (parse_lines (fun _ _ => None) ["note"; "8/15/2024, 10:30 PM - Alice: Hello"]).
Proof.
  destruct (failed_lines_are_leading (fun _ _ => None)
              (["note"; "8/15/2024, 10:30 PM - Alice: Hello"] ++ ["world"])) as [_ H].
  apply (H ["note"; "8/15/2024, 10:30 PM - Alice: Hello"] ["world"] eq_refl).
  vm_compute. discriminate.
Defined.

Lemma message_with_continuations_witness :
  parse_lines (fun _ _ => None)
    ([] ++ "8/15/2024, 10:30 PM - Alice: Hello" :: ["  "; " how are"; "you? "])
  = ([{| timestamp := "8/15/2024, 10:30 PM";
         raw_timestamp := "8/15/2024, 10:30 PM";
         sender := "Alice";
         message := "Hello" ++ NL ++ "how are" ++ NL ++ "you?" |}], []).
Proof.
  apply (message_with_continuations (fun _ _ => None) []
           ["  "; " how are"; "you? "] "8/15/2024, 10:30 PM - Alice: Hello"
           [("message", "Hello"); ("sender", "Alice");
            ("time", "10:30 PM"); ("date", "8/15/2024")]).
  - vm_compute. reflexivity.
  - repeat constructor.
Defined.

End ParserMore.

(** ** What the parser leaves in a message *)

Module ParserInvariants.
Import Spec PyStr PyStrMore Re NLP StripFacts StringFacts ParserFacts ParserWords ParserMore.

Lemma rstrip_cons (c : ascii) (s : string) :
  rstrip (String c s)
  = match rstrip s with
    | EmptyString => if isspace c then EmptyString else String c EmptyString
    | r => String c r
    end.
Proof. reflexivity. Qed.

Lemma rstrip_idem (s : string) : rstrip (rstrip s) = rstrip s.
Proof.
  induction s as [| c s IH]; [reflexivity |].
  rewrite rstrip_cons. destruct (rstrip s) as [| d r] eqn:E.
  - destruct (isspace c) eqn:Hc; [reflexivity |].
    rewrite rstrip_cons. cbn [rstrip]. now rewrite Hc.
  - rewrite rstrip_cons, IH. reflexivity.
Qed.

Lemma rstrip_app (a b : string) : rstrip b <> "" -> rstrip (a ++ b) = a ++ rstrip b.
Proof.
  intro H. induction a as [| c a IH]; [reflexivity |].
  cbn [append]. rewrite rstrip_cons, IH.
  destruct (a ++ rstrip b) eqn:E; [| reflexivity].
  destruct a; [cbn in E; contradiction | discriminate E].
Qed.

Lemma lstrip_fixed (s : string) :
  match s with EmptyString => True | String c _ => isspace c = false end -> lstrip s = s.
Proof. destruct s as [| c s]; [reflexivity |]. simpl. now intros ->. Qed.

Lemma lstrip_head (s : string) :
  match lstrip s with EmptyString => True | String c _ => isspace c = false end.
Proof.
  induction s as [| c s IH]; [exact I |].
  simpl. destruct (isspace c) eqn:Hc; [exact IH | exact Hc].
Qed.

Lemma rstrip_head (s : string) :
  match s with EmptyString => True | String c _ => isspace c = false end ->
  match rstrip s with EmptyString => True | String c _ => isspace c = false end.
Proof.
  destruct s as [| c s]; [intros _; exact I |].
  intro Hc. rewrite rstrip_cons. destruct (rstrip s); [rewrite Hc |]; exact Hc.
Qed.

(** Stripping twice is stripping once. *)
Lemma strip_idem (s : string) : strip (strip s) = strip s.
Proof.
  unfold strip. rewrite (lstrip_fixed (rstrip (lstrip s))).
  - apply rstrip_idem.
  - apply rstrip_head, lstrip_head.
Qed.

Lemma rstrip_strip (s : string) : rstrip (strip s) = strip s.
Proof. unfold strip. apply rstrip_idem. Qed.

Lemma all_chars_lstrip (p : ascii -> bool) (s : string) :
  all_chars p s = true -> all_chars p (lstrip s) = true.
Proof.
  induction s as [| c s IH]; [reflexivity |].
  intro H. simpl. destruct (isspace c); [| exact H].
  simpl in H. apply andb_prop in H as [_ H]. apply IH, H.
Qed.

Lemma all_chars_rstrip (p : ascii -> bool) (s : string) :
  all_chars p s = true -> all_chars p (rstrip s) = true.
Proof.
  induction s as [| c s IH]; [reflexivity |].
  intro H. simpl in H. apply andb_prop in H as [Hc H].
  rewrite rstrip_cons. specialize (IH H).
  destruct (rstrip s); [destruct (isspace c); simpl; [reflexivity | now rewrite Hc] |].
  simpl. simpl in IH. now rewrite Hc, IH.
Qed.

Lemma all_chars_filter (p : ascii -> bool) (s : string) :
  all_chars p (PyStr.filter p s) = true.
Proof.
  induction s as [| c s IH]; [reflexivity |].
  simpl. destruct (p c) eqn:Hc; [simpl; now rewrite Hc | exact IH].
Qed.

Lemma continuation_suffix (line : string) :
  blank line = false -> rstrip (NL ++ strip line) = NL ++ strip line.
Proof.
  intro Hb. rewrite rstrip_app; rewrite rstrip_strip; [reflexivity |].
  unfold blank in Hb. destruct (strip line); [discriminate Hb | discriminate].
Qed.

Lemma Forall_append_to_last (P : Message -> Prop) (ms : list Message) (suffix : string) :
  (forall m, P m -> P (with_body m (message m ++ suffix))) ->
  Forall P ms -> Forall P (append_to_last ms suffix).
Proof.
  intros Hstep H. induction H as [| m ms Hm Hms IH]; [constructor |].
  cbn [append_to_last]. destruct ms as [| m' ms'].
  - constructor; [apply (Hstep m Hm) | constructor].
  - constructor; [exact Hm | exact IH].
Qed.

Section Parser.
Variable strptime_iso : string -> string -> option string.

(** What holds of a message built from a match. *)
Lemma message_of_match_clean (m : captures) :
  clean_sender (sender (message_of_match strptime_iso m)) /\
  rstrip (message (message_of_match strptime_iso m)) = message (message_of_match strptime_iso m).
Proof.
  unfold message_of_match. cbn [sender message]. split; [| apply rstrip_strip].
  destruct (is_system_message _ _); [now left | right].
  split; [| apply strip_idem].
  unfold strip at 1. apply all_chars_rstrip, all_chars_lstrip, all_chars_filter.
Qed.

(** The loop keeps the two properties. *)
Lemma fold_clean (lines : list string) :
  forall ms fl,
    Forall (fun m => clean_sender (sender m) /\ rstrip (message m) = message m) ms ->
    Forall (fun m => clean_sender (sender m) /\ rstrip (message m) = message m)
           (fst (fold_left (parse_line strptime_iso) lines (ms, fl))).
Proof.
  induction lines as [| line lines IH]; intros ms fl H; [exact H |].
  cbn [fold_left]. destruct (blank line) eqn:Hb.
  - rewrite parse_line_blank by exact Hb. apply IH, H.
  - destruct (match_ START_RE line) as [m |] eqn:Hm.
    + rewrite (parse_line_start strptime_iso ms fl line m Hm). apply IH.
      apply Forall_app. split; [exact H |].
      constructor; [apply message_of_match_clean | constructor].
    + rewrite (parse_line_other strptime_iso ms fl line Hb Hm).
      destruct ms as [| m0 ms']; [apply IH; constructor |].
      apply IH. apply Forall_append_to_last; [| exact H].
      intros m1 [Hs Hbody]. unfold with_body. cbn [sender message].
      split; [exact Hs |].
      rewrite rstrip_app; rewrite (continuation_suffix line Hb); [reflexivity |].
      discriminate.
Qed.

(** X17. In every parsed message the sender is "System" or a name of
    printable characters with no whitespace at either end, and the body does
    not end in whitespace, continuation lines included. *)
Theorem parsed_messages_are_trimmed (lines : list string) :
  Forall (fun m => clean_sender (sender m) /\ rstrip (message m) = message m)
         (fst (parse_lines strptime_iso lines)).
Proof. unfold parse_lines. apply fold_clean. constructor. Qed.

Lemma normalize_timestamp_first (value : string) (fmts : list string) :
  first_parse strptime_iso fmts value (normalize_timestamp strptime_iso value fmts value).
Proof.
  unfold first_parse. induction fmts as [| fmt fmts IH]; cbn [normalize_timestamp].
  - left. split; [constructor | reflexivity].
  - destruct (strptime_iso value fmt) as [iso |] eqn:E.
    + right. exists [], fmt, fmts. repeat split; [constructor | exact E].
    + destruct IH as [[Hall ->] | (before & f & after & -> & Hb & Hf)].
      * left. split; [constructor; assumption | reflexivity].
      * right. exists (fmt :: before), f, after.
        repeat split; [constructor; assumption | exact Hf].
Qed.

(** A property of headers that holds for every match holds for every
    message. *)
Lemma Forall_headers (P : string * string * string -> Prop) (lines : list string) :
  (forall m, P (header (message_of_match strptime_iso m))) ->
  Forall (fun msg => P (header msg)) (fst (parse_lines strptime_iso lines)).
Proof.
  intro H. apply Forall_map. unfold parse_lines.
  rewrite (fold_headers strptime_iso lines [] []). cbn [map app].
  apply Forall_map, Forall_forall. intros m _. apply H.
Qed.

(** X18. The timestamp of every parsed message is what the first of the
    five formats that parses its raw "date, time" text gives, and that raw
    text itself when none parses; a timestamp that cannot be normalised is
    never an error. *)
Theorem timestamps_first_format (lines : list string) :
  Forall (fun msg => first_parse strptime_iso TIMESTAMP_FORMATS
                       (raw_timestamp msg) (timestamp msg))
         (fst (parse_lines strptime_iso lines)) /\
  ((forall value fmt, strptime_iso value fmt = None) ->
   Forall (fun msg => timestamp msg = raw_timestamp msg)
          (fst (parse_lines strptime_iso lines))).
Proof.
  split.
  - apply (Forall_headers
             (fun h => first_parse strptime_iso TIMESTAMP_FORMATS (snd (fst h)) (fst (fst h)))).
    intro m. unfold message_of_match, header.
    cbn [fst snd timestamp raw_timestamp]. apply normalize_timestamp_first.
  - intro Hnone.
    apply (Forall_headers (fun h => fst (fst h) = snd (fst h))).
    intro m. unfold message_of_match, header. cbn [fst snd timestamp raw_timestamp].
    generalize TIMESTAMP_FORMATS. intro fmts.
    induction fmts as [| f fmts IH]; cbn [normalize_timestamp]; [reflexivity |].
    rewrite Hnone. exact IH.
Qed.

End Parser.

Lemma timestamps_first_format_witness :
  Forall (fun msg => timestamp msg = raw_timestamp msg)
         (fst (parse_lines (fun _ _ => None) ["8/15/2024, 25:99 - Alice: Hello"])).
Proof.
  apply (timestamps_first_format (fun _ _ => None) ["8/15/2024, 25:99 - Alice: Hello"]).
  reflexivity.
Defined.

End ParserInvariants.

(** ** The matcher finds only what the pattern says *)

Module ReFacts.
Import PyStr PyStrMore Re ReWords StringFacts.

Lemma within_step (hi : option nat) (n : nat) :
  can_take hi = true -> within (one_less hi) n -> within hi (S n).
Proof.
  destruct hi as [[| h] |]; simpl; try discriminate; intros _ H; [lia | exact I].
Qed.

Lemma rep_greedy_sound {R : Type} (p : ascii -> bool) (s : string) :
  forall lo hi (k : string -> option R) x,
    rep_greedy p lo hi s k = Some x ->
    exists w s', s = w ++ s' /\ all_chars p w = true /\
                 lo <= String.length w /\ within hi (String.length w) /\
                 k s' = Some x.
Proof.
  assert (Hstop : forall lo hi (k : string -> option R) x t,
             (if Nat.eqb lo 0 then k t else None) = Some x ->
             exists w s', t = w ++ s' /\ all_chars p w = true /\
                          lo <= String.length w /\ within hi (String.length w) /\
                          k s' = Some x).
  { intros lo hi k x t H. destruct (Nat.eqb_spec lo 0) as [-> | _]; [| discriminate H].
    exists "", t. repeat split; [simpl; lia | destruct hi; simpl; [lia | exact I] | exact H]. }
  induction s as [| c s IH]; intros lo hi k x H.
  - cbn [rep_greedy] in H. apply Hstop, H.
  - cbn [rep_greedy] in H.
    destruct (p c && can_take hi) eqn:E; [| apply Hstop, H].
    apply andb_prop in E as [Hc Ht].
    destruct (rep_greedy p (Nat.pred lo) (one_less hi) s k) as [y |] eqn:Er;
      [| apply Hstop, H].
    injection H as <-.
    apply IH in Er as (w & s' & -> & Hw & Hlo & Hhi & Hk).
    exists (String c w), s'. cbn [append all_chars String.length].
    rewrite Hc, Hw. repeat split; [lia | apply within_step; assumption | exact Hk].
Qed.

Lemma rep_lazy_sound {R : Type} (p : ascii -> bool) (s : string) :
  forall lo hi (k : string -> option R) x,
    rep_lazy p lo hi s k = Some x ->
    exists w s', s = w ++ s' /\ all_chars p w = true /\
                 lo <= String.length w /\ within hi (String.length w) /\
                 k s' = Some x.
Proof.
  induction s as [| c s IH]; intros lo hi k x H.
  - cbn [rep_lazy] in H. destruct (Nat.eqb_spec lo 0) as [-> | _]; [| discriminate H].
    destruct (k "") eqn:Ek; [| discriminate H]. injection H as <-.
    exists "", "". repeat split; [simpl; lia | destruct hi; simpl; [lia | exact I] | exact Ek].
  - cbn [rep_lazy] in H.
    assert (Hmore : (if p c && can_take hi
                     then rep_lazy p (Nat.pred lo) (one_less hi) s k else None) = Some x ->
                    exists w s', String c s = w ++ s' /\ all_chars p w = true /\
                                 lo <= String.length w /\ within hi (String.length w) /\
                                 k s' = Some x).
    { intro Hm. destruct (p c && can_take hi) eqn:E; [| discriminate Hm].
      apply andb_prop in E as [Hc Ht].
      apply IH in Hm as (w & s' & -> & Hw & Hlo & Hhi & Hk).
      exists (String c w), s'. cbn [append all_chars String.length].
      rewrite Hc, Hw. repeat split; [lia | apply within_step; assumption | exact Hk]. }
    destruct (Nat.eqb_spec lo 0) as [-> | _]; [| apply Hmore, H].
    destruct (k (String c s)) eqn:Ek; [| apply Hmore, H].
    injection H as <-.
    exists "", (String c s).
    repeat split; [simpl; lia | destruct hi; simpl; [lia | exact I] | exact Ek].
Qed.

Lemma consumed_app (w s' : string) : consumed (w ++ s') s' = w.
Proof.
  unfold consumed. rewrite length_append.
  replace (String.length w + String.length s' - String.length s') with (String.length w) by lia.
  induction w as [| c w IH]; cbn [append String.length substring].
  - destruct s'; reflexivity.
  - now rewrite IH.
Qed.

(** A successful match consumed a word of the pattern and went on with the
    rest of the text. *)
Lemma rmatch_sound {R : Type} (r : regex) :
  forall s caps (k : string -> captures -> option R) x,
    rmatch r s caps k = Some x ->
    exists w s' caps', s = w ++ s' /\ denotes r w caps caps' /\ k s' caps' = Some x.
Proof.
  induction r as [p | r1 IH1 r2 IH2 | r1 IH1 r2 IH2 | greedy lo hi p | r IH | name r IH];
    intros s caps k x H; cbn [rmatch] in H.
  - destruct s as [| c s]; [discriminate H |].
    destruct (p c) eqn:Hc; [| discriminate H].
    exists (String c ""), s, caps. repeat split; [| exact H].
    exists c. repeat split. exact Hc.
  - apply IH1 in H as (w1 & s1 & mid & -> & H1 & H).
    apply IH2 in H as (w2 & s2 & caps' & -> & H2 & H).
    exists (w1 ++ w2), s2, caps'. rewrite append_assoc.
    repeat split; [| exact H]. exists w1, w2, mid. repeat split; assumption.
  - destruct (rmatch r1 s caps k) as [y |] eqn:E.
    + injection H as <-. apply IH1 in E as (w & s' & caps' & -> & Hd & Hk).
      exists w, s', caps'. repeat split; [left; exact Hd | exact Hk].
    + apply IH2 in H as (w & s' & caps' & -> & Hd & Hk).
      exists w, s', caps'. repeat split; [right; exact Hd | exact Hk].
  - assert (Hs : exists w s', s = w ++ s' /\ all_chars p w = true /\
                              lo <= String.length w /\ within hi (String.length w) /\
                              k s' caps = Some x).
    { destruct greedy; [apply rep_greedy_sound in H | apply rep_lazy_sound in H]; exact H. }
    destruct Hs as (w & s' & -> & Hw & Hlo & Hhi & Hk).
    exists w, s', caps. repeat split; assumption.
  - destruct (rmatch r s caps k) as [y |] eqn:E.
    + injection H as <-. apply IH in E as (w & s' & caps' & -> & Hd & Hk).
      exists w, s', caps'. repeat split; [right; exact Hd | exact Hk].
    + exists "", s, caps. repeat split; [left; split; reflexivity | exact H].
  - apply IH in H as (w & s' & mid & -> & Hd & Hk).
    rewrite consumed_app in Hk.
    exists w, s', ((name, w) :: mid). repeat split; [| exact Hk].
    exists mid. split; [exact Hd | reflexivity].
Qed.

(** A pattern without groups leaves the groups as they are. *)
Lemma denotes_groupless (r : regex) :
  groupless r = true ->
  forall w caps caps', denotes r w caps caps' -> caps' = caps.
Proof.
  induction r as [p | r1 IH1 r2 IH2 | r1 IH1 r2 IH2 | greedy lo hi p | r IH | name r IH];
    cbn [groupless denotes]; intros Hg w caps caps' H.
  - destruct H as (c & _ & _ & ->). reflexivity.
  - apply andb_prop in Hg as [G1 G2]. destruct H as (w1 & w2 & mid & _ & H1 & H2).
    apply (IH1 G1) in H1. apply (IH2 G2) in H2. congruence.
  - apply andb_prop in Hg as [G1 G2].
    destruct H as [H | H]; [apply (IH1 G1) in H | apply (IH2 G2) in H]; exact H.
  - destruct H as (_ & _ & _ & ->). reflexivity.
  - destruct H as [[_ ->] | H]; [reflexivity | apply (IH Hg) in H; exact H].
  - discriminate Hg.
Qed.

(** A greedy star before a continuation that always succeeds takes every
    character it can. *)
Lemma rep_greedy_all {R : Type} (p : ascii -> bool) (s : string) (k : string -> R) (x : R) :
  rep_greedy p 0 None s (fun s' => Some (k s')) = Some x ->
  exists w s', s = w ++ s' /\ all_chars p w = true /\ x = k s' /\
               match s' with EmptyString => True | String c _ => p c = false end.
Proof.
  induction s as [| c s IH]; cbn [rep_greedy Nat.eqb Nat.pred one_less option_map can_take].
  - intro H. injection H as <-. exists "", "". repeat split.
  - destruct (p c) eqn:Hc; cbn [andb].
    + destruct (rep_greedy p 0 None s (fun s' => Some (k s'))) as [y |] eqn:E.
      * intro H. injection H as <-. destruct (IH eq_refl) as (w & s' & -> & Hw & -> & Hs).
        exists (String c w), s'. cbn [append all_chars]. rewrite Hc, Hw. repeat split. exact Hs.
      * exfalso. clear IH. revert E. generalize s. intro t.
        induction t as [| d t IHt]; cbn [rep_greedy Nat.eqb Nat.pred one_less option_map can_take];
          [discriminate |].
        destruct (p d); cbn [andb]; [| discriminate].
        destruct (rep_greedy p 0 None t (fun s' => Some (k s'))); [discriminate |].
        discriminate.
    + intro H. injection H as <-. exists "", (String c s). repeat split. exact Hc.
Qed.

End ReFacts.

(** ** The lines of a text *)

Module SplitFacts.
Import PyStr PyStrMore StringFacts ParserWords.

Lemma all_chars_forallb (p : ascii -> bool) (s : string) :
  all_chars p s = forallb p (list_ascii_of_string s).
Proof. induction s as [| c s IH]; [reflexivity |]. simpl. now rewrite IH. Qed.

Lemma forallb_rev {A : Type} (p : A -> bool) (l : list A) :
  forallb p (rev l) = forallb p l.
Proof.
  induction l as [| x l IH]; [reflexivity |].
  simpl. rewrite forallb_app, IH. simpl. rewrite andb_true_r. apply andb_comm.
Qed.

Lemma all_chars_unreverse (p : ascii -> bool) (cur : string) :
  all_chars p (string_of_list_ascii (rev (list_ascii_of_string cur))) = all_chars p cur.
Proof.
  rewrite !all_chars_forallb, list_ascii_of_string_of_list_ascii. apply forallb_rev.
Qed.

Lemma splitlines_from_no_break (n : nat) :
  forall s cur, String.length s <= n -> all_chars no_break cur = true ->
    Forall (fun line => all_chars no_break line = true) (splitlines_from cur s).
Proof.
  induction n as [| n IH]; intros s cur Hn Hcur.
  - destruct s; [| simpl in Hn; lia]. cbn [splitlines_from].
    destruct (is_empty cur); constructor; [| constructor].
    now rewrite all_chars_unreverse.
  - destruct s as [| c s]; cbn [splitlines_from].
    + destruct (is_empty cur); constructor; [| constructor].
      now rewrite all_chars_unreverse.
    + simpl in Hn. destruct (is_linebreak c) eqn:Hc.
      * constructor; [now rewrite all_chars_unreverse |].
        destruct s as [| c' s']; [constructor |].
        destruct (Ascii.eqb c CR && Ascii.eqb c' LF).
        -- apply IH; [simpl in Hn; lia | reflexivity].
        -- apply IH; [lia | reflexivity].
      * apply IH; [lia |]. cbn [all_chars]. unfold no_break at 1. now rewrite Hc.
Qed.

(** No line of [s.splitlines()] holds a line break. *)
Lemma splitlines_no_break (s : string) :
  Forall (fun line => all_chars no_break line = true) (splitlines s).
Proof. apply (splitlines_from_no_break (String.length s)); [lia | reflexivity]. Qed.

Lemma no_break_no_newline (line : string) :
  all_chars no_break line = true -> all_chars Re.any_but_newline line = true.
Proof.
  induction line as [| c line IH]; [reflexivity |].
  cbn [all_chars]. intro H. apply andb_prop in H as [Hc H]. rewrite (IH H), andb_true_r.
  unfold Re.any_but_newline, Re.not_char.
  destruct (Ascii.eqb_spec LF c) as [<- | _]; [discriminate Hc | reflexivity].
Qed.

End SplitFacts.

(** ** The shape of a line that starts a message *)

Module StartLine.
Import PyStr PyStrMore Re ReWords NLP StringFacts ReFacts.

Lemma rmatch_cat_sound {R : Type} (r1 r2 : regex) (s : string) (caps : captures)
    (k : string -> captures -> option R) (x : R) :
  rmatch (Cat r1 r2) s caps k = Some x ->
  exists w s' mid, s = w ++ s' /\ denotes r1 w caps mid /\ rmatch r2 s' mid k = Some x.
Proof. intro H. apply (rmatch_sound r1 s caps _ x H). Qed.

Lemma denotes_group_groupless (name : string) (r : regex) (w : string) (caps caps' : captures) :
  groupless r = true -> denotes (Group name r) w caps caps' -> caps' = (name, w) :: caps.
Proof.
  intros Hg (mid & Hd & ->). apply (denotes_groupless r Hg) in Hd. now subst.
Qed.

Lemma denotes_char (c : ascii) (w : string) (caps caps' : captures) :
  denotes (Chr (is_char c)) w caps caps' -> w = String c "" /\ caps' = caps.
Proof.
  intros (d & -> & Hd & ->). unfold is_char in Hd. apply Ascii.eqb_eq in Hd. now subst.
Qed.

Lemma denotes_star (p : ascii -> bool) (w : string) (caps caps' : captures) :
  denotes (star p) w caps caps' -> all_chars p w = true /\ caps' = caps.
Proof. intros (H & _ & _ & ->). now split. Qed.

Lemma all_chars_app (p : ascii -> bool) (a b : string) :
  all_chars p (a ++ b) = all_chars p a && all_chars p b.
Proof.
  induction a as [| c a IH]; [reflexivity |].
  cbn [append all_chars]. now rewrite IH, andb_assoc.
Qed.

(** X19. A line that matches [START_RE] reads: date, an optional comma,
    whitespace, time, whitespace, a dash, whitespace, sender, a colon,
    whitespace, message.  The four groups are these parts; the sender is not
    empty and holds no colon, so the line is split at the first colon after
    the dash, however many colons the message has; the message holds no line
    feed and runs to the end of a line that has none. *)
Theorem start_line_structure (line : string) (m : captures) :
  match_ START_RE line = Some m ->
  exists date comma ws1 time ws2 ws3 sender ws4 msg rest,
    line = date ++ comma ++ ws1 ++ time ++ ws2 ++ "-" ++ ws3
           ++ sender ++ ":" ++ ws4 ++ msg ++ rest /\
    m = [("message", msg); ("sender", sender); ("time", time); ("date", date)] /\
    (comma = "" \/ comma = ",") /\
    all_chars space ws1 = true /\ all_chars space ws2 = true /\
    all_chars space ws3 = true /\ all_chars space ws4 = true /\
    sender <> "" /\ all_chars (not_char ":") sender = true /\
    all_chars any_but_newline msg = true /\
    (all_chars any_but_newline line = true -> rest = "") /\
    (forall content, In line (splitlines content) -> rest = "").
Proof.
  unfold match_, START_RE. intro H.
  apply rmatch_cat_sound in H as (date & s1 & c1 & -> & Hdate & H).
  apply denotes_group_groupless in Hdate; [| reflexivity]. subst c1.
  apply rmatch_cat_sound in H as (comma & s2 & c2 & -> & Hcomma & H).
  destruct Hcomma as (Hcomma & _ & Hlen & ->).
  apply rmatch_cat_sound in H as (ws1 & s3 & c3 & -> & Hws1 & H).
  apply denotes_star in Hws1 as [Hws1 ->].
  apply rmatch_cat_sound in H as (time & s4 & c4 & -> & Htime & H).
  apply denotes_group_groupless in Htime; [| reflexivity]. subst c4.
  apply rmatch_cat_sound in H as (ws2 & s5 & c5 & -> & Hws2 & H).
  apply denotes_star in Hws2 as [Hws2 ->].
  apply rmatch_cat_sound in H as (dash & s6 & c6 & -> & Hdash & H).
  apply denotes_char in Hdash as [-> ->].
  apply rmatch_cat_sound in H as (ws3 & s7 & c7 & -> & Hws3 & H).
  apply denotes_star in Hws3 as [Hws3 ->].
  apply rmatch_cat_sound in H as (sender & s8 & c8 & -> & Hsender & H).
  destruct Hsender as (mid & (Hsender & Hne & _ & ->) & ->).
  apply rmatch_cat_sound in H as (colon & s9 & c9 & -> & Hcolon & H).
  apply denotes_char in Hcolon as [-> ->].
  apply rmatch_cat_sound in H as (ws4 & s10 & c10 & -> & Hws4 & H).
  apply denotes_star in Hws4 as [Hws4 ->].
  cbn [rmatch star] in H.
  apply (rep_greedy_all any_but_newline s10
           (fun s' => ("message", consumed s10 s')
                      :: [("sender", sender); ("time", time); ("date", date)])) in H
    as (msg & rest & -> & Hmsg & -> & Hrest).
  rewrite consumed_app.
  exists date, comma, ws1, time, ws2, ws3, sender, ws4, msg, rest.
  split; [reflexivity |]. split; [reflexivity |].
  split.
  { destruct comma as [| c [| d comma']]; [now left | right | simpl in Hlen; lia].
    cbn [all_chars] in Hcomma. rewrite andb_true_r in Hcomma.
    unfold is_char in Hcomma. apply Ascii.eqb_eq in Hcomma. now subst. }
  repeat (split; [assumption |]).
  split; [intros ->; simpl in Hne; lia |].
  split; [exact Hsender |]. split; [exact Hmsg |].
  assert (Hend : all_chars any_but_newline
                   (date ++ comma ++ ws1 ++ time ++ ws2 ++ "-" ++ ws3
                    ++ sender ++ ":" ++ ws4 ++ msg ++ rest) = true -> rest = "").
  { intro Hline. rewrite !all_chars_app in Hline.
    repeat (apply andb_prop in Hline as [_ Hline]).
    destruct rest as [| c rest']; [reflexivity |].
    simpl in Hline. rewrite Hrest in Hline. discriminate Hline. }
  split; [exact Hend |].
  intros content Hin. apply Hend, SplitFacts.no_break_no_newline.
  pose proof (SplitFacts.splitlines_no_break content) as Hall.
  rewrite Forall_forall in Hall. apply Hall, Hin.
Qed.

Lemma start_line_structure_witness :
  exists date comma ws1 time ws2 ws3 sender ws4 msg rest,
    "8/15/2024, 10:30 PM - Bob: see: 10:45"
    = date ++ comma ++ ws1 ++ time ++ ws2 ++ "-" ++ ws3
      ++ sender ++ ":" ++ ws4 ++ msg ++ rest /\
    [("message", "see: 10:45"); ("sender", "Bob"); ("time", "10:30 PM");
     ("date", "8/15/2024")]
    = [("message", msg); ("sender", sender); ("time", time); ("date", date)] /\
    rest = "".
Proof.
  destruct (start_line_structure "8/15/2024, 10:30 PM - Bob: see: 10:45"
              [("message", "see: 10:45"); ("sender", "Bob"); ("time", "10:30 PM");
               ("date", "8/15/2024")])
    as (date & comma & ws1 & time & ws2 & ws3 & sender & ws4 & msg & rest
        & Hl & Hm & _ & _ & _ & _ & _ & _ & _ & _ & Hr & _).
  - vm_compute. reflexivity.
  - exists date, comma, ws1, time, ws2, ws3, sender, ws4, msg, rest.
    split; [exact Hl |]. split; [exact Hm |]. apply Hr. vm_compute. reflexivity.
Defined.

End StartLine.

(** ** More on the full-chat analysis *)

Module ChatMore.
Import Eff PyNum Spec SpecWords PyStr NLP NumFacts ParserWords.
Local Open Scope Q_scope.

Lemma py_sum_from (xs : list Q) : forall acc, fold_left Qplus xs acc == acc + py_sum xs.
Proof.
  unfold py_sum. induction xs as [| x xs IH]; intro acc; cbn [fold_left].
  - lra.
  - rewrite (IH (acc + x)), (IH (0 + x)). lra.
Qed.

Lemma py_sum_cons (x : Q) (xs : list Q) : py_sum (x :: xs) == x + py_sum xs.
Proof. unfold py_sum at 1. cbn [fold_left]. rewrite py_sum_from. lra. Qed.

Lemma py_sum_bounds (lo hi : Q) (xs : list Q) :
  Forall (fun x => lo <= x <= hi) xs ->
  lo * inject_Z (Z.of_nat (List.length xs)) <= py_sum xs
  <= hi * inject_Z (Z.of_nat (List.length xs)).
Proof.
  induction 1 as [| x xs Hx _ IH].
  - unfold py_sum. cbn [List.length fold_left Z.of_nat]. change (inject_Z 0) with 0. lra.
  - rewrite py_sum_cons. cbn [List.length].
    rewrite Nat2Z.inj_succ, <- Z.add_1_r, inject_Z_plus. change (inject_Z 1) with 1. lra.
Qed.

(** The mean of scores lies where the scores lie. *)
Lemma mean_bounds (lo hi : Q) (xs : list Q) :
  xs <> [] -> Forall (fun x => lo <= x <= hi) xs -> lo <= mean xs <= hi.
Proof.
  intros Hne H. pose proof (py_sum_bounds lo hi xs H) as [Hlo Hhi].
  assert (Hn : 0 < inject_Z (Z.of_nat (List.length xs))).
  { destruct xs; [contradiction |]. cbn [List.length].
    rewrite Nat2Z.inj_succ, <- Z.add_1_r, inject_Z_plus. change (inject_Z 1) with 1.
    assert (0 <= inject_Z (Z.of_nat (List.length xs)))
      by (change 0 with (inject_Z 0); rewrite <- Zle_Qle; lia).
    lra. }
  unfold mean. split.
  - apply Qle_shift_div_l; assumption.
  - apply Qle_shift_div_r; assumption.
Qed.

Section Service.
Variable strptime_iso : string -> string -> option string.
Variable vader_compound : string -> outcome Q.
Variable textblob_polarity : string -> outcome Q.
Variable run_transformers :
  string -> outcome (option Sentiment.TransformerResult * option Sentiment.TransformerResult).
Variable Annotations : Type.
Variable annotate : string -> outcome Annotations.
Variable Aggregates : Type.
Variable aggregate : list (AnalyzedMessage Annotations) -> outcome Aggregates.

Lemma message_sentiment_coherent (r : Sentiment.AnalysisResult) :
  coherent_result r -> coherent_entry (message_sentiment r).
Proof.
  intros (Hv & _ & He & Hl & Hc). unfold coherent_entry, message_sentiment.
  cbn [ms_vader_score ms_vader_label ms_textblob_score ms_ensemble_score
       ms_ensemble_label ms_confidence].
  repeat split; try apply Hv; try apply Hl; try apply Hc; exact He.
Qed.

(** The loop adds coherent entries, and one score for each entry. *)
Lemma analyze_messages_scores (msgs : list Message) :
  forall analyzed sentiments analyzed' sentiments',
    analyze_messages vader_compound textblob_polarity run_transformers annotate
      msgs (analyzed, sentiments) = Returned (analyzed', sentiments') ->
    exists added,
      analyzed' = (analyzed ++ added)%list /\
      sentiments' = (sentiments ++ message_scores added)%list /\
      Forall (fun a => coherent_entry (am_sentiment a)) added.
Proof.
  induction msgs as [| msg msgs IH]; intros analyzed sentiments analyzed' sentiments' H.
  - cbn [analyze_messages] in H. injection H as <- <-. exists [].
    cbn [message_scores map]. rewrite !app_nil_r. repeat split. constructor.
  - cbn [analyze_messages] in H.
    destruct (skipped (message msg)); [apply (IH _ _ _ _ H) |].
    destruct (ServiceInvariants.analyze_coherent vader_compound textblob_polarity
                run_transformers (message msg)) as (r & Hr & Hcoh).
    rewrite Hr in H.
    destruct (annotate (message msg)) as [x | e]; [| discriminate H].
    apply IH in H as (added & -> & -> & Hall).
    eexists (_ :: added). rewrite <- !app_assoc. cbn [app message_scores map].
    repeat split.
    constructor; [| exact Hall]. cbn [am_sentiment].
    apply message_sentiment_coherent, Hcoh.
Qed.

(** What a completed analysis is made of. *)
Lemma analyzed_inversion (content : string) (r : ChatAnalysis Annotations Aggregates) :
  analyze_chat strptime_iso vader_compound textblob_polarity run_transformers
    annotate aggregate content = Analyzed r ->
  let avg := match message_scores (messages r) with
             | [] => 0
             | _ :: _ => mean (message_scores (messages r))
             end in
  Forall (fun a => coherent_entry (am_sentiment a)) (messages r) /\
  os_ensemble_score (overall_sentiment r) = avg /\
  os_vader_score (overall_sentiment r) = avg /\
  os_ensemble_label (overall_sentiment r)
  = (if leb 0.05 avg then Positive else if leb avg (-0.05) then Negative else Neutral).
Proof.
  intros H avg. subst avg. unfold analyze_chat in H.
  destruct (parse strptime_iso content) as [msgs fl].
  destruct msgs as [| m0 msgs']; [discriminate H |].
  destruct (analyze_messages _ _ _ _ (m0 :: msgs') ([], [])) as [[am ss] | e] eqn:Ha;
    [| discriminate H].
  destruct (aggregate am); [| discriminate H].
  injection H as <-. cbn [messages overall_sentiment os_ensemble_score os_vader_score
                          os_ensemble_label].
  apply analyze_messages_scores in Ha as (added & -> & -> & Hall).
  cbn [app]. split; [exact Hall |].
  unfold mean. destruct (message_scores added); repeat split.
Qed.

(** X20. In a completed analysis the overall score is the arithmetic mean
    of the ensemble scores of the analysed messages, and 0 when every
    message was skipped; it is reported under 'ensemble_score' and again
    under 'vader_score'; the overall label follows it with the thresholds
    0.05 and -0.05; and it is in [-1, 1], in [0, 1] or in [-1, 0] when all
    message scores are. *)
Theorem overall_sentiment_is_mean
    (content : string) (r : ChatAnalysis Annotations Aggregates) :
  analyze_chat strptime_iso vader_compound textblob_polarity run_transformers
    annotate aggregate content = Analyzed r ->
  let overall := overall_sentiment r in
  let scores := message_scores (messages r) in
  (messages r = [] -> os_ensemble_score overall == 0 /\ os_ensemble_label overall = Neutral) /\
  (messages r <> [] -> os_ensemble_score overall == mean scores) /\
  os_vader_score overall = os_ensemble_score overall /\
  labelled_at_005 (os_ensemble_score overall) (os_ensemble_label overall) /\
  (Forall (fun s => -1 <= s <= 1) scores -> -1 <= os_ensemble_score overall <= 1) /\
  (Forall (fun s => 0 <= s <= 1) scores -> 0 <= os_ensemble_score overall <= 1) /\
  (Forall (fun s => -1 <= s <= 0) scores -> -1 <= os_ensemble_score overall <= 0).
Proof.
  intros H overall scores. subst overall scores.
  destruct (analyzed_inversion content r H) as (_ & Hs & Hv & Hl).
  rewrite Hv, Hl, Hs. clear Hs Hv Hl H.
  unfold message_scores. destruct (messages r) as [| a entries]; cbn [map].
  - split; [intros _; split; reflexivity |]. split; [intros Hne; contradiction |].
    split; [reflexivity |].
    split; [apply (ServiceInvariants.label_at_005 0) |].
    split; [| split]; intros _; lra.
  - split; [discriminate |]. split; [reflexivity |]. split; [reflexivity |].
    split; [apply ServiceInvariants.label_at_005 |].
    split; [| split]; intros Hall; (apply mean_bounds; [discriminate | exact Hall]).
Qed.

(** X21. Every message of a completed analysis carries a coherent
    sentiment entry, whatever the scorers did on it: the VADER and ensemble
    labels are the ones their scores call for, the ensemble score is
    0.6 * vader_score + 0.4 * textblob_score, and the confidence is in
    [0, 1]. *)
Theorem analysed_entries_coherent
    (content : string) (r : ChatAnalysis Annotations Aggregates) :
  analyze_chat strptime_iso vader_compound textblob_polarity run_transformers
    annotate aggregate content = Analyzed r ->
  Forall (fun a => coherent_entry (am_sentiment a)) (messages r).
Proof. intro H. apply (analyzed_inversion content r H). Qed.

Lemma leading_all (lines : list string) :
  Forall (fun line => is_start line = false) lines -> leading lines = lines.
Proof.
  induction 1 as [| line lines Hl _ IH]; [reflexivity |].
  cbn [leading]. now rewrite Hl, IH.
Qed.

Lemma starts_nil_iff (lines : list string) :
  starts lines = [] <-> Forall (fun line => is_start line = false) lines.
Proof.
  induction lines as [| line lines IH]; cbn [starts flat_map].
  - split; [constructor | reflexivity].
  - unfold is_start at 1. destruct (Re.match_ START_RE line) eqn:E; cbn [app].
    + split; [discriminate |]. intro H. inversion H as [| ? ? Hl _]; subst.
      unfold is_start in Hl. rewrite E in Hl. discriminate Hl.
    + rewrite IH. split.
      * intro H. constructor; [unfold is_start; now rewrite E | exact H].
      * intro H. inversion H; assumption.
Qed.

(** The parser finds no message exactly when no line matches. *)
Lemma no_messages_iff (lines : list string) :
  fst (parse_lines strptime_iso lines) = []
  <-> Forall (fun line => is_start line = false) lines.
Proof.
  rewrite <- starts_nil_iff.
  pose proof (ParserMore.fold_headers strptime_iso lines [] []) as H.
  cbn [map app] in H. fold (parse_lines strptime_iso lines) in H. split.
  - intro E. rewrite E in H. cbn [map] in H.
    destruct (starts lines); [reflexivity | discriminate H].
  - intro E. rewrite E in H. cbn [map] in H.
    destruct (fst (parse_lines strptime_iso lines)); [reflexivity | discriminate H].
Qed.

(** X22. [analyze_chat] answers with the "no valid messages" dict exactly
    when no line of the chat matches [START_RE]; the count it reports is
    then the number of lines that are not blank. *)
Theorem no_valid_messages_iff (content : string) (n : nat) :
  analyze_chat strptime_iso vader_compound textblob_polarity run_transformers
    annotate aggregate content = NoValidMessages n
  <-> (Forall (fun line => is_start line = false) (splitlines content) /\
       n = List.length (List.filter not_blank (splitlines content))).
Proof.
  unfold analyze_chat, parse.
  pose proof (no_messages_iff (splitlines content)) as Hnone.
  pose proof (ParserMore.fold_failed strptime_iso (splitlines content) [] []) as Hfl.
  cbn [app] in Hfl. fold (parse_lines strptime_iso (splitlines content)) in Hfl.
  destruct (parse_lines strptime_iso (splitlines content)) as [msgs fl].
  cbn [fst snd] in *. subst fl. destruct msgs as [| m0 msgs'].
  - assert (Hall : Forall (fun line => is_start line = false) (splitlines content))
      by (apply Hnone; reflexivity).
    rewrite (leading_all _ Hall). split.
    + intro H. injection H as <-. split; [exact Hall | reflexivity].
    + intros [_ ->]. reflexivity.
  - split.
    + intro H.
      destruct (analyze_messages _ _ _ _ (m0 :: msgs') ([], [])) as [[am ss] | e];
        [destruct (aggregate am) |]; discriminate H.
    + intros [Hall _]. apply Hnone in Hall. discriminate Hall.
Qed.

End Service.

Lemma overall_sentiment_is_mean_witness :
  exists r : ChatAnalysis unit unit,
    analyze_chat (fun _ _ => None)
      (fun t => if String.eqb t "This is awesome!" then Returned 0.8 else Returned (-0.6))
      (fun t => if String.eqb t "This is awesome!" then Returned 1 else Returned (-1))
      (fun _ => Returned (None, None)) (fun _ => Returned tt) (fun _ => Returned tt)
      scenario_chat = Analyzed r /\
    List.length (messages r) = 2%nat /\
    os_ensemble_score (overall_sentiment r) == mean (message_scores (messages r)) /\
    os_ensemble_score (overall_sentiment r) == 0.06 /\
    os_ensemble_label (overall_sentiment r) = Positive /\
    -1 <= os_ensemble_score (overall_sentiment r) <= 1.
Proof.
  destruct (analyze_chat (fun _ _ => None)
              (fun t => if String.eqb t "This is awesome!" then Returned 0.8
                        else Returned (-0.6))
              (fun t => if String.eqb t "This is awesome!" then Returned 1
                        else Returned (-1))
              (fun _ => Returned (None, None))
              (fun _ : string => Returned tt)
              (fun _ : list (AnalyzedMessage unit) => Returned tt) scenario_chat)
    as [n | e | r] eqn:E; [vm_compute in E; discriminate E .. |].
  exists r. split; [reflexivity |].
  destruct (overall_sentiment_is_mean _ _ _ _ _ _ _ _ scenario_chat r E)
    as (_ & Hmean & _ & [Hpos _] & Hin & _ & _).
  assert (Hr : List.length (messages r) = 2%nat /\
               message_scores (messages r) = [0.8 * 0.6 + 1 * 0.4; (-0.6) * 0.6 + (-1) * 0.4]).
  { vm_compute in E. injection E as <-. split; reflexivity. }
  destruct Hr as [Hlen Hscores].
  assert (Hne : messages r <> []).
  { intro Hnil. rewrite Hnil in Hlen. discriminate Hlen. }
  assert (Hval : os_ensemble_score (overall_sentiment r) == 0.06).
  { rewrite (Hmean Hne), Hscores. vm_compute. reflexivity. }
  split; [exact Hlen |].
  split; [apply Hmean, Hne |].
  split; [exact Hval |].
  split; [apply Hpos; rewrite Hval; vm_compute; discriminate |].
  apply Hin. rewrite Hscores. repeat constructor; vm_compute; discriminate.
Defined.

Lemma analysed_entries_coherent_witness :
  exists r : ChatAnalysis unit unit,
    analyze_chat (fun _ _ => None) (fun _ => Raised "no lexicon") (fun _ => Returned 0.5)
      (fun _ => Returned (None, None)) (fun _ => Returned tt) (fun _ => Returned tt)
      media_chat = Analyzed r /\
    Forall (fun a => coherent_entry (am_sentiment a)) (messages r).
Proof.
  destruct (analyze_chat (fun _ _ => None) (fun _ => Raised "no lexicon")
              (fun _ => Returned 0.5) (fun _ => Returned (None, None))
              (fun _ : string => Returned tt)
              (fun _ : list (AnalyzedMessage unit) => Returned tt) media_chat)
    as [n | e | r] eqn:E; [vm_compute in E; discriminate E .. |].
  exists r. split; [reflexivity |].
  apply (analysed_entries_coherent _ _ _ _ _ _ _ _ media_chat r E).
Defined.

Lemma no_valid_messages_iff_witness :
  analyze_chat (fun _ _ => None) (fun _ => Returned 0.5) (fun _ => Returned 0.5)
    (fun _ => Returned (None, None)) (fun _ : string => Returned tt)
    (fun _ : list (AnalyzedMessage unit) => Returned tt) "hello there"
  = NoValidMessages 1.
Proof.
  apply (proj2 (no_valid_messages_iff (fun _ _ => None) (fun _ => Returned 0.5)
                  (fun _ => Returned 0.5) (fun _ => Returned (None, None))
                  unit (fun _ : string => Returned tt)
                  unit (fun _ : list (AnalyzedMessage unit) => Returned tt)
                  "hello there" 1)).
  split; [repeat constructor | reflexivity].
Defined.

End ChatMore.

(** ** The emotion detector *)

Module EmotionFacts.
Import PyNum Spec SpecWords NumFacts ChatMore Emotions EmotionWords.
Local Open Scope Q_scope.

Lemma fold_add_from (l : list nat) : forall acc, fold_left Nat.add l acc = (acc + fold_left Nat.add l 0)%nat.
Proof.
  induction l as [| x l IH]; intro acc; cbn [fold_left]; [lia |].
  rewrite (IH (acc + x)%nat), (IH (0 + x)%nat). lia.
Qed.

Lemma nat_to_Q_add (a b : nat) : nat_to_Q (a + b) == nat_to_Q a + nat_to_Q b.
Proof. unfold nat_to_Q. now rewrite Nat2Z.inj_add, inject_Z_plus. Qed.

Lemma nat_to_Q_nonneg (a : nat) : 0 <= nat_to_Q a.
Proof. unfold nat_to_Q. change 0 with (inject_Z 0). rewrite <- Zle_Qle. lia. Qed.

Lemma nat_to_Q_pos (a : nat) : (0 < a)%nat -> 0 < nat_to_Q a.
Proof. intro H. unfold nat_to_Q. change 0 with (inject_Z 0). rewrite <- Zlt_Qlt. lia. Qed.

Lemma nat_to_Q_le (a b : nat) : (a <= b)%nat -> nat_to_Q a <= nat_to_Q b.
Proof. intro H. unfold nat_to_Q. rewrite <- Zle_Qle. lia. Qed.

(** The shares of a total that is not zero add up to 100. *)
Lemma shares_sum (T : Q) (counts : list (string * nat)) :
  ~ T == 0 ->
  py_sum (map snd (map (fun '(e, c) => (e, nat_to_Q c / T * 100)) counts))
  == nat_to_Q (fold_left Nat.add (map snd counts) 0%nat) / T * 100.
Proof.
  intro HT. induction counts as [| [e c] counts IH].
  - cbn. unfold py_sum, nat_to_Q. cbn. field. exact HT.
  - cbn [map snd fold_left]. rewrite py_sum_cons, IH.
    rewrite (fold_add_from _ (0 + c)%nat), Nat.add_0_l, nat_to_Q_add.
    field. exact HT.
Qed.

Lemma count_le_total (counts : list (string * nat)) :
  Forall (fun p => (snd p <= fold_left Nat.add (map snd counts) 0%nat)%nat) counts.
Proof.
  induction counts as [| [e c] counts IH]; [constructor |].
  cbn [map snd fold_left]. rewrite (fold_add_from _ (0 + c)%nat), Nat.add_0_l.
  constructor; [cbn; lia |].
  eapply Forall_impl; [| exact IH]. cbn. intros p Hp. lia.
Qed.

(** A sum of counts is positive exactly when one of them is. *)
Lemma sum_pos_existsb {A : Type} (f : A -> nat) (g : A -> bool) (l : list A) :
  (forall x, (0 < f x)%nat <-> g x = true) ->
  ((0 < fold_left Nat.add (map f l) 0%nat)%nat <-> existsb g l = true).
Proof.
  intro Hfg. induction l as [| x l IH]; cbn [map fold_left existsb].
  - split; [lia | discriminate].
  - rewrite (fold_add_from _ (0 + f x)%nat), Nat.add_0_l, orb_true_iff, <- IH, <- Hfg. lia.
Qed.

(** [s.count(sub)] is positive exactly when [sub in s]. *)
Lemma count_pos_contains (s sub : string) :
  (0 < count s sub)%nat <-> PyStr.contains sub s = true.
Proof.
  unfold count. destruct sub as [| c sub]; cbn [PyStr.is_empty].
  - split; [intros _ | lia]. destruct s; reflexivity.
  - induction s as [| x s IH]; cbn [count_from PyStr.contains].
    + cbn. split; [lia | discriminate].
    + destruct (String.prefix (String c sub) (String x s)); [split; [reflexivity | lia] |].
      exact IH.
Qed.

Lemma emotion_count_pos (text_lower : string) (keywords : list keyword) :
  (0 < emotion_count text_lower keywords)%nat <-> mentions text_lower keywords = true.
Proof.
  unfold emotion_count, mentions. apply sum_pos_existsb.
  intros [w | n]; cbn [count_keyword occurs].
  - apply count_pos_contains.
  - split; [lia | discriminate].
Qed.

Lemma Forall2_map_r {A B : Type} (P : A -> B -> Prop) (k : A -> B) (l : list A) :
  (forall x, In x l -> P x (k x)) -> Forall2 P l (map k l).
Proof.
  induction l as [| x l IH]; intro H; cbn [map]; constructor.
  - apply H. now left.
  - apply IH. intros y Hy. apply H. now right.
Qed.

(** X23. [EmotionDetector.detect] always answers for the five emotions
    joy, anger, sadness, fear, surprise, in this order, with values in
    [0, 100].  All values are 0 for a blank text and for a text in which no
    keyword occurs.  Otherwise the values add up to 100 (in exact
    arithmetic), and the value of an emotion is positive exactly when one of
    its keywords occurs in the lowercased text. *)
Theorem emotion_distribution (text : string) :
  let d := detect text in
  map fst d = ["joy"; "anger"; "sadness"; "fear"; "surprise"] /\
  Forall (fun p => 0 <= snd p <= 100) d /\
  (whitespace_only text -> Forall (fun p => snd p == 0) d) /\
  (any_mention text = false -> Forall (fun p => snd p == 0) d) /\
  (~ whitespace_only text -> any_mention text = true ->
   py_sum (map snd d) == 100 /\
   Forall2 (fun (entry : string * list keyword) (p : string * Q) =>
              fst p = fst entry /\
              (0 < snd p <-> mentions (PyStr.lower text) (snd entry) = true))
           EMOTIONS_MAP d).
Proof.
  intro d. subst d. unfold detect.
  destruct (PyStr.is_empty text || PyStr.blank text) eqn:Hblank.
  - assert (Hws : whitespace_only text).
    { destruct text as [| c s]; [constructor |].
      apply StripFacts.blank_iff_whitespace_only. exact Hblank. }
    split; [reflexivity |].
    split; [repeat constructor; cbn; lra |].
    split; [intros _; repeat constructor; reflexivity |].
    split; [intros _; repeat constructor; reflexivity |].
    intro H. contradiction.
  - assert (Hnotws : ~ whitespace_only text).
    { intro H. apply StripFacts.blank_iff_whitespace_only in H.
      apply orb_false_iff in Hblank. destruct Hblank as [_ Hb]. congruence. }
    set (tl := PyStr.lower text).
    set (counts := map (fun '(emotion, keywords) => (emotion, emotion_count tl keywords))
                       EMOTIONS_MAP).
    assert (Hkeys : map fst counts = ["joy"; "anger"; "sadness"; "fear"; "surprise"])
      by reflexivity.
    set (total := fold_left Nat.add (map snd counts) 0%nat).
    assert (Htotal : (0 < total)%nat <-> any_mention text = true).
    { unfold total, counts, any_mention. fold tl. rewrite map_map.
      rewrite (map_ext _ (fun entry : string * list keyword => emotion_count tl (snd entry)))
        by (intros [e kws]; reflexivity).
      apply sum_pos_existsb. intros [e kws]. apply emotion_count_pos. }
    pose proof (count_le_total counts) as Hle. fold total in Hle.
    destruct (Nat.ltb_spec 0 total) as [Hpos | Hzero].
    + pose proof (nat_to_Q_pos total Hpos) as HT.
      split.
      { rewrite map_map. rewrite <- Hkeys. apply map_ext. intros [e c]. reflexivity. }
      split.
      { apply Forall_map. eapply Forall_impl; [| exact Hle]. intros [e c] Hc. cbn [snd] in *.
        apply nat_to_Q_le in Hc. pose proof (nat_to_Q_nonneg c) as H0.
        split.
        - apply Qmult_le_0_compat; [| lra]. apply Qle_shift_div_l; lra.
        - assert (nat_to_Q c / nat_to_Q total <= 1) by (apply Qle_shift_div_r; lra).
          lra. }
      split; [intro H; contradiction |].
      split; [intro H; apply Htotal in Hpos; congruence |].
      intros _ _. split.
      { rewrite shares_sum by lra. fold total. field. lra. }
      unfold counts. rewrite map_map. apply Forall2_map_r.
      intros [e kws] _. cbn [fst snd]. split; [reflexivity |].
      rewrite <- emotion_count_pos. fold tl.
      pose proof (nat_to_Q_nonneg (emotion_count tl kws)) as H0.
      split.
      * intro Hv. destruct (emotion_count tl kws) as [| c]; [| lia].
        exfalso. unfold nat_to_Q in Hv at 1. cbn [Z.of_nat] in Hv.
        change (inject_Z 0) with 0 in Hv.
        assert (E : 0 / nat_to_Q total * 100 == 0) by (field; lra).
        rewrite E in Hv. lra.
      * intro Hc. pose proof (nat_to_Q_pos _ Hc) as Hq.
        assert (0 < nat_to_Q (emotion_count tl kws) / nat_to_Q total)
          by (apply Qlt_shift_div_l; lra).
        lra.
    + assert (Hnone : any_mention text = false).
      { destruct (any_mention text); [| reflexivity].
        assert (0 < total)%nat by (apply Htotal; reflexivity). lia. }
      assert (Hzeros : Forall (fun p : string * Q => snd p == 0)
                         (map (fun '(e, _) => (e, 0)) counts)).
      { apply Forall_map, Forall_forall. intros [e c] _. reflexivity. }
      split.
      { rewrite map_map. rewrite <- Hkeys. apply map_ext. intros [e c]. reflexivity. }
      split; [apply Forall_map, Forall_forall; intros [e c] _; cbn; lra |].
      split; [intros _; exact Hzeros |].
      split; [intros _; exact Hzeros |].
      intros _ H. congruence.
Qed.

Lemma emotion_distribution_witness :
  py_sum (map snd (detect "I am so HAPPY, wow, not sad")) == 100 /\
  Forall2 (fun (entry : string * list keyword) (p : string * Q) =>
             fst p = fst entry /\
             (0 < snd p <->
              mentions (PyStr.lower "I am so HAPPY, wow, not sad") (snd entry) = true))
          EMOTIONS_MAP (detect "I am so HAPPY, wow, not sad") /\
  Forall (fun p => snd p == 0) (detect "nothing of that kind").
Proof.
  destruct (emotion_distribution "I am so HAPPY, wow, not sad") as (_ & _ & _ & _ & H).
  destruct (emotion_distribution "nothing of that kind") as (_ & _ & _ & H0 & _).
  destruct H as [Hsum Hall].
  - intro Hws. inversion Hws as [| ? ? Hc _]. vm_compute in Hc. discriminate Hc.
  - reflexivity.
  - split; [exact Hsum |]. split; [exact Hall |]. apply H0. reflexivity.
Defined.

End EmotionFacts.

(** ** The keyword extractor *)

From Stdlib Require Import Permutation Sorted.

Module KeywordFacts.
Import Eff Keywords KeywordWords.

Lemma lookup_counter_add (w w' : string) (c : list (string * nat)) :
  lookup w' (counter_add w c)
  = if String.eqb w w' then S (lookup w' c) else lookup w' c.
Proof.
  induction c as [| [k n] c IH]; cbn [counter_add lookup].
  - destruct (String.eqb_spec w w'); reflexivity.
  - destruct (String.eqb_spec k w) as [-> | Hkw]; cbn [lookup].
    + destruct (String.eqb_spec w w'); reflexivity.
    + destruct (String.eqb_spec k w') as [-> | Hkw'].
      * destruct (String.eqb_spec w w'); [congruence | reflexivity].
      * exact IH.
Qed.

Lemma lookup_fold (words : list string) (w : string) :
  forall c, lookup w (fold_left (fun counter x => counter_add x counter) words c)
            = lookup w c + occurrences w words.
Proof.
  unfold occurrences. induction words as [| x words IH]; intro c; cbn [fold_left List.filter].
  - cbn. lia.
  - rewrite IH, lookup_counter_add, (String.eqb_sym w x).
    destruct (String.eqb x w); cbn [List.length]; lia.
Qed.

Lemma keys_counter_add (w : string) (c : list (string * nat)) :
  map fst (counter_add w c)
  = if existsb (String.eqb w) (map fst c) then map fst c else (map fst c ++ [w])%list.
Proof.
  induction c as [| [k n] c IH]; cbn [counter_add map fst existsb app]; [reflexivity |].
  rewrite (String.eqb_sym w k).
  destruct (String.eqb k w); cbn [map fst orb]; [reflexivity |].
  rewrite IH. destruct (existsb (String.eqb w) (map fst c)); reflexivity.
Qed.

Lemma existsb_eqb_In (w : string) (l : list string) :
  existsb (String.eqb w) l = true <-> In w l.
Proof.
  rewrite existsb_exists. split.
  - intros (x & Hin & E). apply String.eqb_eq in E. now subst.
  - intro H. exists w. split; [exact H | apply String.eqb_refl].
Qed.

Lemma NoDup_counter_add (w : string) (c : list (string * nat)) :
  NoDup (map fst c) -> NoDup (map fst (counter_add w c)).
Proof.
  intro H. rewrite keys_counter_add.
  destruct (existsb (String.eqb w) (map fst c)) eqn:E; [exact H |].
  apply NoDup_app_remove_l with (l := []). cbn [app].
  apply Permutation_NoDup with (l := w :: map fst c).
  - apply Permutation_cons_append.
  - constructor; [| exact H]. intro Hin. apply existsb_eqb_In in Hin. congruence.
Qed.

Lemma counts_counter_add (w : string) (c : list (string * nat)) :
  Forall (fun e => 1 <= snd e) c -> Forall (fun e => 1 <= snd e) (counter_add w c).
Proof.
  induction 1 as [| [k n] c Hn Hc IH]; cbn [counter_add].
  - repeat constructor.
  - destruct (String.eqb k w); constructor; cbn in *; try lia; assumption.
Qed.

Lemma keys_subset_counter_add (w : string) (c : list (string * nat)) (k : string) :
  In k (map fst (counter_add w c)) -> k = w \/ In k (map fst c).
Proof.
  rewrite keys_counter_add. destruct (existsb (String.eqb w) (map fst c)); [now right |].
  intro H. apply in_app_or in H as [H | [<- | []]]; [now right | now left].
Qed.

(** What [Counter] holds. *)
Lemma Counter_spec (words : list string) :
  NoDup (map fst (Counter words)) /\
  Forall (fun e => 1 <= snd e) (Counter words) /\
  (forall k, In k (map fst (Counter words)) -> In k words) /\
  (forall w, lookup w (Counter words) = occurrences w words).
Proof.
  unfold Counter.
  assert (H : forall c,
             NoDup (map fst c) -> Forall (fun e => 1 <= snd e) c ->
             NoDup (map fst (fold_left (fun counter x => counter_add x counter) words c)) /\
             Forall (fun e => 1 <= snd e)
                    (fold_left (fun counter x => counter_add x counter) words c) /\
             (forall k, In k (map fst (fold_left (fun counter x => counter_add x counter) words c)) ->
                        In k words \/ In k (map fst c))).
  { induction words as [| x words IH]; intros c Hnd Hc; cbn [fold_left].
    - repeat split; [assumption .. |]. intros k Hk. now right.
    - destruct (IH (counter_add x c) (NoDup_counter_add x c Hnd) (counts_counter_add x c Hc))
        as (H1 & H2 & H3).
      repeat split; [assumption .. |]. intros k Hk. apply H3 in Hk as [Hk | Hk].
      + left. now right.
      + apply keys_subset_counter_add in Hk as [-> | Hk]; [left; now left | now right]. }
  destruct (H [] (NoDup_nil _) (Forall_nil _)) as (H1 & H2 & H3).
  repeat split; [assumption .. | |].
  - intros k Hk. apply H3 in Hk as [Hk | []]. exact Hk.
  - intro w. rewrite lookup_fold. reflexivity.
Qed.

Lemma lookup_In (c : list (string * nat)) (w : string) (n : nat) :
  NoDup (map fst c) -> In (w, n) c -> lookup w c = n.
Proof.
  induction c as [| [k m] c IH]; [intros _ []|].
  cbn [map fst lookup]. intros Hnd Hin. inversion Hnd as [| ? ? Hk Hnd']; subst.
  destruct Hin as [E | Hin].
  - injection E as -> ->. now rewrite String.eqb_refl.
  - destruct (String.eqb_spec k w) as [-> | _]; [| apply IH; assumption].
    exfalso. apply Hk. apply (in_map fst) in Hin. exact Hin.
Qed.

Lemma lookup_pos_In (c : list (string * nat)) (w : string) :
  0 < lookup w c -> In w (map fst c).
Proof.
  induction c as [| [k n] c IH]; cbn [lookup map fst In]; [lia |].
  destruct (String.eqb_spec k w) as [-> | _]; [now left | right; now apply IH].
Qed.

Lemma occurrences_pos (w : string) (words : list string) :
  In w words -> 0 < occurrences w words.
Proof.
  unfold occurrences. induction words as [| x words IH]; [intros [] |].
  cbn [List.filter]. intros [-> | H].
  - rewrite String.eqb_refl. cbn [List.length]. lia.
  - destruct (String.eqb w x); cbn [List.length]; [lia | now apply IH].
Qed.

Lemma occurrences_le_length (w : string) (words : list string) :
  occurrences w words <= List.length words.
Proof. unfold occurrences. apply filter_length_le. Qed.

(** The keys of a [Counter] are the words counted. *)
Lemma keys_Counter (words : list string) (w : string) :
  In w (map fst (Counter words)) <-> In w words.
Proof.
  destruct (Counter_spec words) as (_ & _ & Hsub & Hlook). split; [apply Hsub |].
  intro H. apply lookup_pos_In. rewrite Hlook. now apply occurrences_pos.
Qed.

Lemma insert_by_count_perm (x : string * nat) (l : list (string * nat)) :
  Permutation (insert_by_count x l) (x :: l).
Proof.
  induction l as [| y l IH]; cbn [insert_by_count]; [reflexivity |].
  destruct (Nat.ltb (snd y) (snd x)); [reflexivity |].
  rewrite IH. apply perm_swap.
Qed.

Lemma insert_by_count_sorted (x : string * nat) (l : list (string * nat)) :
  StronglySorted (fun a b => snd b <= snd a) l ->
  StronglySorted (fun a b => snd b <= snd a) (insert_by_count x l).
Proof.
  induction 1 as [| y l Hs IH Hy]; cbn [insert_by_count].
  - repeat constructor.
  - destruct (Nat.ltb_spec (snd y) (snd x)) as [Hlt | Hge].
    + constructor; [constructor; assumption |].
      constructor; [lia |]. eapply Forall_impl; [| exact Hy]. cbn. intros. lia.
    + constructor; [exact IH |].
      rewrite (insert_by_count_perm x l). constructor; assumption.
Qed.

Lemma sort_spec (c : list (string * nat)) :
  forall acc,
    StronglySorted (fun a b => snd b <= snd a) acc ->
    StronglySorted (fun a b => snd b <= snd a)
      (fold_left (fun sorted x => insert_by_count x sorted) c acc) /\
    Permutation (fold_left (fun sorted x => insert_by_count x sorted) c acc) (acc ++ c).
Proof.
  induction c as [| x c IH]; intros acc Hacc; cbn [fold_left].
  - split; [exact Hacc | now rewrite app_nil_r].
  - destruct (IH (insert_by_count x acc) (insert_by_count_sorted x acc Hacc)) as [Hs Hp].
    split; [exact Hs |]. rewrite Hp, insert_by_count_perm.
    change (x :: acc) with ([x] ++ acc)%list. rewrite <- app_assoc.
    apply Permutation_app_swap_app.
Qed.

Lemma StronglySorted_firstn {A : Type} (R : A -> A -> Prop) (n : nat) (l : list A) :
  StronglySorted R l -> StronglySorted R (firstn n l).
Proof.
  intro H. revert n. induction H as [| x l Hs IH Hx]; intros [| n]; cbn [firstn];
    try constructor.
  - apply IH.
  - apply Forall_forall. intros y Hy. rewrite Forall_forall in Hx. apply Hx.
    eapply ExplanationFacts.in_firstn, Hy.
Qed.

Lemma NoDup_firstn {A : Type} (n : nat) (l : list A) : NoDup l -> NoDup (firstn n l).
Proof.
  intro H. revert n. induction H as [| x l Hx _ IH]; intros [| n]; cbn [firstn];
    try constructor.
  - intro Hin. apply Hx. eapply ExplanationFacts.in_firstn, Hin.
  - apply IH.
Qed.

Lemma StronglySorted_falling (l : list (string * nat)) :
  StronglySorted (fun a b => snd b <= snd a) l -> falling l.
Proof.
  unfold falling. induction 1 as [| x l _ IH Hx]; intros i j Hij Hj; [simpl in Hj; lia |].
  destruct j as [| j]; [assert (i = 0) by lia; subst; lia |].
  cbn [List.length] in Hj. destruct i as [| i]; cbn [nth].
  - rewrite Forall_forall in Hx. apply Hx, nth_In. lia.
  - apply IH; lia.
Qed.

(** What [most_common] returns. *)
Lemma most_common_spec (n : nat) (c : list (string * nat)) :
  NoDup (map fst c) ->
  List.length (most_common n c) <= n /\
  falling (most_common n c) /\
  NoDup (map fst (most_common n c)) /\
  (forall e, In e (most_common n c) -> In e c).
Proof.
  intro Hnd. unfold most_common.
  destruct (sort_spec c [] (SSorted_nil _)) as [Hs Hp]. cbn [app] in Hp.
  set (sorted := fold_left (fun sorted x => insert_by_count x sorted) c []) in *.
  split; [apply firstn_le_length |].
  split; [apply StronglySorted_falling, StronglySorted_firstn, Hs |].
  split.
  - rewrite <- firstn_map. apply NoDup_firstn.
    apply Permutation_NoDup with (l := map fst c); [| exact Hnd].
    symmetry. apply Permutation_map, Hp.
  - intros e He. apply ExplanationFacts.in_firstn in He. apply (Permutation_in e Hp He).
Qed.

Lemma StronglySorted_app_inv {A : Type} (R : A -> A -> Prop) (l1 l2 : list A) :
  StronglySorted R (l1 ++ l2) -> forall x y, In x l1 -> In y l2 -> R x y.
Proof.
  induction l1 as [| a l1 IH]; cbn [app]; intros Hs x y Hx Hy; [destruct Hx |].
  inversion Hs as [| ? ? Hs' Ha]; subst. destruct Hx as [<- | Hx].
  - rewrite Forall_forall in Ha. apply Ha, in_or_app. now right.
  - apply (IH Hs' x y Hx Hy).
Qed.

(** An entry that [most_common] leaves out is left out for lack of room:
    the list is full, with counts that are not smaller. *)
Lemma most_common_complete (n : nat) (c : list (string * nat)) (e : string * nat) :
  In e c ->
  In e (most_common n c) \/
  (List.length (most_common n c) = n /\
   forall e', In e' (most_common n c) -> snd e <= snd e').
Proof.
  intro Hin. unfold most_common.
  destruct (sort_spec c [] (SSorted_nil _)) as [Hs Hp]. cbn [app] in Hp.
  set (sorted := fold_left (fun sorted x => insert_by_count x sorted) c []) in *.
  assert (He : In e sorted) by (apply (Permutation_in e (Permutation_sym Hp) Hin)).
  rewrite <- (firstn_skipn n sorted) in He, Hs.
  apply in_app_or in He as [He | He]; [now left | right].
  split.
  - apply firstn_length_le.
    destruct (Nat.le_gt_cases n (List.length sorted)) as [Hle | Hgt]; [exact Hle |].
    rewrite skipn_all2 in He by lia. destruct He.
  - intros e' He'. apply (StronglySorted_app_inv _ _ _ Hs e' e He' He).
Qed.

Lemma lookup_entry (c : list (string * nat)) (w : string) :
  In w (map fst c) -> In (w, lookup w c) c.
Proof.
  induction c as [| [k n] c IH]; cbn [map fst In lookup]; [intros [] |].
  destruct (String.eqb_spec k w) as [-> | Hk].
  - intros _. now left.
  - intros [E | H]; [contradiction | right; now apply IH].
Qed.

Lemma occurrences_filter (P : string -> bool) (w : string) (l : list string) :
  P w = true -> occurrences w (List.filter P l) = occurrences w l.
Proof.
  intro HP. unfold occurrences. induction l as [| x l IH]; [reflexivity |].
  cbn [List.filter]. destruct (P x) eqn:Hx; cbn [List.filter].
  - destruct (String.eqb w x); cbn [List.length]; now rewrite IH.
  - destruct (String.eqb_spec w x) as [-> | _]; [congruence | exact IH].
Qed.

Section Demojize.
Variable demojize : string -> outcome string.

(** X24. [KeywordExtractor.extract] returns at most [top_k] entries, no
    word twice, counts never rising along the list; each word is longer than
    three characters and not a stop word, and its count is the number of
    times it stands among the words of the cleaned, lowercased text.  Every
    such word of the text is in the list with its count, unless the list is
    full, with [top_k] entries whose counts are not smaller.  A blank text
    and a failure of [demojize] give the empty list. *)
Theorem keywords_extracted (text : string) (top_k : nat) :
  let ks := extract demojize text top_k in
  List.length ks <= top_k /\
  NoDup (map fst ks) /\
  falling ks /\
  (forall w n, In (w, n) ks ->
     eligible w /\ 1 <= n /\
     exists clean,
       demojize (re_sub_empty URL_OR_EMAIL text) = Returned clean /\
       n = occurrences w (Explanation.word_runs (PyStr.lower clean))) /\
  (forall clean w,
     ~ Spec.whitespace_only text ->
     demojize (re_sub_empty URL_OR_EMAIL text) = Returned clean ->
     eligible w -> In w (Explanation.word_runs (PyStr.lower clean)) ->
     In (w, occurrences w (Explanation.word_runs (PyStr.lower clean))) ks \/
     (List.length ks = top_k /\
      forall e, In e ks ->
        occurrences w (Explanation.word_runs (PyStr.lower clean)) <= snd e)) /\
  (Spec.whitespace_only text -> ks = []) /\
  (forall e, demojize (re_sub_empty URL_OR_EMAIL text) = Raised e -> ks = []).
Proof.
  intro ks. subst ks. unfold extract.
  assert (Hempty : forall n : nat,
             List.length (@nil (string * nat)) <= n /\
             NoDup (map fst (@nil (string * nat))) /\ falling (@nil (string * nat)) /\
             (forall w m, In (w, m) (@nil (string * nat)) ->
                eligible w /\ 1 <= m /\
                exists clean,
                  demojize (re_sub_empty URL_OR_EMAIL text) = Returned clean /\
                  m = occurrences w (Explanation.word_runs (PyStr.lower clean)))).
  { intro n. split; [simpl; lia |]. split; [constructor |].
    split; [intros i j _ Hj; simpl in Hj; lia | intros w m []]. }
  destruct (PyStr.is_empty text || PyStr.blank text) eqn:Hb.
  { destruct (Hempty top_k) as (H1 & H2 & H3 & H4).
    assert (Hws : Spec.whitespace_only text).
    { destruct text as [| c s]; [constructor |].
      apply StripFacts.blank_iff_whitespace_only. exact Hb. }
    refine (conj H1 (conj H2 (conj H3 (conj H4 (conj _ (conj _ _))))));
      intros; try reflexivity. contradiction. }
  assert (Hnb : ~ Spec.whitespace_only text).
  { intro H. apply StripFacts.blank_iff_whitespace_only in H.
    apply orb_false_iff in Hb. destruct Hb. congruence. }
  destruct (demojize (re_sub_empty URL_OR_EMAIL text)) as [clean | e].
  2:{ destruct (Hempty top_k) as (H1 & H2 & H3 & H4).
      refine (conj H1 (conj H2 (conj H3 (conj H4 (conj _ (conj _ _))))));
        intros; try reflexivity. discriminate. }
  set (words := Explanation.word_runs (PyStr.lower clean)).
  set (P := fun w => negb (existsb (String.eqb w) STOP_WORDS) && Nat.ltb 3 (String.length w)).
  destruct (Counter_spec (List.filter P words)) as (Hnd & Hpos & Hkeys & Hlook).
  destruct (most_common_spec top_k (Counter (List.filter P words)) Hnd)
    as (Hlen & Hfall & Hnd' & Hin).
  split; [exact Hlen |]. split; [exact Hnd' |]. split; [exact Hfall |].
  split; [| split; [| split; [intro H; contradiction | intros e He; discriminate He]]].
  - intros w n Hwn. apply Hin in Hwn.
    assert (Hw : In w (List.filter P words)).
    { apply Hkeys. apply (in_map fst) in Hwn. exact Hwn. }
    apply filter_In in Hw as [_ HP].
    assert (Hel : eligible w).
    { unfold P in HP. apply andb_prop in HP as [Hstop Hlong]. split.
      - apply Nat.ltb_lt, Hlong.
      - intro Hs. apply existsb_eqb_In in Hs. rewrite Hs in Hstop. discriminate Hstop. }
    split; [exact Hel |]. split.
    + rewrite Forall_forall in Hpos. apply (Hpos (w, n) Hwn).
    + exists clean. split; [reflexivity |].
      rewrite <- (lookup_In _ w n Hnd Hwn), Hlook. apply occurrences_filter, HP.
  - intros clean' w _ E [Hlong Hstop] Hw. injection E as <-. fold words in Hw |- *.
    assert (HP : P w = true).
    { unfold P. apply andb_true_intro. split; [| apply Nat.ltb_lt, Hlong].
      destruct (existsb (String.eqb w) STOP_WORDS) eqn:Ex; [| reflexivity].
      apply existsb_eqb_In in Ex. contradiction. }
    assert (Hentry : In (w, occurrences w words) (Counter (List.filter P words))).
    { rewrite <- (occurrences_filter P w words HP), <- Hlook.
      apply lookup_entry, keys_Counter, filter_In. split; assumption. }
    apply (most_common_complete top_k _ _ Hentry).
Qed.

End Demojize.

Lemma keywords_extracted_witness :
  let ks := extract (fun s => Returned s)
              "Great food, great place! See http://x.y/great and the menu" 2 in
  ks = [("great", 2); ("food", 1)] /\
  (eligible "great" /\ 1 <= 2 /\
   exists clean,
     Returned (re_sub_empty URL_OR_EMAIL
                 "Great food, great place! See http://x.y/great and the menu")
     = Returned clean /\
     2 = occurrences "great" (Explanation.word_runs (PyStr.lower clean))) /\
  (List.length ks = 2 /\
   forall e, In e ks ->
     occurrences "menu"
       (Explanation.word_runs
          (PyStr.lower (re_sub_empty URL_OR_EMAIL
                          "Great food, great place! See http://x.y/great and the menu")))
     <= snd e).
Proof.
  intro ks.
  destruct (keywords_extracted (fun s => Returned s)
              "Great food, great place! See http://x.y/great and the menu" 2)
    as (_ & _ & _ & Hsound & Hcomplete & _).
  split; [reflexivity |]. split.
  - apply (Hsound "great" 2). vm_compute. left. reflexivity.
  - assert (Hnws : ~ Spec.whitespace_only
                      "Great food, great place! See http://x.y/great and the menu").
    { intro Hws. inversion Hws as [| ? ? Hc _]. vm_compute in Hc. discriminate Hc. }
    assert (Hel : eligible "menu").
    { split; [vm_compute; lia | intro Hs; vm_compute in Hs; intuition discriminate]. }
    assert (Hw : In "menu"
                   (Explanation.word_runs
                      (PyStr.lower
                         (re_sub_empty URL_OR_EMAIL
                            "Great food, great place! See http://x.y/great and the menu")))).
    { vm_compute. do 7 right. left. reflexivity. }
    destruct (Hcomplete _ "menu" Hnws eq_refl Hel Hw) as [Hin | Hfull].
    + exfalso. vm_compute in Hin. intuition discriminate.
    + exact Hfull.
Defined.

End KeywordFacts.

(** ** The media extractor *)

Module MediaFacts.
Import PyStrMore Re Media MediaWords.

Lemma rep_greedy_agree {R : Type} (ok p p' : ascii -> bool)
    (Hp : forall c, ok c = true -> p c = p' c) :
  forall s lo hi (k k' : string -> option R),
    all_chars ok s = true ->
    (forall s', all_chars ok s' = true -> k s' = k' s') ->
    rep_greedy p lo hi s k = rep_greedy p' lo hi s k'.
Proof.
  induction s as [| c s IH]; intros lo hi k k' Hs Hk.
  - cbn [rep_greedy]. rewrite (Hk EmptyString Hs). reflexivity.
  - pose proof Hs as Hcs. cbn [all_chars] in Hs. apply andb_prop in Hs as [Hc Hs].
    cbn [rep_greedy]. rewrite (Hp c Hc), (Hk (String c s) Hcs).
    rewrite (IH (Nat.pred lo) (one_less hi) k k' Hs Hk). reflexivity.
Qed.

Lemma rep_lazy_agree {R : Type} (ok p p' : ascii -> bool)
    (Hp : forall c, ok c = true -> p c = p' c) :
  forall s lo hi (k k' : string -> option R),
    all_chars ok s = true ->
    (forall s', all_chars ok s' = true -> k s' = k' s') ->
    rep_lazy p lo hi s k = rep_lazy p' lo hi s k'.
Proof.
  induction s as [| c s IH]; intros lo hi k k' Hs Hk.
  - cbn [rep_lazy]. rewrite (Hk EmptyString Hs). reflexivity.
  - pose proof Hs as Hcs. cbn [all_chars] in Hs. apply andb_prop in Hs as [Hc Hs].
    cbn [rep_lazy]. rewrite (Hp c Hc), (Hk (String c s) Hcs).
    rewrite (IH (Nat.pred lo) (one_less hi) k k' Hs Hk). reflexivity.
Qed.

(** Patterns that agree on the characters of a text match it alike. *)
Lemma rmatch_agree {R : Type} (ok : ascii -> bool) :
  forall r r', agree ok r r' ->
  forall s caps (k k' : string -> captures -> option R),
    all_chars ok s = true ->
    (forall s' caps', all_chars ok s' = true -> k s' caps' = k' s' caps') ->
    rmatch r s caps k = rmatch r' s caps k'.
Proof.
  induction r as [p | r1 IH1 r2 IH2 | r1 IH1 r2 IH2 | g lo hi p | r1 IH1 | n r1 IH1];
    intros r' Hr; destruct r' as [p' | r1' r2' | r1' r2' | g' lo' hi' p' | r1' | n' r1'];
    try contradiction; cbn [agree] in Hr; intros s caps k k' Hs Hk; cbn [rmatch].
  - destruct s as [| c s]; [reflexivity |].
    cbn [all_chars] in Hs. apply andb_prop in Hs as [Hc Hs].
    rewrite (Hr c Hc). destruct (p' c); [apply Hk, Hs | reflexivity].
  - destruct Hr as [H1 H2]. apply (IH1 _ H1); [exact Hs |].
    intros s' caps' Hs'. apply (IH2 _ H2); assumption.
  - destruct Hr as [H1 H2].
    rewrite (IH1 _ H1 s caps k k' Hs Hk), (IH2 _ H2 s caps k k' Hs Hk). reflexivity.
  - destruct Hr as (<- & <- & <- & Hp). destruct g.
    + apply (rep_greedy_agree ok); [exact Hp | exact Hs |].
      intros s' Hs'. apply Hk, Hs'.
    + apply (rep_lazy_agree ok); [exact Hp | exact Hs |].
      intros s' Hs'. apply Hk, Hs'.
  - rewrite (IH1 _ Hr s caps k k' Hs Hk), (Hk s caps Hs). reflexivity.
  - destruct Hr as [<- H1]. apply (IH1 _ H1); [exact Hs |].
    intros s' caps' Hs'. apply Hk, Hs'.
Qed.

Lemma findall_from_agree (ok : ascii -> bool) (r r' : regex) :
  agree ok r r' ->
  forall s skip, all_chars ok s = true -> findall_from r skip s = findall_from r' skip s.
Proof.
  intros Hr. induction s as [| c s IH]; intros skip Hs; [reflexivity |].
  pose proof Hs as Hcs. cbn [all_chars] in Hs. apply andb_prop in Hs as [Hc Hs].
  cbn [findall_from]. destruct skip as [| skip]; [| apply IH, Hs].
  rewrite (rmatch_agree ok r r' Hr (String c s) []
             (fun rest caps => Some (rest, caps)) (fun rest caps => Some (rest, caps)) Hcs)
    by reflexivity.
  destruct (rmatch r' (String c s) [] (fun rest caps => Some (rest, caps))) as [[rest caps] |].
  - f_equal. apply IH, Hs.
  - apply IH, Hs.
Qed.

(** Without the capital letters H, T, P, S the flag [re.IGNORECASE] makes
    no difference to the pattern of a general URL. *)
Lemma general_url_agree :
  agree (fun c => negb (one_of "HTPS" c)) (GENERAL_URL true) (GENERAL_URL false).
Proof.
  cbn -[lit one_of].
  repeat split;
    intros [[] [] [] [] [] [] [] []] Hc; try reflexivity; discriminate Hc.
Qed.

Lemma filter_none {A : Type} (f : A -> bool) (l : list A) :
  (forall x, In x l -> f x = false) -> List.filter f l = [].
Proof.
  induction l as [| a l IH]; intros H; [reflexivity |].
  cbn [List.filter]. rewrite (H a (or_introl eq_refl)).
  apply IH. intros x Hx. apply H. right. exact Hx.
Qed.

(** A text of white space has no ["<Media omitted>"] in it. *)
Lemma blank_not_omitted (text : string) :
  PyStr.is_empty text || PyStr.blank text = true ->
  PyStr.contains "<Media omitted>" text = false.
Proof.
  intros H.
  assert (Hws : Spec.whitespace_only text).
  { destruct text as [| c s]; [constructor |].
    apply StripFacts.blank_iff_whitespace_only. exact H. }
  clear H. unfold Spec.whitespace_only in Hws.
  induction text as [| c s IH]; [reflexivity |].
  cbn [list_ascii_of_string] in Hws. inversion Hws as [| ? ? Hc Hs]; subst.
  cbn [PyStr.contains]. rewrite (IH Hs).
  cbn [String.prefix].
  destruct (Ascii.ascii_dec "<" c) as [<- | _]; [discriminate Hc | reflexivity].
Qed.

(** X25. Whatever the text, [MediaExtractor.extract] reports no image, no
    video and no document: the loop looks up the keys 'image', 'video' and
    'document', which the result dict, with its keys 'images', 'videos' and
    'documents', does not have.  The dict has the five keys in a fixed
    order, then 'media_omitted' exactly when ["<Media omitted>"] occurs in
    the text, and then every list is empty. *)
Theorem media_kinds_never_reported
    (list_of_set : list string -> list string) (text : string) :
  exists audio links,
    extract list_of_set text =
      ([("images", Urls []); ("videos", Urls []); ("audio", Urls audio);
        ("documents", Urls []); ("links", Urls links)] ++
       (if PyStr.contains "<Media omitted>" text
        then [("media_omitted", PyTrue)] else []))%list /\
    (PyStr.contains "<Media omitted>" text = true -> audio = [] /\ links = []) /\
    (Spec.whitespace_only text -> audio = [] /\ links = []).
Proof.
  unfold extract.
  destruct (PyStr.is_empty text || PyStr.blank text) eqn:Hblank.
  - exists [], []. rewrite (blank_not_omitted text Hblank).
    repeat split; reflexivity.
  - assert (Hnotws : ~ Spec.whitespace_only text).
    { intro H. apply StripFacts.blank_iff_whitespace_only in H.
      apply orb_false_iff in Hblank. destruct Hblank as [_ Hb]. congruence. }
    destruct (PyStr.contains "<Media omitted>" text) eqn:Homitted.
    + exists [], []. repeat split; reflexivity || contradiction.
    + cbn [MEDIA_PATTERNS fold_left String.eqb Ascii.eqb Bool.eqb dict_in NO_MEDIA existsb
           fst snd orb andb].
      destruct (is_nil (findall (AUDIO true) text)); cbn [negb].
      * do 2 eexists. split; [reflexivity |].
        split; [discriminate | contradiction].
      * do 2 eexists. split; [reflexivity |].
        split; [discriminate | contradiction].
Qed.

Lemma media_kinds_never_reported_witness :
  exists audio links,
    extract (fun l => l) "photo <Media omitted> http://a.b/c.mp3" =
      [("images", Urls []); ("videos", Urls []); ("audio", Urls audio);
       ("documents", Urls []); ("links", Urls links); ("media_omitted", PyTrue)] /\
    audio = [] /\ links = [].
Proof.
  destruct (media_kinds_never_reported (fun l => l)
              "photo <Media omitted> http://a.b/c.mp3")
    as (audio & links & E & H & _).
  exists audio, links. split; [exact E |]. apply H. reflexivity.
Defined.

(** X26. An ASCII text without the capital letters H, T, P, S gets no
    link: each URL found by the general pattern is also found by the same
    pattern with [re.IGNORECASE], and is taken out as already classified.
    (On ASCII texts the two patterns differ in the letters of the scheme
    only.)  A link is reported behind a scheme written in capitals, as in
    "HTTP://ahttp://b". *)
Theorem links_need_capital_scheme
    (list_of_set : list string -> list string) (text : string) :
  (ascii_text text -> no_capital_scheme text ->
   dict_get "links" (extract list_of_set text) = Some (Urls [])) /\
  dict_get "links" (extract list_of_set "HTTP://ahttp://b") = Some (Urls ["http://b"]).
Proof.
  split; [| reflexivity].
  intros _ Hcap. unfold extract.
  destruct (PyStr.is_empty text || PyStr.blank text); [reflexivity |].
  destruct (PyStr.contains "<Media omitted>" text); [reflexivity |].
  rewrite filter_none.
  - cbn [MEDIA_PATTERNS fold_left String.eqb Ascii.eqb Bool.eqb dict_in NO_MEDIA existsb
         fst snd orb andb].
    destruct (is_nil (findall (AUDIO true) text)); reflexivity.
  - intros u Hu. apply negb_false_iff, KeywordFacts.existsb_eqb_In.
    apply in_flat_map. exists ("general_url", GENERAL_URL). split.
    + cbn [MEDIA_PATTERNS In]. tauto.
    + cbn [snd]. unfold findall in *.
      rewrite (findall_from_agree _ _ _ general_url_agree text 0 Hcap). exact Hu.
Qed.

Lemma links_need_capital_scheme_witness :
  ascii_text "see http://a.b/c.png and https://d.e/f" /\
  no_capital_scheme "see http://a.b/c.png and https://d.e/f" /\
  Media.findall (GENERAL_URL false) "see http://a.b/c.png and https://d.e/f"
  = ["http://a.b/c.png"; "https://d.e/f"] /\
  dict_get "links" (extract (fun l => l) "see http://a.b/c.png and https://d.e/f")
  = Some (Urls []).
Proof.
  split; [reflexivity |]. split; [reflexivity |]. split; [reflexivity |].
  destruct (links_need_capital_scheme (fun l => l) "see http://a.b/c.png and https://d.e/f")
    as [H _].
  apply H; reflexivity.
Defined.

End MediaFacts.

(** ** The language statistics *)

Module LanguageFacts.
Import PyNum Eff Keywords KeywordWords KeywordFacts Emotions EmotionFacts.
Import Language LanguageWords.

Lemma bump_counter_add (w : string) (d : list (string * nat)) :
  bump String.eqb w d = counter_add w d.
Proof.
  induction d as [| [k n] d IH]; cbn [bump counter_add]; [reflexivity |].
  now rewrite IH.
Qed.

Lemma total_bump {K : Type} (eqb : K -> K -> bool) (key : K) (d : list (K * nat)) :
  fold_left Nat.add (map snd (bump eqb key d)) 0 = S (fold_left Nat.add (map snd d) 0).
Proof.
  induction d as [| [k n] d IH]; cbn [bump map snd fold_left]; [reflexivity |].
  destruct (eqb k key); cbn [map snd fold_left].
  - rewrite (fold_add_from _ (0 + S n)), (fold_add_from _ (0 + n)). lia.
  - rewrite (fold_add_from _ (0 + n)), IH, (fold_add_from _ (0 + n)). lia.
Qed.

Lemma total_counter_add (w : string) (c : list (string * nat)) :
  fold_left Nat.add (map snd (counter_add w c)) 0 = S (fold_left Nat.add (map snd c) 0).
Proof. rewrite <- bump_counter_add. apply total_bump. Qed.

(** The counts of a [Counter] add up to the number of words counted. *)
Lemma total_Counter (words : list string) :
  fold_left Nat.add (map snd (Counter words)) 0 = List.length words.
Proof.
  unfold Counter.
  assert (H : forall c,
             fold_left Nat.add
               (map snd (fold_left (fun counter w => counter_add w counter) words c)) 0
             = fold_left Nat.add (map snd c) 0 + List.length words).
  { induction words as [| w words IH]; intro c; cbn [fold_left List.length]; [lia |].
    rewrite IH, total_counter_add. lia. }
  rewrite H. reflexivity.
Qed.

(** Counting more words leaves the keys in place and adds new ones behind
    them. *)
Lemma keys_fold_extend (words : list string) :
  forall c, exists extra,
    map fst (fold_left (fun counter w => counter_add w counter) words c)
    = (map fst c ++ extra)%list.
Proof.
  induction words as [| w words IH]; intro c; cbn [fold_left].
  - exists []. now rewrite app_nil_r.
  - destruct (IH (counter_add w c)) as [extra E]. rewrite E, keys_counter_add.
    destruct (existsb (String.eqb w) (map fst c)).
    + now exists extra.
    + exists (w :: extra). now rewrite <- app_assoc.
Qed.

Lemma first_occurrence (w : string) (l : list string) :
  In w l -> exists pre post, l = (pre ++ w :: post)%list /\ ~ In w pre.
Proof.
  induction l as [| x l IH]; [intros [] |]. intro H.
  destruct (String.eqb_spec x w) as [-> | Hx].
  - exists [], l. split; [reflexivity | intros []].
  - destruct H as [H | H]; [contradiction |].
    destruct (IH H) as (pre & post & -> & Hpre).
    exists (x :: pre), post. split; [reflexivity |].
    intros [E | Hin]; [contradiction | now apply Hpre].
Qed.

Lemma NoDup_split_unique {A : Type} (x : A) (a b : list A) :
  forall a' b', NoDup (a ++ x :: b) -> (a ++ x :: b = a' ++ x :: b')%list -> a = a'.
Proof.
  induction a as [| y a IH]; intros a' b' Hnd E.
  - destruct a' as [| y' a']; [reflexivity |].
    cbn [app] in *. injection E as <- E. inversion Hnd as [| ? ? Hx _]; subst.
    exfalso. apply Hx. apply in_elt.
  - destruct a' as [| y' a']; cbn [app] in *.
    + injection E as -> E. inversion Hnd as [| ? ? Hx _]; subst.
      exfalso. apply Hx. apply in_elt.
    + injection E as <- E. inversion Hnd as [| ? ? _ Hnd']; subst.
      f_equal. eapply IH; eassumption.
Qed.

(** The keys of a [Counter] come in the order in which the words were
    first met: what stands before the first occurrence of a word has its
    key before the key of that word. *)
Lemma Counter_key_order (words : list string) (p : string) (kpre kpost : list string) :
  map fst (Counter words) = (kpre ++ p :: kpost)%list ->
  exists before after,
    words = (before ++ p :: after)%list /\ forall l, In l before -> In l kpre.
Proof.
  intro E.
  assert (Hp : In p words).
  { apply keys_Counter. rewrite E. apply in_elt. }
  destruct (first_occurrence p words Hp) as (before & after & -> & Hfirst).
  exists before, after. split; [reflexivity |].
  assert (Hnd : NoDup (map fst (Counter (before ++ p :: after)))) by apply Counter_spec.
  unfold Counter in E, Hnd. rewrite fold_left_app in E, Hnd. cbn [fold_left] in E, Hnd.
  fold (Counter before) in E, Hnd.
  destruct (keys_fold_extend after (counter_add p (Counter before))) as [extra Ex].
  rewrite Ex in E, Hnd. rewrite keys_counter_add in E, Hnd.
  destruct (existsb (String.eqb p) (map fst (Counter before))) eqn:Hex.
  { exfalso. apply Hfirst. apply (keys_Counter before p). apply existsb_eqb_In. exact Hex. }
  rewrite <- app_assoc in E, Hnd. cbn [app] in E, Hnd.
  apply NoDup_split_unique in E; [| exact Hnd].
  intros l Hl. rewrite <- E. now apply keys_Counter.
Qed.

(** [max(d, key=d.get)] picks the first item that no other exceeds. *)
Lemma max_from_spec (d : list (string * nat)) :
  forall best, exists pre post,
    (best :: d = pre ++ max_from best d :: post)%list /\
    (forall x, In x pre -> snd x < snd (max_from best d)) /\
    (forall x, In x post -> snd x <= snd (max_from best d)).
Proof.
  induction d as [| x d IH]; intro best; cbn [max_from].
  - exists [], []. split; [reflexivity |]. split; intros x [].
  - destruct (Nat.ltb_spec (snd best) (snd x)) as [Hlt | Hge].
    + destruct (IH x) as (pre & post & E & Hpre & Hpost).
      exists (best :: pre), post. split; [cbn [app]; now rewrite E |].
      split; [| exact Hpost].
      intros y [<- | Hy]; [| now apply Hpre].
      destruct pre as [| z pre]; cbn [app] in E.
      * injection E as E _. rewrite <- E. exact Hlt.
      * injection E as <- _. specialize (Hpre x (or_introl eq_refl)). lia.
    + destruct (IH best) as (pre & post & E & Hpre & Hpost).
      destruct pre as [| z pre]; cbn [app] in E.
      * injection E as E1 E2. exists [], (x :: d).
        split; [cbn [app]; now rewrite <- E1 |].
        split; [intros y [] |].
        intros y [<- | Hy]; [rewrite <- E1; exact Hge |].
        apply Hpost. rewrite <- E2. exact Hy.
      * injection E as <- E2. exists (best :: x :: pre), post.
        split; [cbn [app]; do 2 f_equal; exact E2 |].
        split; [| exact Hpost].
        pose proof (Hpre best (or_introl eq_refl)) as Hb.
        intros y [<- | [<- | Hy]]; [exact Hb | lia |].
        apply Hpre. now right.
Qed.

Lemma Forall_bump {K : Type} (eqb : K -> K -> bool) (P : K -> Prop) (key : K)
    (d : list (K * nat)) :
  P key -> Forall (fun e => P (fst e) /\ 1 <= snd e) d ->
  Forall (fun e => P (fst e) /\ 1 <= snd e) (bump eqb key d).
Proof.
  intros Hkey. induction 1 as [| [k n] d [Hk Hn] Hd IH]; cbn [bump].
  - constructor; [split; [exact Hkey | cbn; lia] | constructor].
  - destruct (eqb k key); constructor; try assumption; split; cbn in *; try assumption; lia.
Qed.

(** The two languages of a pair come in the order of [str]. *)
Lemma sorted_pair_ordered (a b : string) :
  String.leb (fst (sorted_pair a b)) (snd (sorted_pair a b)) = true.
Proof.
  unfold sorted_pair, String.ltb, String.leb.
  destruct (String.compare b a) eqn:E; cbn [fst snd].
  - rewrite String.compare_antisym, E. reflexivity.
  - rewrite E. reflexivity.
  - rewrite String.compare_antisym, E. reflexivity.
Qed.

Lemma sorted_pair_members (a b : string) :
  (fst (sorted_pair a b) = a \/ fst (sorted_pair a b) = b) /\
  (snd (sorted_pair a b) = a \/ snd (sorted_pair a b) = b).
Proof. unfold sorted_pair. destruct (String.ltb b a); cbn [fst snd]; tauto. Qed.

(** What the loop over the neighbours adds to the pairs counted so far. *)
Lemma count_pairs_spec (P : string -> Prop) (seq : list string) :
  Forall P seq ->
  forall lang_pairs,
    Forall (fun e => (String.leb (fst (fst e)) (snd (fst e)) = true /\
                      P (fst (fst e)) /\ P (snd (fst e))) /\ 1 <= snd e) lang_pairs ->
    fold_left Nat.add (map snd (count_pairs seq lang_pairs)) 0
    = fold_left Nat.add (map snd lang_pairs) 0 + neighbours seq /\
    Forall (fun e => (String.leb (fst (fst e)) (snd (fst e)) = true /\
                      P (fst (fst e)) /\ P (snd (fst e))) /\ 1 <= snd e)
           (count_pairs seq lang_pairs).
Proof.
  unfold neighbours.
  induction 1 as [| a seq Ha Hseq IH]; intros lang_pairs Hpairs.
  - cbn. split; [lia | exact Hpairs].
  - destruct seq as [| b seq'].
    + cbn. split; [lia | exact Hpairs].
    + change (count_pairs (a :: b :: seq') lang_pairs)
        with (count_pairs (b :: seq') (bump pair_eqb (sorted_pair a b) lang_pairs)).
      inversion Hseq as [| ? ? Hb _]; subst.
      destruct (IH (bump pair_eqb (sorted_pair a b) lang_pairs)) as [Hsum Hall].
      * apply (Forall_bump pair_eqb
                 (fun k => String.leb (fst k) (snd k) = true /\ P (fst k) /\ P (snd k)));
          [| exact Hpairs].
        split; [apply sorted_pair_ordered |].
        destruct (sorted_pair_members a b) as [[-> | ->] [-> | ->]]; split; assumption.
      * split; [| exact Hall]. rewrite Hsum, total_bump. cbn [List.length Nat.pred]. lia.
Qed.

Section Detect.
Variable langdetect : string -> outcome string.

(** The loop counts the languages of the texts that count, one after the
    other. *)
Lemma language_loop (messages : list (option string)) :
  forall lang_counts language_sequence,
    fold_left
      (fun (state : list (string * nat) * list string) msg =>
         let (lang_counts, language_sequence) := state in
         let text := Explanation.get msg "" in
         if PyStr.blank text then state
         else
           let lang := detect langdetect text in
           (bump String.eqb lang lang_counts, (language_sequence ++ [lang])%list))
      messages (lang_counts, language_sequence)
    = (fold_left (fun counter w => counter_add w counter)
         (map (detect langdetect) (spoken messages)) lang_counts,
       (language_sequence ++ map (detect langdetect) (spoken messages))%list).
Proof.
  unfold spoken.
  induction messages as [| msg messages IH]; intros lang_counts language_sequence.
  - cbn. now rewrite app_nil_r.
  - cbn [fold_left map List.filter].
    destruct (PyStr.blank (Explanation.get msg "")); cbn [negb].
    + apply IH.
    + cbv zeta. rewrite IH, bump_counter_add. cbn [map fold_left].
      now rewrite <- app_assoc.
Qed.

Local Open Scope Q_scope.

(** The statistics, in terms of the languages detected. *)
Lemma analyze_distribution_unfold (messages : list (option string)) :
  analyze_distribution langdetect messages
  = let seq := map (detect langdetect) (spoken messages) in
    let lang_counts := Counter seq in
    let total := List.length seq in
    if Nat.eqb total 0 then
      {| distribution := [];
         languages_count := 0;
         primary_language := "unknown";
         language_pairs := [] |}
    else
      {| distribution :=
           map (fun '(lang, count) => (lang, nat_to_Q count / nat_to_Q total * 100))
               lang_counts;
         languages_count := List.length lang_counts;
         primary_language :=
           match lang_counts with
           | [] => "unknown"
           | x :: d => fst (max_from x d)
           end;
         language_pairs := count_pairs seq [] |}.
Proof.
  unfold analyze_distribution. rewrite language_loop. cbn [app]. cbv zeta.
  fold (Counter (map (detect langdetect) (spoken messages))).
  rewrite total_Counter. reflexivity.
Qed.

Lemma lookup_le_bound (c : list (string * nat)) (l : string) (b : nat) :
  (forall x, In x c -> (snd x <= b)%nat) -> (lookup l c <= b)%nat.
Proof.
  induction c as [| [k n] c IH]; intro H; cbn [lookup]; [lia |].
  destruct (String.eqb k l).
  - apply (H (k, n)). now left.
  - apply IH. intros x Hx. apply H. now right.
Qed.

(** X27. [analyze_distribution] lists each language detected in a message
    that is not blank once, with its share of those messages in percent:
    every share is in (0, 100] and the shares add up to 100 (in exact
    arithmetic); [languages_count] is the number of languages listed.
    Without such a message the distribution is empty. *)
Theorem language_shares (messages : list (option string)) :
  let r := analyze_distribution langdetect messages in
  let seq := map (detect langdetect) (spoken messages) in
  NoDup (map fst (distribution r)) /\
  languages_count r = List.length (distribution r) /\
  (forall l, In l (map fst (distribution r)) <-> In l seq) /\
  (forall l share, In (l, share) (distribution r) ->
     share == nat_to_Q (occurrences l seq) / nat_to_Q (List.length seq) * 100 /\
     0 < share <= 100) /\
  (seq <> [] -> py_sum (map snd (distribution r)) == 100).
Proof.
  intros r seq. subst r. rewrite analyze_distribution_unfold. fold seq. cbv zeta.
  destruct (Nat.eqb_spec (List.length seq) 0) as [Hzero | Hpos];
    cbn [distribution languages_count].
  - apply length_zero_iff_nil in Hzero. rewrite Hzero.
    split; [constructor |]. split; [reflexivity |].
    split; [intro l; reflexivity |].
    split; [intros l share [] | intro H; now contradiction H].
  - destruct (Counter_spec seq) as (Hnd & Hone & _ & Hlook).
    set (c := Counter seq) in *. set (T := List.length seq) in *.
    assert (HT : 0 < nat_to_Q T) by (apply nat_to_Q_pos; lia).
    assert (Hkeys : map fst (map (fun '(lang, count) =>
                                    (lang, nat_to_Q count / nat_to_Q T * 100)) c)
                    = map fst c).
    { rewrite map_map. apply map_ext. intros [k n]. reflexivity. }
    rewrite Hkeys. split; [exact Hnd |].
    split; [now rewrite length_map |].
    split; [intro l; apply keys_Counter |].
    split.
    + intros l share Hin. apply in_map_iff in Hin as ([k n] & E & Hin).
      injection E as <- <-.
      assert (Hn : n = occurrences k seq).
      { rewrite <- Hlook. symmetry. now apply lookup_In. }
      assert (H1 : (1 <= n)%nat).
      { rewrite Forall_forall in Hone. apply (Hone (k, n) Hin). }
      assert (H2 : (n <= T)%nat) by (rewrite Hn; apply occurrences_le_length).
      rewrite <- Hn. split; [reflexivity |].
      pose proof (nat_to_Q_pos n H1) as Hn0. pose proof (nat_to_Q_le n T H2) as HnT.
      assert (0 < nat_to_Q n / nat_to_Q T) by (apply Qlt_shift_div_l; lra).
      assert (nat_to_Q n / nat_to_Q T <= 1) by (apply Qle_shift_div_r; lra).
      lra.
    + intros _. rewrite shares_sum by lra. fold c. unfold c, T. rewrite total_Counter.
      fold T. field. lra.
Qed.

(** X28. The primary language is the one detected most often among the
    messages that are not blank and, of several such, the one detected
    first; without such a message it is "unknown". *)
Theorem primary_language_most_frequent (messages : list (option string)) :
  let r := analyze_distribution langdetect messages in
  let seq := map (detect langdetect) (spoken messages) in
  (seq = [] -> primary_language r = "unknown") /\
  (seq <> [] ->
   exists before after,
     seq = (before ++ primary_language r :: after)%list /\
     (forall l, In l before ->
        (occurrences l seq < occurrences (primary_language r) seq)%nat) /\
     (forall l, (occurrences l seq <= occurrences (primary_language r) seq)%nat)).
Proof.
  intros r seq. subst r. rewrite analyze_distribution_unfold. fold seq. cbv zeta.
  split.
  - intros ->. reflexivity.
  - intro Hseq.
    destruct (Nat.eqb_spec (List.length seq) 0) as [Hzero | _].
    { apply length_zero_iff_nil in Hzero. contradiction. }
    cbn [primary_language].
    destruct (Counter_spec seq) as (Hnd & _ & _ & Hlook).
    destruct (Counter seq) as [| x d] eqn:Ec.
    { destruct seq as [| w seq']; [contradiction |].
      assert (H : In w (map fst (Counter (w :: seq')))) by (apply keys_Counter; now left).
      rewrite Ec in H. destruct H. }
    destruct (max_from_spec d x) as (pre & post & E & Hpre & Hpost).
    set (m := max_from x d) in *.
    assert (Hm : lookup (fst m) (x :: d) = snd m).
    { apply lookup_In; [exact Hnd |]. rewrite E. destruct m. apply in_elt. }
    assert (Hkeys : map fst (Counter seq) = (map fst pre ++ fst m :: map fst post)%list).
    { rewrite Ec, E, map_app. reflexivity. }
    destruct (Counter_key_order seq (fst m) _ _ Hkeys) as (before & after & Hsplit & Hbefore).
    exists before, after. split; [exact Hsplit |].
    rewrite <- !Hlook, Hm. split.
    + intros l Hl. apply Hbefore, in_map_iff in Hl as ([k n] & <- & Hin).
      cbn [fst]. rewrite <- Hlook, (lookup_In (x :: d) k n Hnd).
      * apply (Hpre (k, n) Hin).
      * rewrite E. apply in_or_app. now left.
    + intro l. rewrite <- Hlook. apply lookup_le_bound. intros y Hy. rewrite E in Hy.
      apply in_app_or in Hy as [Hy | [<- | Hy]].
      * specialize (Hpre y Hy). lia.
      * lia.
      * apply Hpost, Hy.
Qed.

(** X29. [language_pairs] counts the pairs of neighbours in the sequence of
    detected languages, a pair being written with its two languages in the
    order of [str]: the counts add up to the number of neighbour pairs, and
    both languages of a counted pair were detected. *)
Theorem language_pairs_counted (messages : list (option string)) :
  let r := analyze_distribution langdetect messages in
  let seq := map (detect langdetect) (spoken messages) in
  fold_left Nat.add (map snd (language_pairs r)) 0%nat = neighbours seq /\
  (forall a b n, In (a, b, n) (language_pairs r) ->
     String.leb a b = true /\ (1 <= n)%nat /\ In a seq /\ In b seq).
Proof.
  intros r seq. subst r. rewrite analyze_distribution_unfold. fold seq. cbv zeta.
  destruct (Nat.eqb_spec (List.length seq) 0) as [Hzero | _]; cbn [language_pairs].
  - apply length_zero_iff_nil in Hzero. rewrite Hzero.
    split; [reflexivity | intros a b n []].
  - destruct (count_pairs_spec (fun l => In l seq) seq) with (lang_pairs := @nil (string * string * nat))
      as [Hsum Hall].
    + apply Forall_forall. intros l Hl. exact Hl.
    + constructor.
    + split; [exact Hsum |].
      intros a b n Hin. rewrite Forall_forall in Hall.
      destruct (Hall (a, b, n) Hin) as [(H1 & H2 & H3) H4]. cbn [fst snd] in *.
      repeat split; assumption.
Qed.

End Detect.

Lemma language_shares_witness :
  (py_sum (map snd (distribution
                      (analyze_distribution
                         (fun t => if String.eqb t "hola" then Returned "es"
                                   else Returned "en")
                         [Some "hola"; Some "hi"; None; Some "hola"]))) == 100)%Q.
Proof.
  destruct (language_shares
              (fun t => if String.eqb t "hola" then Returned "es" else Returned "en")
              [Some "hola"; Some "hi"; None; Some "hola"]) as (_ & _ & _ & _ & H).
  apply H. intro E. vm_compute in E. discriminate E.
Defined.

Lemma primary_language_most_frequent_witness :
  let r := analyze_distribution
             (fun t => if String.eqb t "hola" then Returned "es" else Returned "en")
             [Some "hi"; Some "hola"; None; Some "hola"; Some "yes"] in
  let seq := ["en"; "es"; "es"; "en"] in
  primary_language r = "en" /\
  (exists before after,
     seq = (before ++ primary_language r :: after)%list /\
     (forall l, In l before ->
        (occurrences l seq < occurrences (primary_language r) seq)%nat) /\
     (forall l, (occurrences l seq <= occurrences (primary_language r) seq)%nat)) /\
  primary_language (analyze_distribution (fun _ => Raised "no profile") [Some " "; None])
  = "unknown".
Proof.
  intros r seq.
  destruct (primary_language_most_frequent
              (fun t => if String.eqb t "hola" then Returned "es" else Returned "en")
              [Some "hi"; Some "hola"; None; Some "hola"; Some "yes"]) as [_ H].
  destruct (primary_language_most_frequent (fun _ => Raised "no profile") [Some " "; None])
    as [H0 _].
  split; [reflexivity |]. split.
  - apply H. intro E. vm_compute in E. discriminate E.
  - apply H0. reflexivity.
Defined.

Lemma language_pairs_counted_witness :
  In ("en", "es", 2%nat)
     (language_pairs
        (analyze_distribution
           (fun t => if String.eqb t "hola" then Returned "es" else Returned "en")
           [Some "hola"; Some "hi"; None; Some "hola"])) /\
  String.leb "en" "es" = true.
Proof.
  split; [vm_compute; left; reflexivity |].
  destruct (language_pairs_counted
              (fun t => if String.eqb t "hola" then Returned "es" else Returned "en")
              [Some "hola"; Some "hi"; None; Some "hola"]) as [_ H].
  destruct (H "en" "es" 2%nat) as (Hle & _); [vm_compute; left; reflexivity | exact Hle].
Defined.

End LanguageFacts.
